(** * Flexibility under low observability: sampler and Monte Carlo sweep

    A shallow embedding of [data_sampler.py], [utils.py],
    [monte_carlo.py] and the index lists of [scenario_setup.py].

    - Numbers are IEEE binary64 values ([float]), as numpy and Python have
      them, so that [NaN], signed zeros and rounding behave as in the
      program; [x ** 2] is the rounded product [x * x].
    - Sample counts and indices are natural numbers, for which
      [int(n / k)] is the quotient [n / k].
    - The tables [net.sgen] and [net.load] are lists of rows, labelled
      0, 1, ... as pandapower creates them.  Reading a label that is not
      there raises [KeyError]; an assignment [frame[col][i] = v] writes in
      place, and does not reach the frame when [i] is not one of its labels.
    - Exceptions are values of [result]; the pseudo-random generator, the
      wall clock, standard output and the power-flow solver are threaded
      through an explicit [World].
    - The index lists of a scenario are lists of integers, as the program
      holds them when they are Python lists.  The functions modelled here
      index them, test membership and, in the sampler of the loads
      ([flex_loads == []], [not flex_loads]), test them for emptiness;
      those two tests are modelled for Python lists only, not for
      [np.arange] arrays.
    - [write_result] is modelled up to the frame it hands to [to_csv].
      Plotting, the printed scenario reports and the scenario shifts
      ([apply_uss], [apply_tss]) are not modelled. *)

From Stdlib Require Import Floats ZArith Bool Lia.
From stdpp Require Import base list strings.

(** ** Binary64 arithmetic as the program uses it *)

Module F64.

(** [x ** 2] *)
Definition pow2 (x : float) : float := (x * x)%float.

(** [np.isnan x] *)
Definition isnan (x : float) : bool := negb (x =? x)%float.

(** [x >= y] *)
Definition geb (x y : float) : bool := (y <=? x)%float.

(** [(-1) ** j], an [int] that numpy converts to binary64 when it
    multiplies a float with it. *)
Definition neg1_pow (j : nat) : float :=
  if Nat.even j then 1%float else (-1)%float.

(** The literal [0.02], i.e. the binary64 value nearest to it. *)
Definition lit_0_02 : float := 0x1.47ae147ae147bp-6%float.

End F64.

(** ** Exceptions *)

Inductive exn : Type :=
| AssertionError (msg : string)
| IndexError
| KeyError
| ValueError
| AxisError
| UnboundLocalError.

Inductive result (A : Type) : Type :=
| Ok (a : A)
| Raise (e : exn).
Arguments Ok {A} a.
Arguments Raise {A} e.

#[export] Instance result_ret : MRet result := fun A a => Ok a.
#[export] Instance result_bind : MBind result := fun A B f r =>
  match r with Ok a => f a | Raise e => Raise e end.

(** [l[i]] on a Python list or a numpy array: [IndexError] out of range. *)
Definition index {A} (l : list A) (i : nat) : result A :=
  match l !! i with Some x => Ok x | None => Raise IndexError end.

(** [series[i]] on a pandas column with the default 0..n-1 labels:
    [KeyError] on a label that is not there. *)
Definition loc {A} (l : list A) (i : nat) : result A :=
  match l !! i with Some x => Ok x | None => Raise KeyError end.

(** ** Data model *)

(** A row of [net.sgen] or [net.load], with the columns the program reads. *)
Record unit_row : Type := mk_row {
  p_mw : float;
  q_mvar : float;
  sn_mva : float
}.

(** One [[p, q]] entry, one Monte Carlo profile, one raw-draw array. *)
Abbreviation pq := (float * float)%type (only parsing).
Abbreviation profile := (list pq) (only parsing).
Abbreviation array2 := (list (list float)) (only parsing).

(** The result tables a converged power flow leaves in the network. *)
Record pf_result : Type := mk_res {
  res_bus_vm_pu : list float;
  res_line_loading_percent : list float;
  res_trafo_loading_percent : list float;
  res_ext_grid_p_mw : float;
  res_ext_grid_q_mvar : float
}.

Record network : Type := mk_net {
  sgen : list unit_row;
  load : list unit_row;
  res : pf_result
}.

(** What the program prints. *)
Inductive event : Type :=
| PrintSampled (no_samples : nat) (distribution : string) (dur : float)
| PrintNaN (sn p : float) (i : nat)
| PrintNotConverged (p : profile)
| PrintPowerFlows (no_samples : nat) (dur : float)
| PrintPfRun (n : nat)
| PrintFlexNonFlex (n_flex n_non_flex : nat).

(** ** External collaborators *)

(** numpy's legacy generator: an opaque state, seeding, and the two
    primitive draws ([legacy_gauss] for [normal], [random_sample] for
    [uniform]). *)
Class Generator : Type := {
  RandomState : Type;
  RandomState_seed : Z -> RandomState;
  legacy_gauss : RandomState -> float * RandomState;
  random_sample : RandomState -> float * RandomState
}.

(** pandapower's [runpp]: it may keep hidden state between calls; [None]
    stands for any exception it raises. *)
Class Solver : Type := {
  solver : Type;
  runpp : solver -> network -> solver * option pf_result
}.

(** ** The world the program runs in *)

Section Program.
Context `{Gen : Generator} `{Pf : Solver}.

(** [rng] is the one [RandomState] object of a run, [clock] the readings
    [time.time()] will return, [ticks] how many were taken, [stdout] what
    was printed so far (oldest first), [pf] the solver's hidden state. *)
Record World : Type := mk_world {
  rng : RandomState;
  clock : nat -> float;
  ticks : nat;
  stdout : list event;
  pf : solver
}.

Definition M (A : Type) : Type := World -> result A * World.

#[export] Instance M_ret : MRet M := fun A a w => (Ok a, w).
#[export] Instance M_bind : MBind M := fun A B f m w =>
  match m w with
  | (Ok a, w') => f a w'
  | (Raise e, w') => (Raise e, w')
  end.

Definition raise {A} (e : exn) : M A := fun w => (Raise e, w).

Definition lift {A} (r : result A) : M A := fun w => (r, w).

(** [time.time()] *)
Definition time_time : M float := fun w =>
  (Ok (clock w (ticks w)),
   mk_world (rng w) (clock w) (S (ticks w)) (stdout w) (pf w)).

(** [print(...)] *)
Definition print (e : event) : M unit := fun w =>
  (Ok tt, mk_world (rng w) (clock w) (ticks w) (stdout w ++ [e]) (pf w)).

(** [rng = np.random.RandomState(s)] *)
Definition RandomState_init (s : Z) : M unit := fun w =>
  (Ok tt, mk_world (RandomState_seed s) (clock w) (ticks w) (stdout w) (pf w)).

(** ** numpy *)

(** [n] consecutive draws. *)
Fixpoint fill (draw : RandomState -> float * RandomState) (n : nat)
    (rs : RandomState) : list float * RandomState :=
  match n with
  | 0 => ([], rs)
  | S n' =>
      let (z, rs1) := draw rs in
      let (zs, rs2) := fill draw n' rs1 in
      (z :: zs, rs2)
  end.

(** A [rows] x [cols] array filled in row-major order. *)
Fixpoint fill2 (draw : RandomState -> float * RandomState) (rows cols : nat)
    (rs : RandomState) : array2 * RandomState :=
  match rows with
  | 0 => ([], rs)
  | S rows' =>
      let (r, rs1) := fill draw cols rs in
      let (a, rs2) := fill2 draw rows' cols rs1 in
      (r :: a, rs2)
  end.

Definition rng_fill2 (draw : RandomState -> float * RandomState)
    (rows cols : nat) : M array2 := fun w =>
  let (a, rs) := fill2 draw rows cols (rng w) in
  (Ok a, mk_world rs (clock w) (ticks w) (stdout w) (pf w)).

(** [rng.normal(loc, scale, [rows, cols])]: [loc + scale * gauss]. *)
Definition rng_normal (loc scale : float) (rows cols : nat) : M array2 :=
  rng_fill2 (fun rs => let (z, rs') := legacy_gauss rs in
                       ((loc + scale * z)%float, rs')) rows cols.

(** [rng.uniform(low, high, [rows, cols])]: [low + (high - low) * u]. *)
Definition rng_uniform (low high : float) (rows cols : nat) : M array2 :=
  rng_fill2 (fun rs => let (u, rs') := random_sample rs in
                       ((low + (high - low) * u)%float, rs')) rows cols.

(** [np.ones((rows, cols))] *)
Definition np_ones (rows cols : nat) : array2 :=
  replicate rows (replicate cols 1%float).

(** [np.concatenate((a, b), axis=1)] on two arrays with as many rows. *)
Definition hstack (a b : array2) : array2 := zip_with app a b.

(** The shape of [np.array(b)] for a list of profiles; a list of no
    profiles is one-dimensional, profiles of no entries make it
    two-dimensional.  [None] when the profiles differ in length. *)
Definition np_shape (b : list profile) : option (list nat) :=
  match b with
  | [] => Some [0]
  | p :: _ =>
      if forallb (fun r => length r =? length p) b then
        Some (if length p =? 0 then [length b; 0] else [length b; length p; 2])
      else None
  end.

(** [np.concatenate((a, b), axis=1)] on lists of profiles. *)
Definition concatenate_axis1 (a b : list profile) : result (list profile) :=
  match np_shape a, np_shape b with
  | Some sa, Some sb =>
      if length sa <? 2 then Raise AxisError
      else if negb (length sa =? length sb) then Raise ValueError
      else if negb (hd 0 sa =? hd 0 sb) then Raise ValueError
      else Ok (zip_with app a b)
  | _, _ => Raise ValueError
  end.

(** [np.concatenate((a, b), axis=0)] on lists of profiles. *)
Definition concatenate_axis0 (a b : list profile) : result (list profile) :=
  match np_shape a, np_shape b with
  | Some sa, Some sb =>
      if negb (length sa =? length sb) then Raise ValueError
      else if negb (forallb (fun xy => fst xy =? snd xy)
                      (zip (tail sa) (tail sb))) then Raise ValueError
      else Ok (a ++ b)
  | _, _ => Raise ValueError
  end.

(** ** data_sampler.py *)

Definition sample_from_rng (distribution : string) (no_samples_dg dof : nat)
    : M array2 :=
  if String.eqb distribution "Normal" then
    rng_normal 1 F64.lit_0_02 no_samples_dg dof
  else if String.eqb distribution "Uniform" then
    rng_uniform 0 1 no_samples_dg dof
  else if String.eqb distribution "Normal_Limits_Oriented" then
    if dof =? 1 then
      rng_normal 1 1 no_samples_dg dof
    else if dof =? 2 then
      random_p1 ← rng_normal 0 1 (1 * (no_samples_dg / 4)) 2;
      a2 ← rng_normal 0 1 (no_samples_dg / 4) 1;
      b2 ← rng_normal 1 1 (no_samples_dg / 4) 1;
      let random_p2 := hstack a2 b2 in
      a3 ← rng_normal 1 1 (no_samples_dg / 4) 1;
      b3 ← rng_normal 0 1 (no_samples_dg / 4) 1;
      let random_p3 := hstack a3 b3 in
      a4 ← rng_normal 0.5 1 (no_samples_dg - no_samples_dg / 4) 1;
      b4 ← rng_normal 0.5 1 (no_samples_dg - no_samples_dg / 4) 1;
      let random_p4 := hstack a4 b4 in
      mret (random_p1 ++ random_p2 ++ random_p3 ++ random_p4)
    else raise UnboundLocalError
  else if String.eqb distribution "No_change" then
    mret (np_ones no_samples_dg dof)
  else
    raise (AssertionError
      ("Please specify a viable sampling distribution, i.e. 'Normal', 'Uniform', "
       +:+ "'Normal_Limits_Oriented' or 'No_change'. Not " +:+ distribution)).

(** One entry of [sample_new_point]: FSP [i] in iteration [j]. *)
Definition new_point (sgen : list unit_row) (random_p : array2) (j i : nat)
    : result pq :=
  row ← index random_p (length sgen * j + i);
  p_perc ← index row 0;
  g ← loc sgen i;
  let p_new := (sn_mva g * p_perc)%float in
  let q_new :=
    (F64.neg1_pow j * sqrt (F64.pow2 (sn_mva g) - F64.pow2 p_new))%float in
  mret (p_new, q_new).

Definition sample_new_point (sgen : list unit_row) (random_p : array2)
    (no_samples : nat) : result (list profile) :=
  mapM (fun j => mapM (new_point sgen random_p j) (seq 0 (length sgen)))
       (seq 0 no_samples).

(** One entry of [sample_new_non_mp_point]. *)
Definition new_non_mp_point (sgen : list unit_row) (random_p : array2)
    (j i : nat) : result pq :=
  row ← index random_p (length sgen * j + i);
  p_perc ← index row 0;
  g ← loc sgen i;
  let p_new :=
    if F64.geb p_perc 1 then sn_mva g
    else if (p_perc <=? 0)%float then 0%float
    else (sn_mva g * p_perc)%float in
  let q_max := sqrt (F64.pow2 (sn_mva g) - F64.pow2 p_new)%float in
  r1 ← index row 1;
  let q_new :=
    if F64.geb q_max (abs (sn_mva g * r1)%float)
    then (F64.neg1_pow j * sn_mva g * r1)%float
    else (F64.neg1_pow j * q_max)%float in
  mret (p_new, q_new).

Definition sample_new_non_mp_point (sgen : list unit_row) (random_p : array2)
    (no_samples : nat) : result (list profile) :=
  mapM (fun j => mapM (new_non_mp_point sgen random_p j) (seq 0 (length sgen)))
       (seq 0 no_samples).

Definition load_change : float := 1%float.

(** The body shared by the two branches of [sample_new_load_point]: load
    [i], raw row [k]; [report] says whether the branch tests
    [np.isnan(q_max)]. *)
Definition new_load_point (loads : list unit_row) (random_p : array2)
    (report : bool) (k i : nat) : M pq :=
  row ← lift (index random_p k);
  p_perc ← lift (index row 0);
  l ← lift (loc loads i);
  let p_new :=
    if F64.geb p_perc 1 then p_mw l
    else if (p_perc <=? 0)%float then 0%float
    else (p_mw l * p_perc)%float in
  let p_new := (load_change * p_new)%float in
  let q_max :=
    sqrt (load_change * load_change * F64.pow2 (sn_mva l)
          - F64.pow2 p_new)%float in
  _ ← (if report && F64.isnan q_max
       then print (PrintNaN (sn_mva l) p_new i) else mret tt);
  r1 ← lift (index row 1);
  let q_new :=
    if F64.geb q_max (abs (load_change * q_mvar l * r1)%float)
    then (q_mvar l * r1)%float
    else q_max in
  let q_new := (load_change * q_new)%float in
  mret (p_new, q_new).

Definition sample_new_load_point (loads : list unit_row) (random_p : array2)
    (no_samples : nat) (flex_loads : list nat) : M (list profile) :=
  match flex_loads with
  | [] =>
      mapM (fun j =>
              mapM (fun i =>
                      new_load_point loads random_p false (length loads * j + i) i)
                   (seq 0 (length loads)))
           (seq 0 no_samples)
  | _ =>
      mapM (fun j =>
              mapM (fun '(idx, i) =>
                      new_load_point loads random_p true
                        (length flex_loads * j + idx) i)
                   (imap (fun idx i => (idx, i)) flex_loads))
           (seq 0 no_samples)
  end.

Definition create_load_samples (no_samples : nat) (net : network)
    (distribution : string) (flex_loads : list nat)
    : M (list profile * float) :=
  let flex_load_len :=
    match flex_loads with
    | [] => length (load net)
    | _ => length flex_loads
    end in
  t_start ← time_time;
  random_p ← sample_from_rng distribution (no_samples * flex_load_len) 2;
  pq_profiles ← sample_new_load_point (load net) random_p no_samples flex_loads;
  t_stop ← time_time;
  _ ← print (PrintSampled no_samples distribution (t_stop - t_start)%float);
  mret (pq_profiles, (t_stop - t_start)%float).

Definition create_samples (no_samples : nat) (net : network)
    (distribution : string) (keep_mp : bool) : M (list profile * float) :=
  t_start ← time_time;
  pq_profiles ←
    (if keep_mp then
       random_p ← sample_from_rng distribution (no_samples * length (sgen net)) 1;
       lift (sample_new_point (sgen net) random_p no_samples)
     else
       random_p ← sample_from_rng distribution (no_samples * length (sgen net)) 2;
       lift (sample_new_non_mp_point (sgen net) random_p no_samples));
  t_stop ← time_time;
  _ ← print (PrintSampled no_samples distribution (t_stop - t_start)%float);
  mret (pq_profiles, (t_stop - t_start)%float).

Definition profile_creation (no_samples : nat) (net : network)
    (distribution : string) (keep_mp : bool) (services : string)
    (flexible_loads : list nat) : M (list profile * float) :=
  _ ← RandomState_init 21;
  if String.eqb services "DG only" then
    create_samples no_samples net distribution keep_mp
  else if String.eqb services "All" then
    '(pq_profiles, dur_samples) ←
      create_samples (no_samples / 2) net distribution keep_mp;
    '(pq_load_profiles, dur_load_samples) ←
      create_load_samples (no_samples / 2) net distribution flexible_loads;
    profiles ← lift (concatenate_axis1 pq_profiles pq_load_profiles);
    let dur_samples := (dur_samples + dur_load_samples)%float in
    '(pq_profiles_new, dur_new) ←
      create_samples (1 * no_samples / 8) net "No_change" keep_mp;
    profiles_new ← lift (concatenate_axis1 pq_profiles_new
                           (take (1 * no_samples / 8) pq_load_profiles));
    profiles ← lift (concatenate_axis0 profiles profiles_new);
    '(pq_load_profiles, dur_load_samples) ←
      create_load_samples (3 * no_samples / 8) net "No_change" flexible_loads;
    profiles_new ← lift (concatenate_axis1
                           (take (3 * no_samples / 8) pq_profiles)
                           pq_load_profiles);
    profiles ← lift (concatenate_axis0 profiles profiles_new);
    let dur_samples := (dur_samples + (dur_new + dur_load_samples))%float in
    mret (profiles, dur_samples)
  else if String.eqb services "Load only" then
    '(pq_profiles, dur_samples) ←
      create_samples no_samples net "No_change" keep_mp;
    '(pq_load_profiles, dur_load_samples) ←
      create_load_samples no_samples net distribution flexible_loads;
    profiles ← lift (concatenate_axis1 pq_profiles pq_load_profiles);
    mret (profiles, (dur_samples + dur_load_samples)%float)
  else
    raise (AssertionError "Error: Choose FSPs from {All, Load only, DG only}").

(** Two computations have the same outcome up to [R] when, started in
    worlds whose generators are in the same state, they both raise the same
    exception or both return, with results related by [R] and generators
    again in the same state.  Clocks, output and solver may differ. *)
Definition same_outcome {A} (R : A -> A -> Prop) (m1 m2 : M A) : Prop :=
  forall w1 w2, rng w1 = rng w2 ->
  match m1 w1, m2 w2 with
  | (Ok a1, w1'), (Ok a2, w2') => R a1 a2 /\ rng w1' = rng w2'
  | (Raise e1, _), (Raise e2, _) => e1 = e2
  | _, _ => False
  end.

(** The default of the [services] parameter. *)
Definition services_default : string := "DG Only".

(** ** utils.py *)

Definition check_line_current_limits (net : network) (upper_limit : float)
    : bool :=
  forallb (fun x => F64.geb upper_limit (abs x))
          (res_line_loading_percent (res net)).

Definition check_trafo_current_limits (net : network) (upper_limit : float)
    : bool :=
  forallb (fun x => F64.geb upper_limit (abs x))
          (res_trafo_loading_percent (res net)).

Definition check_voltage_limits (voltages : list float)
    (upper_limit lower_limit : float) : bool :=
  forallb (fun x => F64.geb upper_limit x && F64.geb x lower_limit) voltages.

(** [i in l] *)
Definition py_in (i : nat) (l : list nat) : bool := existsb (Nat.eqb i) l.

(** [frame['p_mw'][i] = v] and [frame['q_mvar'][i] = v]: a label that is
    not in the frame leaves the frame as it is. *)
Definition set_p_mw (i : nat) (v : float) (t : list unit_row)
    : list unit_row :=
  alter (fun r => mk_row v (q_mvar r) (sn_mva r)) i t.

Definition set_q_mvar (i : nat) (v : float) (t : list unit_row)
    : list unit_row :=
  alter (fun r => mk_row (p_mw r) v (sn_mva r)) i t.

(** A [for] loop over a list, threading the loop state. *)
Fixpoint for_each {m : Type -> Type} `{MBind m, MRet m} {S A : Type}
    (body : S -> A -> m S) (s : S) (l : list A) : m S :=
  match l with
  | [] => mret s
  | x :: l' => s' ← body s x; for_each body s' l'
  end.

(** The generator branch of the loops of [update_pqs] and
    [update_pqs_wl], for index [i]. *)
Definition update_sgen (flex_wt flex_pv : list nat) (profile : profile)
    (scale_w scale_pv : float) (t : list unit_row) (i : nat)
    : result (list unit_row) :=
  let scale := if S i =? length t then scale_w else scale_pv in
  if py_in i flex_pv || py_in i flex_wt then
    e ← index profile i;
    let t := set_p_mw i (fst e * scale)%float t in
    let t := set_q_mvar i (snd e * scale)%float t in
    mret t
  else
    r ← loc t i;
    let t := set_p_mw i (p_mw r * scale)%float t in
    r ← loc t i;
    let t := set_q_mvar i (p_mw r * scale)%float t in
    mret t.

(** The loop that runs when no profile is given: rescale every generator. *)
Definition rescale_sgen (scale_w scale_pv : float) (t : list unit_row)
    (i : nat) : result (list unit_row) :=
  let scale := if S i =? length t then scale_w else scale_pv in
  r ← loc t i;
  let t := set_p_mw i (p_mw r * scale)%float t in
  r ← loc t i;
  let t := set_q_mvar i (q_mvar r * scale)%float t in
  mret t.

(** [profile] is [None] for Python's [None]; an empty list is falsy too. *)
Definition update_pqs (net : network) (flex_wt flex_pv : list nat)
    (profile : option profile) (scale_w scale_pv : float) : result network :=
  match profile with
  | Some ((_ :: _) as p) =>
      t ← for_each (update_sgen flex_wt flex_pv p scale_w scale_pv)
                   (sgen net) (seq 0 (length p));
      mret (mk_net t (load net) (res net))
  | _ =>
      t ← for_each (rescale_sgen scale_w scale_pv)
                   (sgen net) (seq 0 (length (sgen net)));
      mret (mk_net t (load net) (res net))
  end.

Definition update_pqs_wl (net : network) (flex_wt flex_pv : list nat)
    (profile : option profile) (scale_w scale_pv : float)
    (load_ind : list nat) : result network :=
  match profile with
  | Some ((_ :: _) as p) =>
      for_each
        (fun net i =>
           if i <? length (sgen net) then
             t ← update_sgen flex_wt flex_pv p scale_w scale_pv (sgen net) i;
             mret (mk_net t (load net) (res net))
           else
             j ← index load_ind (i - length (sgen net));
             e ← index p i;
             let l := set_p_mw j (fst e) (load net) in
             let l := set_q_mvar j (snd e) l in
             mret (mk_net (sgen net) l (res net)))
        net (seq 0 (length p))
  | _ =>
      t ← for_each (rescale_sgen scale_w scale_pv)
                   (sgen net) (seq 0 (length (sgen net)));
      mret (mk_net t (load net) (res net))
  end.

(** ** monte_carlo.py *)

(** The fields of the settings object that the sweep reads. *)
Record SettingReader : Type := mk_settings {
  no_samples : nat;
  max_curr : float;
  max_volt : float;
  min_volt : float;
  fsps : string;
  fsp_wt : list nat;
  fsp_pv : list nat;
  fsp_load : list nat
}.

(** The six lists a sweep fills. *)
Record buckets : Type := mk_buckets {
  x_flexible : list float;
  y_flexible : list float;
  x_non_flexible : list float;
  y_non_flexible : list float;
  prof_flexible : list profile;
  prof_non_flexible : list profile
}.

Definition no_buckets : buckets := mk_buckets [] [] [] [] [] [].

(** [pp.runpp(net)]: on success the result tables of [net] are replaced. *)
Definition pp_runpp (net : network) : M (option network) := fun w =>
  let (s, r) := runpp (pf w) net in
  (Ok (option_map (mk_net (sgen net) (load net)) r),
   mk_world (rng w) (clock w) (ticks w) (stdout w) s).

(** The two ways an iteration files its outcome: the three [append] calls
    of the feasible branch and those of the other branch. *)
Definition append_flexible (b : buckets) (pq_value : pq) (profile : profile)
    : buckets :=
  mk_buckets (x_flexible b ++ [fst pq_value]) (y_flexible b ++ [snd pq_value])
             (x_non_flexible b) (y_non_flexible b)
             (prof_flexible b ++ [profile]) (prof_non_flexible b).

Definition append_non_flexible (b : buckets) (pq_value : pq)
    (profile : profile) : buckets :=
  mk_buckets (x_flexible b) (y_flexible b)
             (x_non_flexible b ++ [fst pq_value])
             (y_non_flexible b ++ [snd pq_value])
             (prof_flexible b) (prof_non_flexible b ++ [profile]).

(** The body of the [for profile in pq_profiles] loop, which
    [run_all_samples] and [run_all_samples_wl] share up to the function
    [update] that writes the profile into the network. *)
Definition sweep_body (update : network -> profile -> result network)
    (settings : SettingReader) (st : network * buckets) (profile : profile)
    : M (network * buckets) :=
  let (net, b) := st in
  net ← lift (update net profile);
  solved ← pp_runpp net;
  match solved with
  | Some net =>
      let pq_value :=
        (res_ext_grid_p_mw (res net), res_ext_grid_q_mvar (res net)) in
      if check_voltage_limits (res_bus_vm_pu (res net))
           (max_volt settings) (min_volt settings)
         && check_line_current_limits net (max_curr settings)
         && check_trafo_current_limits net (max_curr settings)
      then mret (net, append_flexible b pq_value profile)
      else mret (net, append_non_flexible b pq_value profile)
  | None =>
      _ ← print (PrintNotConverged profile);
      mret (net, b)
  end.

Definition run_all_samples (settings : SettingReader) (net : network)
    (pq_profiles : list profile) : M (buckets * float) :=
  t_start_run_mc_pf ← time_time;
  '(_, b) ←
    for_each
      (sweep_body (fun net profile =>
                     update_pqs net (fsp_wt settings) (fsp_pv settings)
                                (Some profile) 1 1)
                  settings)
      (net, no_buckets) pq_profiles;
  t_stop_run_mc_pf ← time_time;
  _ ← print (PrintPowerFlows (no_samples settings)
               (t_stop_run_mc_pf - t_start_run_mc_pf)%float);
  _ ← print (PrintPfRun (length (y_flexible b) + length (y_non_flexible b)));
  mret (b, (t_stop_run_mc_pf - t_start_run_mc_pf)%float).

Definition run_all_samples_wl (settings : SettingReader) (net : network)
    (pq_profiles : list profile) : M (buckets * float) :=
  t_start_run_mc_pf ← time_time;
  '(_, b) ←
    for_each
      (sweep_body (fun net profile =>
                     update_pqs_wl net (fsp_wt settings) (fsp_pv settings)
                                   (Some profile) 1 1 (fsp_load settings))
                  settings)
      (net, no_buckets) pq_profiles;
  t_stop_run_mc_pf ← time_time;
  _ ← print (PrintFlexNonFlex (length (x_flexible b))
                              (length (x_non_flexible b)));
  _ ← print (PrintPowerFlows (no_samples settings)
               (t_stop_run_mc_pf - t_start_run_mc_pf)%float);
  mret (b, (t_stop_run_mc_pf - t_start_run_mc_pf)%float).

Definition all_pf_simulations (settings : SettingReader) (net : network)
    (pq_profiles : list profile) : M (buckets * float) :=
  if String.eqb (fsps settings) "DG only" then
    run_all_samples settings net pq_profiles
  else if String.eqb (fsps settings) "All"
          || String.eqb (fsps settings) "Load only" then
    run_all_samples_wl settings net pq_profiles
  else
    raise (AssertionError "Error: Choose FSPs from {All, Load only, DG only}").

(** How many solves of a run were reported as not converged. *)
Definition is_not_converged (e : event) : bool :=
  match e with PrintNotConverged _ => true | _ => false end.

Definition skipped_count (out : list event) : nat :=
  length (List.filter is_not_converged out).

End Program.

(** A raw-draw array is large enough for [rows] entries of [cols] values:
    its first [rows] rows exist and have at least [cols] columns. *)
Definition has_columns (cols rows : nat) (a : array2) : Prop :=
  forall k, k < rows -> exists row, a !! k = Some row /\ cols <= length row.

(** The four tags [sample_from_rng] accepts. *)
Definition valid_distribution (d : string) : Prop :=
  d = "Normal" \/ d = "Uniform" \/ d = "Normal_Limits_Oriented"
  \/ d = "No_change".

(** The number of load entries of a profile: all loads when no list of
    flexible loads is given. *)
Definition flex_load_len (net : network) (flex_loads : list nat) : nat :=
  match flex_loads with
  | [] => length (load net)
  | _ => length flex_loads
  end.

(** ** The apparent-power envelope

    The test of the envelope as the specification words it:
    [p^2 + q^2 <= sn_mva^2 + eps]. *)
Definition within_envelope (eps sn : float) (e : pq) : bool :=
  (F64.pow2 (fst e) + F64.pow2 (snd e) <=? F64.pow2 sn + eps)%float.

(** ** The limits, as the specification words them

    A solve is within the limits when every bus voltage lies in
    [[min_volt, max_volt]] and every line and transformer loading is at
    most [max_curr]. *)
Definition within_limits (settings : SettingReader) (r : pf_result) : Prop :=
  Forall (fun v => (min_volt settings <=? v)%float = true
                   /\ (v <=? max_volt settings)%float = true)
         (res_bus_vm_pu r)
  /\ Forall (fun x => (x <=? max_curr settings)%float = true)
            (res_line_loading_percent r)
  /\ Forall (fun x => (x <=? max_curr settings)%float = true)
            (res_trafo_loading_percent r).

(** A loading percentage is a magnitude: no entry of the two loading
    tables is below zero. *)
Definition loading_not_negative (r : pf_result) : Prop :=
  Forall (fun x => (x <? 0)%float = false) (res_line_loading_percent r)
  /\ Forall (fun x => (x <? 0)%float = false) (res_trafo_loading_percent r).

(** The lists of a bucket have one entry per classified profile. *)
Definition aligned (b : buckets) : Prop :=
  length (x_flexible b) = length (prof_flexible b)
  /\ length (y_flexible b) = length (prof_flexible b)
  /\ length (x_non_flexible b) = length (prof_non_flexible b)
  /\ length (y_non_flexible b) = length (prof_non_flexible b).

(** The profiles of a result, without the duration. *)
Definition batch_of (r : result (list profile * float))
    : result (list profile) :=
  match r with Ok (p, _) => Ok p | Raise e => Raise e end.

(** The profiles among the printed events that were reported as not
    converged, oldest first. *)
Definition reported (out : list event) : list profile :=
  omap (fun e => match e with PrintNotConverged p => Some p | _ => None end)
       out.

(** ** The limits as the code tests them

    The test of the [if] of the sweep, on the result tables of a solve. *)
Definition limits_hold (settings : SettingReader) (r : pf_result) : bool :=
  check_voltage_limits (res_bus_vm_pu r) (max_volt settings) (min_volt settings)
  && check_line_current_limits (mk_net [] [] r) (max_curr settings)
  && check_trafo_current_limits (mk_net [] [] r) (max_curr settings).

(** The same in words: every bus voltage lies in [[min_volt, max_volt]]
    and every line and transformer loading is, in absolute value, at most
    [max_curr]. *)
Definition within_limits_abs (settings : SettingReader) (r : pf_result)
    : Prop :=
  Forall (fun v => (min_volt settings <=? v)%float = true
                   /\ (v <=? max_volt settings)%float = true)
         (res_bus_vm_pu r)
  /\ Forall (fun x => (abs x <=? max_curr settings)%float = true)
            (res_line_loading_percent r)
  /\ Forall (fun x => (abs x <=? max_curr settings)%float = true)
            (res_trafo_loading_percent r).

(** ** The solves of a sweep

    What a sweep asks of the solver, without the lists it fills: each
    profile of the batch in turn is written into the network and solved
    once; the solver keeps its state from call to call, and the network
    keeps the result tables of the last solve that converged.  The outcome
    of a profile is [None] when its solve failed.  An exception of
    [update] ends the run. *)
Fixpoint solve_in_turn `{Pf : Solver}
    (update : network -> profile -> result network) (net : network)
    (s : solver) (batch : list profile)
    : result (list (profile * option pf_result) * solver) :=
  match batch with
  | [] => Ok ([], s)
  | p :: batch' =>
      net1 ← update net p;
      let (s1, r) := runpp s net1 in
      let net2 :=
        match r with
        | Some res => mk_net (sgen net1) (load net1) res
        | None => net1
        end in
      '(tr, s') ← solve_in_turn update net2 s1 batch';
      mret ((p, r) :: tr, s')
  end.

(** The profiles whose solve converged, with the result tables, and the
    profiles whose solve failed, both in the order of the batch. *)
Definition converged (tr : list (profile * option pf_result))
    : list (profile * pf_result) :=
  omap (fun e => match snd e with
                 | Some r => Some (fst e, r)
                 | None => None
                 end) tr.

Definition failed (tr : list (profile * option pf_result)) : list profile :=
  omap (fun e => match snd e with
                 | Some _ => None
                 | None => Some (fst e)
                 end) tr.

(** ** The rest of utils.py: reports and the result file *)

(** [x] is neither infinite nor [NaN]. *)
Definition is_finite (x : float) : bool := (abs x <? infinity)%float.

(** A row of [net.res_bus] and of [net.res_line], with the columns the
    reports read, and the two tables of a solved network. *)
Record bus_row : Type := mk_bus_row {
  bus_p_mw : float;
  bus_q_mvar : float;
  bus_vm_pu : float;
  bus_va_degree : float
}.

Record line_row : Type := mk_line_row {
  line_p_from_mw : float;
  line_q_from_mvar : float
}.

Record solved_tables : Type := mk_tables {
  res_bus : list bus_row;
  res_line : list line_row
}.

(** [i in l] for an integer and a list of integers (a Python list or an
    [np.arange]). *)
Definition py_in_Z (i : Z) (l : list Z) : bool := existsb (Z.eqb i) l.

(** The loop of the three [get_input_*] functions: over the rows of a
    table with their labels, appending two columns of the rows whose label
    is in [input]. *)
Definition get_input {R : Type} (col_p col_q : R -> float) (table : list R)
    (input : list Z) : list float * list float :=
  fold_left
    (fun (acc : list float * list float) (row : nat * R) =>
       if py_in_Z (Z.of_nat (fst row)) input
       then (fst acc ++ [col_p (snd row)], snd acc ++ [col_q (snd row)])
       else acc)
    (imap (fun i r => (i, r)) table) ([], []).

Definition get_input_busses_pq (net : solved_tables) (input_buses : list Z)
    : list float * list float :=
  get_input bus_p_mw bus_q_mvar (res_bus net) input_buses.

Definition get_input_busses_v (net : solved_tables) (input_buses : list Z)
    : list float * list float :=
  get_input bus_vm_pu bus_va_degree (res_bus net) input_buses.

Definition get_input_lines_pq (net : solved_tables) (input_lines : list Z)
    : list float * list float :=
  get_input line_p_from_mw line_q_from_mvar (res_line net) input_lines.

(** The index lists of the settings object.  The two [non_observ] lists are
    attributes that [get_unobservable_lines_buses_indices] creates; nothing
    reads them before. *)
Record Scenario : Type := mk_scenario {
  sc_fsp_wt : list Z;
  sc_fsp_pv : list Z;
  sc_fsp_load : list Z;
  observ_lines : list Z;
  observ_buses : list Z;
  non_observ_lines : list Z;
  non_observ_buses : list Z
}.

(** The twelve lists of [report_pf_results], in the order of the list it
    returns. *)
Definition report_pf_results (net : solved_tables) (settings : Scenario)
    : list (list float) :=
  let '(p_obs, q_obs) := get_input_busses_pq net (observ_buses settings) in
  let '(v_obs, d_obs) := get_input_busses_v net (observ_buses settings) in
  let '(p_line_obs, q_line_obs) :=
    get_input_lines_pq net (observ_lines settings) in
  let '(p_non_obs, q_non_obs) :=
    get_input_busses_pq net (non_observ_buses settings) in
  let '(v_non_obs, d_non_obs) :=
    get_input_busses_v net (non_observ_buses settings) in
  let '(p_line_non_obs, q_line_non_obs) :=
    get_input_lines_pq net (non_observ_lines settings) in
  [p_obs; q_obs; v_obs; d_obs; p_line_obs; q_line_obs; p_non_obs; q_non_obs;
   v_non_obs; d_non_obs; p_line_non_obs; q_line_non_obs].

(** [np.zeros(n)] *)
Definition np_zeros (n : nat) : list float := replicate n 0%float.

(** [write_result], up to the frame it hands to [to_csv]: the rows of the
    four columns ['x flex'], ['y flex'], ['x non-flex'], ['y non-flex'].
    The file name plays no part in them. *)
Definition write_result (x_flexible x_non_flexible y_flexible
    y_non_flexible : list float) : result (list (float * float * float * float)) :=
  let max_len := Nat.max (length x_flexible) (length x_non_flexible) in
  '(x_flexible_df, y_flexible_df) ←
    for_each
      (fun (df : list float * list float) i =>
         x ← index x_flexible i;
         y ← index y_flexible i;
         mret (<[i := x]> (fst df), <[i := y]> (snd df)))
      (np_zeros max_len, np_zeros max_len) (seq 0 (length x_flexible));
  '(x_non_flexible_df, y_non_flexible_df) ←
    for_each
      (fun (df : list float * list float) i =>
         x ← index x_non_flexible i;
         y ← index y_non_flexible i;
         mret (<[i := x]> (fst df), <[i := y]> (snd df)))
      (np_zeros max_len, np_zeros max_len) (seq 0 (length x_non_flexible));
  mret (zip (zip (zip x_flexible_df y_flexible_df) x_non_flexible_df)
            y_non_flexible_df).

(** ** scenario_setup.py: the index lists *)

(** [np.arange(0, n)] *)
Definition np_arange (n : nat) : list Z := Z.of_nat <$> seq 0 n.

(** [l[0] == -1], which raises [IndexError] on an empty list. *)
Definition first_is_minus_one (l : list Z) : result bool :=
  x ← index l 0; mret (x =? -1)%Z.

Definition get_fsp (net : network) (settings : Scenario) : result Scenario :=
  b_wt ← first_is_minus_one (sc_fsp_wt settings);
  let fsp_wt :=
    if (b_wt : bool) then [(Z.of_nat (length (sgen net)) - 1)%Z]
    else sc_fsp_wt settings in
  b_pv ← first_is_minus_one (sc_fsp_pv settings);
  let fsp_pv :=
    if (b_pv : bool) then np_arange (length (sgen net)) else sc_fsp_pv settings in
  b_load ← first_is_minus_one (sc_fsp_load settings);
  let fsp_load :=
    if (b_load : bool) then np_arange (length (load net)) else sc_fsp_load settings in
  mret (mk_scenario fsp_wt fsp_pv fsp_load
          (observ_lines settings) (observ_buses settings)
          (non_observ_lines settings) (non_observ_buses settings)).

(** [n_line] and [n_bus] stand for [len(net.line)] and [len(net.bus)]. *)
Definition get_unobservable_lines_buses_indices (n_line n_bus : nat)
    (settings : Scenario) : Scenario :=
  let u_line_indices :=
    List.filter (fun i => negb (py_in_Z i (observ_lines settings)))
                (np_arange n_line) in
  let u_bus_indices :=
    List.filter (fun i => negb (py_in_Z i (observ_buses settings)))
                (np_arange n_bus) in
  mk_scenario (sc_fsp_wt settings) (sc_fsp_pv settings) (sc_fsp_load settings)
    (observ_lines settings) (observ_buses settings)
    u_line_indices u_bus_indices.

Definition get_observable_lines_buses (n_line n_bus : nat)
    (settings : Scenario) : result Scenario :=
  b_lines ← first_is_minus_one (observ_lines settings);
  let lines := if (b_lines : bool) then np_arange n_line else observ_lines settings in
  b_buses ← first_is_minus_one (observ_buses settings);
  let buses := if (b_buses : bool) then np_arange n_bus else observ_buses settings in
  mret (mk_scenario (sc_fsp_wt settings) (sc_fsp_pv settings)
          (sc_fsp_load settings) lines buses
          (non_observ_lines settings) (non_observ_buses settings)).

(** [update_settings], from the network that [get_network] returned. *)
Definition update_settings (net : network) (n_line n_bus : nat)
    (settings : Scenario) : result Scenario :=
  settings ← get_observable_lines_buses n_line n_bus settings;
  let settings := get_unobservable_lines_buses_indices n_line n_bus settings in
  get_fsp net settings.

(** The entries of an index list that a loop counter can equal: the sweep
    only asks whether a generator or load position is in the list, and an
    entry below zero never is. *)
Definition positions (l : list Z) : list nat :=
  omap (fun z => if (0 <=? z)%Z then Some (Z.to_nat z) else None) l.

(** ** Stub collaborators, to run the program on concrete inputs *)

Module Stub.

(** A generator whose state counts the draws; the variates cycle through
    a fixed table. *)
#[export] Instance counting_generator : Generator := {|
  RandomState := nat;
  RandomState_seed := fun _ => 0;
  legacy_gauss := fun k =>
    (nth (k mod 4) [0.5; -1.5; 2; 0]%float 0%float, S k);
  random_sample := fun k =>
    (nth (k mod 4) [0.5; 0.25; 0.75; 0]%float 0%float, S k)
|}.

(** The result tables of a network within all limits, and of one with an
    overloaded line. *)
Definition res_ok : pf_result :=
  mk_res [1; 1.03125]%float [50; 99]%float [25]%float 3 0.5.
Definition res_overloaded : pf_result :=
  mk_res [1; 1.03125]%float [50; 101]%float [25]%float 4 0.75.

(** A solver that counts its calls: calls 0, 3, 6, ... fail, calls
    1, 4, 7, ... converge within the limits, the others converge with an
    overloaded line. *)
#[export] Instance cycling_solver : Solver := {|
  solver := nat;
  runpp := fun k _ =>
    (S k, match k mod 3 with
          | 0 => None
          | 1 => Some res_ok
          | _ => Some res_overloaded
          end)
|}.

(** A clock that advances by one second per reading. *)
Fixpoint seconds (k : nat) : float :=
  match k with 0 => 0%float | S k' => (seconds k' + 1)%float end.

Definition w0 : World := mk_world (0 : RandomState) seconds 0 [] (0 : solver).

(** Three generators rated 0.5 MVA and one load. *)
Definition net0 : network :=
  mk_net [mk_row 0.5 0 0.5; mk_row 0.5 0 0.5; mk_row 0.5 0 0.5]%float
         [mk_row 0.25 0.125 0.5]%float
         (mk_res [] [] [] 0 0).

Definition settings0 : SettingReader :=
  mk_settings 8 100 1.0625 0.9375 "DG only" [2] [0; 1; 2] [0].

End Stub.

(** ** More concrete inputs *)

Module Cases.
Import Stub.

(** A solver that always converges, with a bus voltage that is not a
    number. *)
Definition res_nan : pf_result :=
  mk_res [1; nan]%float [50]%float [25]%float 3 0.5.
Definition nan_solver : Solver := {|
  solver := unit;
  runpp := fun s _ => (s, Some res_nan)
|}.
Definition w_nan : World (Pf := nan_solver) :=
  mk_world (Pf := nan_solver) (0 : RandomState) seconds 0 [] tt.

(** A solver that always converges, with a line loading below zero. *)
Definition res_negative : pf_result :=
  mk_res [1]%float [-150]%float [25]%float 3 0.5.
Definition negative_solver : Solver := {|
  solver := unit;
  runpp := fun s _ => (s, Some res_negative)
|}.
Definition w_negative : World (Pf := negative_solver) :=
  mk_world (Pf := negative_solver) (0 : RandomState) seconds 0 [] tt.

(** Profiles for the three generators of [net0], for the generators and
    the load, and with one and two entries too many. *)
Definition p3 : list (float * float) := [(0.5, 0); (0.5, 0); (0.5, 0)]%float.
Definition p4 : list (float * float) :=
  [(0.5, 0); (0.5, 0); (0.5, 0); (0.125, 0.0625)]%float.
Definition p5 : list (float * float) :=
  [(0.5, 0); (0.5, 0); (0.5, 0); (0.125, 0.0625); (0.125, 0.0625)]%float.

(** Four profiles that fit the generators of [net0]. *)
Definition batch0 : list (list (float * float)) :=
  [[(0.5, 0); (0.5, 0); (0.5, 0)]; [(0.25, 0); (0.5, 0); (0.5, 0)];
   [(0.25, 0.25); (0.5, 0); (0.5, 0)]; [(0, 0); (0.5, 0); (0.5, 0)]]%float.

(** The settings of [settings0] for the service ['Load only']. *)
Definition settings_load_only : SettingReader :=
  mk_settings 2 100 1.0625 0.9375 "Load only" [2] [0; 1; 2] [0].

(** Result tables of two buses and one line. *)
Definition tables0 : solved_tables :=
  mk_tables [mk_bus_row 1 0.5 1 0; mk_bus_row 2 0.25 1.03125 (-1)]%float
            [mk_line_row 3 0.75]%float.

(** Index lists as a scenario file may give them: every FSP list and the
    observable buses as [-1], line 0 observable. *)
Definition scenario0 : Scenario :=
  mk_scenario [-1]%Z [-1]%Z [-1]%Z [0]%Z [-1]%Z [] [].

End Cases.

(** * Properties *)

(** ** Facts about binary64 arithmetic *)

Module F64Facts.
Import F64.

Lemma round_aux_negb s m e l :
  binary_round_aux prec emax (negb s) m e l
  = SFopp (binary_round_aux prec emax s m e l).
Proof.
  unfold binary_round_aux.
  destruct (shr_fexp prec emax m e l) as [r1 e1].
  destruct (shr_fexp prec emax _ e1 loc_Exact) as [r2 e2].
  destruct (shr_m r2); simpl; try reflexivity.
  destruct (Z.leb _ _); reflexivity.
Qed.

Lemma SFmul_opp_l x y :
  SFmul prec emax (SFopp x) y = SFopp (SFmul prec emax x y).
Proof.
  destruct x as [sx|sx| |sx mx ex], y as [sy|sy| |sy my ey]; simpl;
    try reflexivity; try (destruct sx, sy; reflexivity).
  rewrite <- round_aux_negb. destruct sx, sy; reflexivity.
Qed.

Lemma mul_opp_l (x y : float) : (- x * y = - (x * y))%float.
Proof.
  apply Prim2SF_inj. rewrite opp_spec, !mul_spec, opp_spec.
  apply SFmul_opp_l.
Qed.

Lemma abs_opp (x : float) : abs (- x) = abs x.
Proof.
  apply Prim2SF_inj. rewrite !abs_spec, opp_spec.
  destruct (Prim2SF x); reflexivity.
Qed.

Lemma leb_nan_r (x : float) : (x <=? nan)%float = false.
Proof.
  rewrite leb_spec. change (Prim2SF nan) with S754_nan.
  unfold SFleb, SFcompare. destruct (Prim2SF x); reflexivity.
Qed.

Lemma SFcompare_refl x : x <> S754_nan -> SFcompare x x = Some Eq.
Proof.
  destruct x as [[]|[]| |[] m e]; simpl; try congruence; intros _;
    rewrite Z.compare_refl, Pos.compare_cont_refl; reflexivity.
Qed.

Lemma isnan_spec (x : float) : isnan x = true <-> x = nan.
Proof.
  unfold isnan. split.
  - intros H. apply Prim2SF_inj. change (Prim2SF nan) with S754_nan.
    rewrite FloatAxioms.eqb_spec in H. unfold SFeqb in H.
    destruct (Prim2SF x) as [s|s| |s m e] eqn:E; [| |reflexivity|];
      rewrite SFcompare_refl in H by discriminate; discriminate.
  - intros ->. reflexivity.
Qed.

(** On a value that is not negative, [abs] does not change the outcome
    of a comparison (it can only turn [-0.0] into [0.0]). *)
Lemma leb_abs_nonneg (x u : float) :
  (x <? 0)%float = false -> (abs x <=? u)%float = (x <=? u)%float.
Proof.
  rewrite ltb_spec, !leb_spec, abs_spec.
  change (Prim2SF 0) with (S754_zero false). unfold SFltb, SFleb.
  destruct (Prim2SF x) as [[]|[]| |[] m e],
           (Prim2SF u) as [[]|[]| |[] m' e']; simpl;
    try reflexivity; try discriminate.
Qed.

Lemma neg1_pow_S (j : nat) : neg1_pow (S j) = (- neg1_pow j)%float.
Proof.
  unfold neg1_pow. rewrite Nat.even_succ, <- Nat.negb_even.
  destruct (Nat.even j); reflexivity.
Qed.

Lemma leb_nan_l (x : float) : (nan <=? x)%float = false.
Proof. rewrite leb_spec. reflexivity. Qed.

Lemma SFmul_comm x y : SFmul prec emax x y = SFmul prec emax y x.
Proof.
  destruct x as [sx|sx| |sx mx ex], y as [sy|sy| |sy my ey]; simpl;
    try reflexivity; try (rewrite xorb_comm; reflexivity).
  rewrite xorb_comm, Pos.mul_comm, Z.add_comm. reflexivity.
Qed.

Lemma digits2_xO p :
  Zpos (digits2_pos p~0) = (Zpos (digits2_pos p) + 1)%Z.
Proof. cbn [digits2_pos]. lia. Qed.

Lemma pos_mul_xO_l (p q : positive) : (p~0 * q = (p * q)~0)%positive.
Proof. reflexivity. Qed.

(** Rounding the product of a valid mantissa with the mantissa of 1.0
    gives the mantissa back: the 52 added bits are zero and are shifted
    out exactly. *)
Lemma round_times_one s m e :
  bounded prec emax m e = true ->
  binary_round_aux prec emax s (Zpos (4503599627370496 * m)) (-52 + e)
    loc_Exact
  = S754_finite s m e.
Proof.
  unfold bounded, canonical_mantissa. intros H.
  apply andb_true_iff in H as [Hc Hb]. apply Z.eqb_eq in Hc.
  unfold binary_round_aux, shr_fexp.
  rewrite !pos_mul_xO_l, Pos.mul_1_l.
  cbn [Zdigits2 shr_record_of_loc].
  rewrite !digits2_xO.
  match goal with |- context [fexp prec emax ?a] =>
    replace a with (Zpos (digits2_pos m) + e)%Z by lia end.
  rewrite Hc.
  replace (e - (-52 + e))%Z with 52%Z by lia.
  cbn [shr SpecFloat.iter_pos shr_1 orb].
  replace (-52 + e + 52)%Z with e by lia.
  cbn [shr_m loc_of_shr_record round_nearest_even Zdigits2 shr_record_of_loc].
  rewrite Hc, Z.sub_diag. cbn [shr shr_m]. rewrite Hb. reflexivity.
Qed.

Lemma mul_1_l (x : float) : (1 * x)%float = x.
Proof.
  apply Prim2SF_inj. rewrite mul_spec.
  pose proof (Prim2SF_valid x) as Hv.
  change (Prim2SF 1) with (S754_finite false 4503599627370496 (-52)).
  destruct (Prim2SF x) as [s|s| |s m e]; try reflexivity.
  simpl in Hv. cbn [SFmul xorb]. apply round_times_one. exact Hv.
Qed.

Lemma mul_1_r (x : float) : (x * 1)%float = x.
Proof.
  rewrite <- (mul_1_l x) at 2. apply Prim2SF_inj. rewrite !mul_spec.
  apply SFmul_comm.
Qed.

Lemma neg1_pow_mul_abs (j : nat) (x : float) :
  abs (neg1_pow j * x) = abs x.
Proof.
  unfold neg1_pow. destruct (Nat.even j).
  - rewrite mul_1_l. reflexivity.
  - change (-1)%float with (PrimFloat.opp 1%float).
    rewrite mul_opp_l, mul_1_l. apply abs_opp.
Qed.

Lemma round_aux_sign s m e l :
  match binary_round_aux prec emax s m e l with
  | S754_zero s' | S754_infinity s' | S754_finite s' _ _ => s' = s
  | S754_nan => True
  end.
Proof.
  unfold binary_round_aux.
  destruct (shr_fexp prec emax m e l) as [r1 e1].
  destruct (shr_fexp prec emax _ e1 loc_Exact) as [r2 e2].
  destruct (shr_m r2); simpl; auto.
  destruct (Z.leb _ _); reflexivity.
Qed.

(** A square root is never below zero. *)
Lemma sqrt_abs_leb (x : float) :
  isnan (sqrt x) = false -> (abs (sqrt x) <=? sqrt x)%float = true.
Proof.
  unfold isnan. rewrite leb_spec, abs_spec, FloatAxioms.eqb_spec, sqrt_spec.
  unfold SF64sqrt, SFsqrt, SFleb, SFeqb.
  destruct (Prim2SF x) as [[]|[]| |[] m e]; simpl; try reflexivity;
    try discriminate.
  destruct (SFsqrt_core_binary prec emax (Z.pos m) e) as [[mz ez] lz].
  pose proof (round_aux_sign false mz ez lz) as Hs.
  destruct (binary_round_aux prec emax false mz ez lz) as [s|s| |s m' e'];
    try subst s; simpl; try reflexivity; try discriminate.
  intros _. rewrite Z.compare_refl, Pos.compare_cont_refl. reflexivity.
Qed.

Lemma sub_diag (x : float) : is_finite x = true -> (x - x)%float = 0%float.
Proof.
  unfold is_finite. intros H. apply Prim2SF_inj.
  rewrite ltb_spec, abs_spec in H. rewrite sub_spec.
  change (Prim2SF infinity) with (S754_infinity false) in H.
  change (Prim2SF 0) with (S754_zero false).
  unfold SFltb in H.
  destruct (Prim2SF x) as [[]|[]| |s m e]; simpl in *; try reflexivity;
    try discriminate.
  rewrite Z.sub_diag. reflexivity.
Qed.

Lemma leb_nan_false_l (x y : float) :
  isnan x = true -> (x <=? y)%float = false.
Proof. intros H. apply isnan_spec in H. subst x. apply leb_nan_l. Qed.

Lemma leb_nan_false_r (x y : float) :
  isnan y = true -> (x <=? y)%float = false.
Proof. intros H. apply isnan_spec in H. subst y. apply leb_nan_r. Qed.

Lemma abs_nan (x : float) : isnan x = true -> isnan (abs x) = true.
Proof. intros H. apply isnan_spec in H. subst x. reflexivity. Qed.

Lemma abs_neg1_pow_mul_mul (j : nat) (x y : float) :
  abs (neg1_pow j * x * y) = abs (x * y).
Proof.
  unfold neg1_pow. destruct (Nat.even j).
  - rewrite mul_1_l. reflexivity.
  - change (-1)%float with (PrimFloat.opp 1%float).
    rewrite !mul_opp_l, mul_1_l. apply abs_opp.
Qed.

Lemma abs_leb_zero (x : float) :
  (abs x <=? 0)%float = true -> abs x = 0%float.
Proof.
  intros H. apply Prim2SF_inj. rewrite leb_spec in H. rewrite abs_spec in *.
  change (Prim2SF 0) with (S754_zero false) in *.
  unfold SFleb in H. destruct (Prim2SF x) as [s|s| |s m e]; simpl in *;
    try discriminate; reflexivity.
Qed.

Lemma opp_involutive (x : float) : (- - x)%float = x.
Proof.
  apply Prim2SF_inj. rewrite !opp_spec.
  destruct (Prim2SF x) as [s|s| |s m e]; cbn [SFopp];
    rewrite ?Bool.negb_involutive; reflexivity.
Qed.

Lemma neg1_pow_mul (j : nat) (x : float) :
  (neg1_pow j * x)%float = if Nat.even j then x else (- x)%float.
Proof.
  unfold neg1_pow. destruct (Nat.even j).
  - apply mul_1_l.
  - change (-1)%float with (PrimFloat.opp 1%float).
    rewrite mul_opp_l, mul_1_l. reflexivity.
Qed.

Lemma eqb_refl_number (x : float) : isnan x = false -> (x =? x)%float = true.
Proof. unfold isnan. destruct (x =? x)%float; [reflexivity|discriminate]. Qed.

Lemma isnan_opp (x : float) : isnan (- x) = isnan x.
Proof.
  unfold isnan. rewrite !FloatAxioms.eqb_spec, opp_spec.
  destruct (Prim2SF x) as [s|s| |s m e]; unfold SFeqb; cbn [SFopp];
    rewrite ?SFcompare_refl by discriminate; reflexivity.
Qed.

Lemma isnan_abs (x : float) : isnan (abs x) = isnan x.
Proof.
  unfold isnan. rewrite !FloatAxioms.eqb_spec, abs_spec.
  destruct (Prim2SF x) as [s|s| |s m e]; unfold SFeqb; cbn [SFabs];
    rewrite ?SFcompare_refl by discriminate; reflexivity.
Qed.

Lemma ltb_zero_opp (x : float) : (0 <? - x)%float = (x <? 0)%float.
Proof.
  rewrite !ltb_spec, opp_spec.
  change (Prim2SF 0) with (S754_zero false).
  destruct (Prim2SF x) as [[|]|[|]| |[|] m e]; reflexivity.
Qed.

Lemma ltb_opp_zero (x : float) : (- x <? 0)%float = (0 <? x)%float.
Proof.
  rewrite !ltb_spec, opp_spec.
  change (Prim2SF 0) with (S754_zero false).
  destruct (Prim2SF x) as [[|]|[|]| |[|] m e]; reflexivity.
Qed.

End F64Facts.

(** ** Facts about the exception monad *)

Lemma result_bind_Ok {A B} (f : A -> result B) (r : result A) (b : B) :
  r ≫= f = Ok b -> exists a, r = Ok a /\ f a = Ok b.
Proof. destruct r as [a|e]; [eauto | discriminate]. Qed.

Ltac inv_result :=
  repeat match goal with
  | H : Ok _ = Ok _ |- _ => injection H as H; subst
  | H : Raise _ = Ok _ |- _ => discriminate H
  | H : mret _ = Ok _ |- _ => injection H as H; subst
  | H : _ ≫= _ = Ok _ |- _ =>
      let a := fresh "a" in
      let Ha := fresh "Ha" in
      apply result_bind_Ok in H as (a & Ha & H)
  end.

Lemma index_Ok {A} (l : list A) i x : index l i = Ok x <-> l !! i = Some x.
Proof. unfold index. destruct (l !! i); split; congruence. Qed.

Lemma loc_Ok {A} (l : list A) i x : loc l i = Ok x <-> l !! i = Some x.
Proof. unfold loc. destruct (l !! i); split; congruence. Qed.

Lemma mapM_result_length {A B} (f : A -> result B) l r :
  mapM f l = Ok r -> length r = length l.
Proof.
  revert r. induction l as [|x l IH]; intros r H; simpl in H.
  - inv_result. reflexivity.
  - inv_result. simpl. f_equal. eauto.
Qed.

Lemma mapM_result_lookup {A B} (f : A -> result B) l r k x :
  mapM f l = Ok r -> l !! k = Some x ->
  exists y, r !! k = Some y /\ f x = Ok y.
Proof.
  revert r k. induction l as [|x' l IH]; intros r k H Hk; [discriminate|].
  simpl in H. inv_result. destruct k as [|k]; simpl in *.
  - injection Hk as ->. eauto.
  - eauto.
Qed.

Lemma mapM_result_total {A B} (f : A -> result B) l :
  Forall (fun x => exists y, f x = Ok y) l -> exists r, mapM f l = Ok r.
Proof.
  induction 1 as [|x l [y Hy] _ [r Hr]]; simpl; [eexists; reflexivity|].
  rewrite Hy. simpl. rewrite Hr. eexists. reflexivity.
Qed.

Lemma for_each_result_inv {S A} (I : S -> Prop) (P : A -> Prop)
    (body : S -> A -> result S) s l :
  (forall s x, I s -> P x -> exists s', body s x = Ok s' /\ I s') ->
  I s -> Forall P l -> exists s', for_each body s l = Ok s' /\ I s'.
Proof.
  intros Hb Hs Hl. revert s Hs.
  induction Hl as [|x l Hx _ IH]; intros s Hs; simpl; [eauto|].
  destruct (Hb s x Hs Hx) as (s1 & -> & Hs1). simpl. eauto.
Qed.

(** ** The sampler *)

Section Sampler.
Context `{Gen : Generator} `{Pf : Solver}.

Lemma fill_length draw n rs : length (fst (fill draw n rs)) = n.
Proof.
  revert rs. induction n as [|n IH]; intros rs; simpl; [reflexivity|].
  destruct (draw rs) as [z rs1]. specialize (IH rs1).
  destruct (fill draw n rs1) as [zs rs2]. simpl in *. lia.
Qed.

Lemma fill2_length draw rows cols rs :
  length (fst (fill2 draw rows cols rs)) = rows.
Proof.
  revert rs. induction rows as [|n IH]; intros rs; simpl; [reflexivity|].
  destruct (fill draw cols rs) as [r rs1]. specialize (IH rs1).
  destruct (fill2 draw n cols rs1) as [a rs2]. simpl in *. lia.
Qed.

Lemma rng_fill2_Ok draw rows cols w :
  exists a w', rng_fill2 draw rows cols w = (Ok a, w') /\ length a = rows
    /\ clock w' = clock w /\ ticks w' = ticks w /\ stdout w' = stdout w.
Proof.
  unfold rng_fill2. pose proof (fill2_length draw rows cols (rng w)) as Hl.
  destruct (fill2 draw rows cols (rng w)) as [a rs]. simpl in Hl.
  eexists _, _. split; [reflexivity|]. simpl. auto.
Qed.

Lemma hstack_length (a b : array2) :
  length (hstack a b) = Nat.min (length a) (length b).
Proof. unfold hstack. apply length_zip_with. Qed.

(** C3, as the code has it: for the limits-oriented distribution with two
    degrees of freedom, [sample_from_rng] always returns an array, and the
    array has [n + 2 * (n / 4)] rows, not [n]: the fourth block is drawn
    with [n - n / 4] rows instead of [n - 3 * (n / 4)]. *)
Theorem sample_from_rng_limits_oriented_rows (n : nat) (w : World) :
  exists a w', sample_from_rng "Normal_Limits_Oriented" n 2 w = (Ok a, w')
    /\ length a = n + 2 * (n / 4).
Proof.
  unfold sample_from_rng. cbn [String.eqb Ascii.eqb Bool.eqb Nat.eqb].
  unfold rng_normal. cbv [mbind M_bind mret M_ret].
  repeat match goal with
  | |- context [rng_fill2 ?d ?r ?c ?w0] =>
      let a := fresh "a" in let w1 := fresh "w" in
      let E := fresh "E" in let L := fresh "L" in
      destruct (rng_fill2_Ok d r c w0) as (a & w1 & E & L & _); rewrite E
  end.
  eexists _, _. split; [reflexivity|].
  rewrite !length_app, !hstack_length.
  pose proof (Nat.Div0.mul_div_le n 4). lia.
Qed.

(** C10: without a [services] argument the default ['DG Only'] matches none
    of the three tags, so [profile_creation] raises the assertion error;
    the generator has just been seeded, and nothing was drawn, timed or
    printed. *)
Theorem profile_creation_default_services_fails
    (no_samples : nat) (net : network) (distribution : string)
    (keep_mp : bool) (flexible_loads : list nat) (w : World) :
  profile_creation no_samples net distribution keep_mp services_default
                   flexible_loads w
  = (Raise (AssertionError "Error: Choose FSPs from {All, Load only, DG only}"),
     mk_world (RandomState_seed 21) (clock w) (ticks w) (stdout w) (pf w)).
Proof. reflexivity. Qed.

End Sampler.

(** ** Facts about the world monad *)

Section WorldMonad.
Context `{Gen : Generator} `{Pf : Solver}.

Lemma M_bind_Ok {A B} (m : M A) (k : A -> M B) w b w' :
  (m ≫= k) w = (Ok b, w') ->
  exists a w1, m w = (Ok a, w1) /\ k a w1 = (Ok b, w').
Proof.
  unfold mbind, M_bind. destruct (m w) as [[a|e] w1]; [eauto | discriminate].
Qed.

Lemma M_bind_run {A B} (m : M A) (k : A -> M B) w a w1 :
  m w = (Ok a, w1) -> (m ≫= k) w = k a w1.
Proof. intros E. unfold mbind, M_bind. rewrite E. reflexivity. Qed.

Lemma lift_Ok {A} (r : result A) w a w' :
  lift r w = (Ok a, w') -> r = Ok a /\ w' = w.
Proof. unfold lift. intros [= -> ->]. auto. Qed.

Lemma M_ret_Ok {A} (x : A) w a w' :
  mret (M := M) x w = (Ok a, w') -> a = x /\ w' = w.
Proof. intros [= -> ->]. auto. Qed.

Lemma mapM_M_length {A B} (f : A -> M B) l w r w' :
  mapM f l w = (Ok r, w') -> length r = length l.
Proof.
  revert w r w'. induction l as [|x l IH]; intros w r w' H; simpl in H.
  - apply M_ret_Ok in H as [-> _]. reflexivity.
  - apply M_bind_Ok in H as (y & w1 & _ & H).
    apply M_bind_Ok in H as (ys & w2 & Hys & H).
    apply M_ret_Ok in H as [-> _]. simpl. f_equal. exact (IH _ _ _ Hys).
Qed.

End WorldMonad.

Ltac inv_M :=
  repeat match goal with
  | H : (_ ≫= _) _ = (Ok _, _) |- _ =>
      let a := fresh "a" in
      let w := fresh "w" in
      let Ha := fresh "Ha" in
      apply M_bind_Ok in H as (a & w & Ha & H)
  | H : lift _ _ = (Ok _, _) |- _ => apply lift_Ok in H as [H ->]
  | H : mret _ _ = (Ok _, _) |- _ => apply M_ret_Ok in H as [-> ->]
  | H : (let '(_, _) := ?p in _) _ = _ |- _ => destruct p
  | H : (let (_, _) := ?p in _) _ = _ |- _ => destruct p
  end.

(** ** The size of a batch *)

Section BatchSize.
Context `{Gen : Generator} `{Pf : Solver}.

Lemma create_samples_length n net d k w p dur w' :
  create_samples n net d k w = (Ok (p, dur), w') -> length p = n.
Proof.
  unfold create_samples. intros H. inv_M.
  injection H as <- _.
  destruct k; inv_M;
    match goal with
    | H : _ = Ok _ |- _ => apply mapM_result_length in H; rewrite H
    end; apply length_seq.
Qed.

Lemma sample_new_load_point_length loads raw n fl w p w' :
  sample_new_load_point loads raw n fl w = (Ok p, w') -> length p = n.
Proof.
  unfold sample_new_load_point. intros H.
  destruct fl; apply mapM_M_length in H; rewrite H; apply length_seq.
Qed.

Lemma create_load_samples_length n net d fl w p dur w' :
  create_load_samples n net d fl w = (Ok (p, dur), w') -> length p = n.
Proof.
  unfold create_load_samples. intros H. inv_M.
  injection H as <- _. eauto using sample_new_load_point_length.
Qed.

Lemma np_shape_hd (b : list profile) s :
  np_shape b = Some s -> 2 <= length s -> hd 0 s = length b.
Proof.
  destruct b as [|p b]; simpl.
  - intros [= <-]. simpl. lia.
  - destruct (_ && _); [|discriminate]. intros [= <-] _.
    destruct (length p =? 0); reflexivity.
Qed.

Lemma concatenate_axis1_length a b c :
  concatenate_axis1 a b = Ok c -> length c = length a /\ length c = length b.
Proof.
  unfold concatenate_axis1.
  destruct (np_shape a) as [sa|] eqn:Ha; [|discriminate].
  destruct (np_shape b) as [sb|] eqn:Hb; [|discriminate].
  destruct (length sa <? 2) eqn:E1; [discriminate|].
  destruct (length sa =? length sb) eqn:E2; [|discriminate].
  destruct (hd 0 sa =? hd 0 sb) eqn:E3; [|discriminate].
  simpl. intros [= <-].
  apply Nat.ltb_ge in E1. apply Nat.eqb_eq in E2, E3.
  rewrite (np_shape_hd a sa), (np_shape_hd b sb) in E3 by (auto; lia).
  rewrite length_zip_with. lia.
Qed.

Lemma concatenate_axis0_app a b c : concatenate_axis0 a b = Ok c -> c = a ++ b.
Proof.
  unfold concatenate_axis0.
  destruct (np_shape a), (np_shape b); try discriminate.
  destruct (negb _); [discriminate|]. destruct (negb _); [discriminate|].
  congruence.
Qed.

(** Whenever [profile_creation] returns a batch for ['All'], the batch has
    [N/2 + N/8 + 3N/8] entries. *)
Lemma All_batch_length_if_returned (no_samples : nat) (net : network)
    (distribution : string) (keep_mp : bool) (flexible_loads : list nat)
    (w w' : World) (profiles : list profile) (dur : float) :
  profile_creation no_samples net distribution keep_mp "All" flexible_loads w
    = (Ok (profiles, dur), w') ->
  length profiles = no_samples / 2 + no_samples / 8 + 3 * no_samples / 8.
Proof.
  unfold profile_creation. cbn [String.eqb Ascii.eqb Bool.eqb].
  intros H. inv_M. injection H as <- _.
  repeat match goal with
  | H : create_samples _ _ _ _ _ = _ |- _ => apply create_samples_length in H
  | H : create_load_samples _ _ _ _ _ = _ |- _ =>
      apply create_load_samples_length in H
  | H : concatenate_axis1 _ _ = _ |- _ => apply concatenate_axis1_length in H
  | H : concatenate_axis0 _ _ = _ |- _ =>
      apply concatenate_axis0_app in H; subst
  end.
  rewrite !length_app. rewrite Nat.mul_1_l in *. lia.
Qed.

End BatchSize.

(** ** The Monte Carlo sweep *)

Section Sweep.
Context `{Gen : Generator} `{Pf : Solver}.

Lemma forallb_Forall {A} (f : A -> bool) (l : list A) :
  forallb f l = true <-> Forall (fun x => f x = true) l.
Proof.
  induction l as [|x l IH]; simpl.
  - split; auto.
  - rewrite andb_true_iff, IH. split.
    + intros [? ?]. constructor; auto.
    + inversion 1; auto.
Qed.

Lemma check_voltage_limits_spec voltages upper lower :
  check_voltage_limits voltages upper lower = true
  <-> Forall (fun v => (lower <=? v)%float = true
                       /\ (v <=? upper)%float = true) voltages.
Proof.
  unfold check_voltage_limits. rewrite forallb_Forall.
  apply Forall_iff. intros v. unfold F64.geb.
  rewrite andb_true_iff. tauto.
Qed.

Lemma check_loading_spec (loading : list float) upper :
  Forall (fun x => (x <? 0)%float = false) loading ->
  forallb (fun x => F64.geb upper (abs x)) loading = true
  <-> Forall (fun x => (x <=? upper)%float = true) loading.
Proof.
  intros Hpos. rewrite forallb_Forall. unfold F64.geb.
  induction Hpos as [|x l Hx _ IH].
  - split; constructor.
  - split; inversion 1; subst; constructor; try (apply IH; assumption).
    + rewrite <- (F64Facts.leb_abs_nonneg x upper Hx). assumption.
    + rewrite (F64Facts.leb_abs_nonneg x upper Hx). assumption.
Qed.

(** The three checks as the code computes them: the loadings are compared
    in absolute value. *)
Lemma checks_abs_spec settings net :
  check_voltage_limits (res_bus_vm_pu (res net))
    (max_volt settings) (min_volt settings)
  && check_line_current_limits net (max_curr settings)
  && check_trafo_current_limits net (max_curr settings) = true
  <-> Forall (fun v => (min_volt settings <=? v)%float = true
                       /\ (v <=? max_volt settings)%float = true)
             (res_bus_vm_pu (res net))
      /\ Forall (fun x => (abs x <=? max_curr settings)%float = true)
                (res_line_loading_percent (res net))
      /\ Forall (fun x => (abs x <=? max_curr settings)%float = true)
                (res_trafo_loading_percent (res net)).
Proof.
  rewrite !andb_true_iff, check_voltage_limits_spec.
  unfold check_line_current_limits, check_trafo_current_limits.
  rewrite !forallb_Forall. unfold F64.geb. tauto.
Qed.

Lemma checks_spec settings net :
  loading_not_negative (res net) ->
  check_voltage_limits (res_bus_vm_pu (res net))
    (max_volt settings) (min_volt settings)
  && check_line_current_limits net (max_curr settings)
  && check_trafo_current_limits net (max_curr settings) = true
  <-> within_limits settings (res net).
Proof.
  intros [Hl Ht]. unfold within_limits.
  rewrite !andb_true_iff, check_voltage_limits_spec.
  unfold check_line_current_limits, check_trafo_current_limits.
  rewrite (check_loading_spec _ _ Hl), (check_loading_spec _ _ Ht). tauto.
Qed.

Lemma append_flexible_neq b v p : append_flexible b v p <> append_non_flexible b v p.
Proof.
  intros E. apply (f_equal (fun b => length (x_flexible b))) in E.
  simpl in E. rewrite length_app in E. simpl in E. lia.
Qed.

Lemma limits_hold_spec settings r :
  limits_hold settings r = true <-> within_limits_abs settings r.
Proof.
  unfold limits_hold, within_limits_abs.
  apply (checks_abs_spec settings (mk_net [] [] r)).
Qed.

Lemma snoc_neq {A} (l : list A) x : l <> l ++ [x].
Proof.
  intros E. apply (f_equal length) in E. rewrite length_app in E.
  simpl in E. lia.
Qed.

(** C4: when the solve of an iteration converges, the iteration only
    replaces the solver state and the result tables, and appends the
    slack-bus P, the slack-bus Q and the profile to the three feasible
    lists if and only if every bus voltage lies in [[min_volt, max_volt]]
    and every line and transformer loading is, in absolute value, at most
    [max_curr], leaving the infeasible lists as they are; and it appends
    them to the three infeasible lists if and only if that is not so,
    leaving the feasible lists as they are.  On loadings that are not
    negative the absolute value drops out. *)
Theorem sweep_body_classifies
    (update : network -> profile -> result network)
    (settings : SettingReader) (net net1 : network) (b : buckets)
    (profile : profile) (w : World) (s : solver) (r : pf_result) :
  update net profile = Ok net1 ->
  runpp (pf w) net1 = (s, Some r) ->
  exists b',
    sweep_body update settings (net, b) profile w
    = (Ok (mk_net (sgen net1) (load net1) r, b'),
       mk_world (rng w) (clock w) (ticks w) (stdout w) s)
    /\ (within_limits_abs settings r
        <-> x_flexible b' = x_flexible b ++ [res_ext_grid_p_mw r]
            /\ y_flexible b' = y_flexible b ++ [res_ext_grid_q_mvar r]
            /\ prof_flexible b' = prof_flexible b ++ [profile])
    /\ (~ within_limits_abs settings r
        <-> x_non_flexible b' = x_non_flexible b ++ [res_ext_grid_p_mw r]
            /\ y_non_flexible b' = y_non_flexible b ++ [res_ext_grid_q_mvar r]
            /\ prof_non_flexible b' = prof_non_flexible b ++ [profile])
    /\ (within_limits_abs settings r
        -> x_non_flexible b' = x_non_flexible b
           /\ y_non_flexible b' = y_non_flexible b
           /\ prof_non_flexible b' = prof_non_flexible b)
    /\ (~ within_limits_abs settings r
        -> x_flexible b' = x_flexible b
           /\ y_flexible b' = y_flexible b
           /\ prof_flexible b' = prof_flexible b)
    /\ (loading_not_negative r
        -> (within_limits settings r <-> within_limits_abs settings r)).
Proof.
  intros Hupd Hrun.
  unfold sweep_body. cbv [mbind M_bind lift pp_runpp].
  rewrite Hupd, Hrun. cbn [option_map].
  change (check_voltage_limits _ _ _ && _ && _)
    with (limits_hold settings r).
  pose proof (limits_hold_spec settings r) as Hspec.
  assert (Hpos : loading_not_negative r ->
                 (within_limits settings r <-> within_limits_abs settings r)).
  { intros Hp. rewrite <- Hspec.
    symmetry. apply (checks_spec settings (mk_net [] [] r) Hp). }
  destruct (limits_hold settings r) eqn:E.
  - assert (Hin : within_limits_abs settings r) by (apply Hspec; reflexivity).
    eexists. split; [reflexivity|]. cbn [append_flexible x_flexible
      y_flexible prof_flexible x_non_flexible y_non_flexible
      prof_non_flexible fst snd].
    split; [split; [intros _; auto | intros _; exact Hin] |].
    split; [split; [intros H; contradiction
                   | intros (H & _); exfalso; exact (snoc_neq _ _ H)] |].
    split; [intros _; auto |].
    split; [intros H; contradiction | exact Hpos].
  - assert (Hout : ~ within_limits_abs settings r).
    { intros H. apply Hspec in H. discriminate. }
    eexists. split; [reflexivity|]. cbn [append_non_flexible x_flexible
      y_flexible prof_flexible x_non_flexible y_non_flexible
      prof_non_flexible fst snd].
    split; [split; [intros H; contradiction
                   | intros (H & _); exfalso; exact (snoc_neq _ _ H)] |].
    split; [split; [intros _; auto | intros _; exact Hout] |].
    split; [intros H; contradiction |].
    split; [intros _; auto | exact Hpos].
Qed.

End Sweep.

(** *** Every profile is accounted for *)

Section Completeness.
Context `{Gen : Generator} `{Pf : Solver}.

Lemma update_sgen_Ok flex_wt flex_pv (p : profile) scale_w scale_pv t i :
  i < length p -> i < length t ->
  exists t', update_sgen flex_wt flex_pv p scale_w scale_pv t i = Ok t'
             /\ length t' = length t.
Proof.
  intros Hp Ht. unfold update_sgen, set_p_mw, set_q_mvar.
  destruct (lookup_lt_is_Some_2 p i Hp) as [e He].
  destruct (py_in i flex_pv || py_in i flex_wt).
  - unfold index. rewrite He. eexists. split; [reflexivity|].
    rewrite !length_alter. reflexivity.
  - destruct (lookup_lt_is_Some_2 t i Ht) as [r Hr].
    unfold loc. rewrite Hr. cbn [mbind result_bind].
    rewrite list_lookup_alter_eq, Hr. cbn [fmap option_fmap option_map].
    eexists. split; [reflexivity|]. rewrite !length_alter. reflexivity.
Qed.

Lemma rescale_sgen_Ok scale_w scale_pv t i :
  i < length t ->
  exists t', rescale_sgen scale_w scale_pv t i = Ok t' /\ length t' = length t.
Proof.
  intros Ht. unfold rescale_sgen, set_p_mw, set_q_mvar.
  destruct (lookup_lt_is_Some_2 t i Ht) as [r Hr].
  unfold loc. rewrite Hr. cbn [mbind result_bind].
  rewrite list_lookup_alter_eq, Hr. cbn [fmap option_fmap option_map].
  eexists. split; [reflexivity|]. rewrite !length_alter. reflexivity.
Qed.

Lemma rescale_loop_Ok scale_w scale_pv t :
  exists t', for_each (rescale_sgen scale_w scale_pv) t (seq 0 (length t)) = Ok t'
             /\ length t' = length t.
Proof.
  apply (for_each_result_inv (fun t' => length t' = length t)
           (fun i => i < length t)); [|reflexivity|].
  - intros t1 i E Hi. rewrite <- E in Hi.
    destruct (rescale_sgen_Ok scale_w scale_pv t1 i Hi) as (t2 & -> & E2).
    eexists. split; [reflexivity|]. congruence.
  - apply Forall_seq. intros; lia.
Qed.

Lemma update_pqs_Ok net flex_wt flex_pv (p : profile) scale_w scale_pv :
  length p <= length (sgen net) ->
  exists net', update_pqs net flex_wt flex_pv (Some p) scale_w scale_pv = Ok net'
               /\ length (sgen net') = length (sgen net).
Proof.
  intros Hp. unfold update_pqs. destruct p as [|e p]; cbv beta iota.
  - destruct (rescale_loop_Ok scale_w scale_pv (sgen net)) as (t & -> & E).
    eexists. split; [reflexivity|]. exact E.
  - set (q := e :: p) in *.
    destruct (for_each_result_inv (fun t' => length t' = length (sgen net))
                (fun i => i < length q)
                (update_sgen flex_wt flex_pv q scale_w scale_pv)
                (sgen net) (seq 0 (length q))) as (t & -> & E).
    + intros t1 i E Hi.
      destruct (update_sgen_Ok flex_wt flex_pv q scale_w scale_pv t1 i Hi)
        as (t2 & -> & E2); [lia|].
      eexists. split; [reflexivity|]. congruence.
    + reflexivity.
    + apply Forall_seq. intros; lia.
    + eexists. split; [reflexivity|]. exact E.
Qed.

Lemma update_pqs_wl_Ok net flex_wt flex_pv (p : profile) scale_w scale_pv
    load_ind :
  length p <= length (sgen net) + length load_ind ->
  exists net', update_pqs_wl net flex_wt flex_pv (Some p) scale_w scale_pv
                             load_ind = Ok net'
               /\ length (sgen net') = length (sgen net).
Proof.
  intros Hp. unfold update_pqs_wl. destruct p as [|e p]; cbv beta iota.
  - destruct (rescale_loop_Ok scale_w scale_pv (sgen net)) as (t & -> & E).
    eexists. split; [reflexivity|]. exact E.
  - set (q := e :: p) in *.
    apply (for_each_result_inv
             (fun net' => length (sgen net') = length (sgen net))
             (fun i => i < length q)); [|reflexivity|].
    + intros n1 i E Hi. destruct (i <? length (sgen n1)) eqn:Elt.
      * apply Nat.ltb_lt in Elt.
        destruct (update_sgen_Ok flex_wt flex_pv q scale_w scale_pv
                    (sgen n1) i Hi Elt) as (t2 & -> & E2).
        eexists. split; [reflexivity|]. simpl. congruence.
      * apply Nat.ltb_ge in Elt.
        destruct (lookup_lt_is_Some_2 load_ind (i - length (sgen n1)))
          as [j Hj]; [lia|].
        destruct (lookup_lt_is_Some_2 q i Hi) as [e' He'].
        unfold index. rewrite Hj, He'.
        eexists. split; [reflexivity|]. exact E.
    + apply Forall_seq. intros; lia.
Qed.

Lemma skipped_count_snoc out e :
  skipped_count (out ++ [e])
  = skipped_count out + (if is_not_converged e then 1 else 0).
Proof.
  unfold skipped_count. rewrite List.filter_app, length_app. simpl.
  destruct (is_not_converged e); reflexivity.
Qed.

(** One iteration: whatever the solver answers, the iteration returns, and
    exactly one of the feasible list, the infeasible list and the count of
    reported failures grows by one. *)
Lemma sweep_body_accounts update settings net0 (P : profile -> Prop)
    net b profile w :
  (forall net p, length (sgen net) = length (sgen net0) -> P p ->
     exists net', update net p = Ok net'
                  /\ length (sgen net') = length (sgen net0)) ->
  length (sgen net) = length (sgen net0) -> P profile -> aligned b ->
  exists net' b' w',
    sweep_body update settings (net, b) profile w = (Ok (net', b'), w')
    /\ length (sgen net') = length (sgen net0) /\ aligned b'
    /\ length (prof_flexible b') + length (prof_non_flexible b')
       + skipped_count (stdout w')
       = S (length (prof_flexible b) + length (prof_non_flexible b)
            + skipped_count (stdout w)).
Proof.
  intros Hupd Hnet Hp (A1 & A2 & A3 & A4).
  destruct (Hupd net profile Hnet Hp) as (net1 & E1 & L1).
  unfold sweep_body. cbv [mbind M_bind lift pp_runpp]. rewrite E1.
  destruct (runpp (pf w) net1) as [s [r|]]; cbn [option_map].
  - destruct (_ && _ && _); cbv [mret M_ret];
      eexists _, _, _; (split; [reflexivity|]);
      unfold aligned, append_flexible, append_non_flexible; simpl;
      rewrite !length_app; simpl; repeat split; lia.
  - cbv [print mret M_ret].
    eexists _, _, _. split; [reflexivity|]. simpl.
    rewrite skipped_count_snoc. simpl. unfold aligned. repeat split; lia.
Qed.

Lemma sweep_loop_accounts update settings net0 (P : profile -> Prop) :
  (forall net p, length (sgen net) = length (sgen net0) -> P p ->
     exists net', update net p = Ok net'
                  /\ length (sgen net') = length (sgen net0)) ->
  forall batch net b w,
  length (sgen net) = length (sgen net0) -> aligned b -> Forall P batch ->
  exists net' b' w',
    for_each (sweep_body update settings) (net, b) batch w = (Ok (net', b'), w')
    /\ aligned b'
    /\ length (prof_flexible b') + length (prof_non_flexible b')
       + skipped_count (stdout w')
       = length batch + (length (prof_flexible b) + length (prof_non_flexible b)
                         + skipped_count (stdout w)).
Proof.
  intros Hupd. induction batch as [|p batch IH]; intros net b w Hnet Hb Hall.
  - eexists _, _, _. split; [reflexivity|]. split; [assumption|]. simpl. lia.
  - inversion Hall as [|? ? Hp Hrest]; subst.
    destruct (sweep_body_accounts update settings net0 P net b p w
                Hupd Hnet Hp Hb) as (net1 & b1 & w1 & E1 & L1 & A1 & C1).
    destruct (IH net1 b1 w1 L1 A1 Hrest) as (net2 & b2 & w2 & E2 & A2 & C2).
    eexists _, _, _. split; [|split; [exact A2|]].
    + cbn [for_each]. cbv [mbind M_bind]. rewrite E1. exact E2.
    + simpl. lia.
Qed.

End Completeness.

Section SweepCompleteness.
Context `{Gen : Generator} `{Pf : Solver}.

Lemma sweep_epilogue_accounts (body : M (network * buckets))
    (tail : buckets -> float -> float -> M (buckets * float))
    w net b w1 n :
  body (mk_world (rng w) (clock w) (S (ticks w)) (stdout w) (pf w))
    = (Ok (net, b), w1) ->
  aligned b ->
  length (prof_flexible b) + length (prof_non_flexible b)
    + skipped_count (stdout w1) = n + skipped_count (stdout w) ->
  (forall t0 t1 w2, exists w3,
      tail b t0 t1 w2 = (Ok (b, (t1 - t0)%float), w3)
      /\ skipped_count (stdout w3) = skipped_count (stdout w2)) ->
  exists b' dur w',
    (t0 ← time_time; '(_, b) ← body; t1 ← time_time; tail b t0 t1) w
      = (Ok (b', dur), w')
    /\ aligned b'
    /\ length (prof_flexible b') + length (prof_non_flexible b')
       + skipped_count (stdout w') = n + skipped_count (stdout w).
Proof.
  intros E A C Ht. cbv [mbind M_bind time_time]. rewrite E.
  match goal with
  | |- context [tail b ?t0 ?t1 ?w2] =>
      destruct (Ht t0 t1 w2) as (w3 & -> & E3)
  end.
  eexists _, _, _. split; [reflexivity|]. split; [assumption|].
  rewrite E3. simpl. exact C.
Qed.

Lemma sweep_epilogue_run (body : M (network * buckets))
    (tail : buckets -> float -> float -> M (buckets * float))
    w net b w1 :
  body (mk_world (rng w) (clock w) (S (ticks w)) (stdout w) (pf w))
    = (Ok (net, b), w1) ->
  (t0 ← time_time; '(_, b) ← body; t1 ← time_time; tail b t0 t1) w
  = tail b (clock w (ticks w)) (clock w1 (ticks w1))
         (mk_world (rng w1) (clock w1) (S (ticks w1)) (stdout w1) (pf w1)).
Proof. intros E. cbv [mbind M_bind time_time]. rewrite E. reflexivity. Qed.

(** *** The lists of a sweep are those of its solves *)

Lemma skipped_count_app out1 out2 :
  skipped_count (out1 ++ out2) = skipped_count out1 + skipped_count out2.
Proof. unfold skipped_count. rewrite List.filter_app, length_app. reflexivity. Qed.

Lemma skipped_count_not_converged (l : list profile) :
  skipped_count (PrintNotConverged <$> l) = length l.
Proof.
  unfold skipped_count. induction l as [|p l IH]; simpl in *; [reflexivity|].
  f_equal. exact IH.
Qed.

Lemma filter_split_length {A} (f : A -> bool) (l : list A) :
  length (List.filter f l) + length (List.filter (fun x => negb (f x)) l)
  = length l.
Proof.
  induction l as [|x l IH]; simpl; [reflexivity|].
  destruct (f x); simpl; lia.
Qed.

Lemma converged_failed_length (tr : list (profile * option pf_result)) :
  length (converged tr) + length (failed tr) = length tr.
Proof.
  unfold converged, failed.
  induction tr as [|[p [r|]] tr IH]; cbn [omap list_omap fst snd length] in *;
    lia.
Qed.

(** One iteration, whatever the solver answers. *)
Lemma sweep_body_run update settings net b p w net1 s1 r :
  update net p = Ok net1 -> runpp (pf w) net1 = (s1, r) ->
  sweep_body update settings (net, b) p w
  = (Ok (match r with
         | Some res => mk_net (sgen net1) (load net1) res
         | None => net1
         end,
         match r with
         | Some res =>
             if limits_hold settings res
             then append_flexible b
                    (res_ext_grid_p_mw res, res_ext_grid_q_mvar res) p
             else append_non_flexible b
                    (res_ext_grid_p_mw res, res_ext_grid_q_mvar res) p
         | None => b
         end),
     mk_world (rng w) (clock w) (ticks w)
       (match r with
        | Some _ => stdout w
        | None => stdout w ++ [PrintNotConverged p]
        end) s1).
Proof.
  intros Eu Er. unfold sweep_body. cbv [mbind M_bind lift pp_runpp].
  rewrite Eu, Er. destruct r as [res|]; cbn [option_map].
  - change (check_voltage_limits _ _ _ && _ && _)
      with (limits_hold settings res).
    destruct (limits_hold settings res); reflexivity.
  - reflexivity.
Qed.

(** The loop of a sweep against the solves of its batch: it raises exactly
    when writing a profile raises, and otherwise its lists and its output
    are those of the solves. *)
Lemma sweep_loop_refines update settings :
  forall batch net b w,
  match solve_in_turn update net (pf w) batch with
  | Ok (tr, s') =>
      fst <$> tr = batch
      /\ exists net',
           for_each (sweep_body update settings) (net, b) batch w
           = (Ok (net',
                  mk_buckets
                    (x_flexible b
                     ++ ((fun e => res_ext_grid_p_mw (snd e))
                         <$> List.filter
                               (fun e => limits_hold settings (snd e))
                               (converged tr)))
                    (y_flexible b
                     ++ ((fun e => res_ext_grid_q_mvar (snd e))
                         <$> List.filter
                               (fun e => limits_hold settings (snd e))
                               (converged tr)))
                    (x_non_flexible b
                     ++ ((fun e => res_ext_grid_p_mw (snd e))
                         <$> List.filter
                               (fun e => negb (limits_hold settings (snd e)))
                               (converged tr)))
                    (y_non_flexible b
                     ++ ((fun e => res_ext_grid_q_mvar (snd e))
                         <$> List.filter
                               (fun e => negb (limits_hold settings (snd e)))
                               (converged tr)))
                    (prof_flexible b
                     ++ (fst <$> List.filter
                                   (fun e => limits_hold settings (snd e))
                                   (converged tr)))
                    (prof_non_flexible b
                     ++ (fst <$> List.filter
                                   (fun e => negb (limits_hold settings (snd e)))
                                   (converged tr)))),
              mk_world (rng w) (clock w) (ticks w)
                       (stdout w ++ (PrintNotConverged <$> failed tr)) s')
  | Raise e =>
      exists w',
        for_each (sweep_body update settings) (net, b) batch w = (Raise e, w')
  end.
Proof.
  induction batch as [|p batch IH]; intros net b w.
  - cbn. split; [reflexivity|]. exists net. rewrite !app_nil_r.
    destruct b, w; reflexivity.
  - cbn [solve_in_turn for_each].
    destruct (update net p) as [net1|e] eqn:Eu; cbn [mbind result_bind].
    2:{ eexists. unfold sweep_body. cbv [mbind M_bind lift]. rewrite Eu.
        reflexivity. }
    destruct (runpp (pf w) net1) as [s1 r] eqn:Er.
    rewrite (M_bind_run _ _ _ _ _
               (sweep_body_run update settings net b p w net1 s1 r Eu Er)).
    match goal with
    | |- context [for_each _ (?n2, ?b2) batch ?w2] =>
        specialize (IH n2 b2 w2)
    end.
    cbn [pf] in IH.
    destruct (solve_in_turn update _ s1 batch) as [[tr s']|e];
      cbn [mbind result_bind mret result_ret].
    + destruct IH as (Hfst & net' & E).
      split; [cbn; rewrite Hfst; reflexivity|].
      exists net'. rewrite E. cbn [rng clock ticks stdout].
      destruct r as [res|]; [destruct (limits_hold settings res) eqn:El|];
        cbn [converged failed omap list_omap fst snd List.filter fmap
             list_fmap append_flexible append_non_flexible
             x_flexible y_flexible x_non_flexible y_non_flexible
             prof_flexible prof_non_flexible negb];
        rewrite ?El; cbn [negb list_fmap fst snd];
        rewrite <- ?app_assoc; reflexivity.
    + exact IH.
Qed.

(** A whole sweep, for any update that accepts the profiles of the batch
    and any closing prints. *)
Lemma sweep_run_refines update settings net0 (P : profile -> Prop)
    (tail : buckets -> float -> float -> M (buckets * float))
    (closing : buckets -> float -> list event) :
  (forall net p, length (sgen net) = length (sgen net0) -> P p ->
     exists net', update net p = Ok net'
                  /\ length (sgen net') = length (sgen net0)) ->
  (forall b t0 t1 w2,
     tail b t0 t1 w2
     = (Ok (b, (t1 - t0)%float),
        mk_world (rng w2) (clock w2) (ticks w2)
                 (stdout w2 ++ closing b (t1 - t0)%float) (pf w2))) ->
  (forall b d, skipped_count (closing b d) = 0) ->
  forall batch net w,
  length (sgen net) = length (sgen net0) -> Forall P batch ->
  exists tr b dur w',
    solve_in_turn update net (pf w) batch = Ok (tr, pf w')
    /\ fst <$> tr = batch
    /\ (t0 ← time_time;
        '(_, b) ← for_each (sweep_body update settings) (net, no_buckets)
                           batch;
        t1 ← time_time; tail b t0 t1) w = (Ok (b, dur), w')
    /\ x_flexible b
       = (fun e => res_ext_grid_p_mw (snd e))
         <$> List.filter (fun e => limits_hold settings (snd e)) (converged tr)
    /\ y_flexible b
       = (fun e => res_ext_grid_q_mvar (snd e))
         <$> List.filter (fun e => limits_hold settings (snd e)) (converged tr)
    /\ prof_flexible b
       = fst <$> List.filter (fun e => limits_hold settings (snd e))
                             (converged tr)
    /\ x_non_flexible b
       = (fun e => res_ext_grid_p_mw (snd e))
         <$> List.filter (fun e => negb (limits_hold settings (snd e)))
                         (converged tr)
    /\ y_non_flexible b
       = (fun e => res_ext_grid_q_mvar (snd e))
         <$> List.filter (fun e => negb (limits_hold settings (snd e)))
                         (converged tr)
    /\ prof_non_flexible b
       = fst <$> List.filter (fun e => negb (limits_hold settings (snd e)))
                             (converged tr)
    /\ stdout w'
       = stdout w ++ (PrintNotConverged <$> failed tr) ++ closing b dur
    /\ skipped_count (stdout w') = skipped_count (stdout w) + length (failed tr)
    /\ aligned b
    /\ length (prof_flexible b) + length (prof_non_flexible b)
       + skipped_count (stdout w') = length batch + skipped_count (stdout w).
Proof.
  intros Hupd Htail Hclosing batch net w Hnet Hall.
  set (w1 := mk_world (rng w) (clock w) (S (ticks w)) (stdout w) (pf w)).
  assert (A0 : aligned no_buckets) by (unfold aligned; simpl; auto).
  destruct (sweep_loop_accounts update settings net0 P Hupd batch net
              no_buckets w1 Hnet A0 Hall) as (n1 & b1 & w2 & E1 & _ & _).
  pose proof (sweep_loop_refines update settings batch net no_buckets w1) as R.
  cbn [pf w1] in R.
  destruct (solve_in_turn update net (pf w) batch) as [[tr s']|e].
  2:{ destruct R as (w3 & E3). rewrite E1 in E3. discriminate. }
  destruct R as (Hfst & net' & E). clear E1.
  cbn [no_buckets x_flexible y_flexible x_non_flexible y_non_flexible
       prof_flexible prof_non_flexible app] in E.
  eexists tr, _, _, _. split; [|split; [exact Hfst|split]].
  2:{ subst w1. rewrite (sweep_epilogue_run _ _ _ _ _ _ E), Htail.
      reflexivity. }
  { reflexivity. }
  cbn [x_flexible y_flexible x_non_flexible y_non_flexible prof_flexible
       prof_non_flexible stdout rng clock ticks pf w1].
  repeat (split; [reflexivity|]).
  split; [rewrite <- app_assoc; reflexivity|].
  assert (Hs : skipped_count
                 ((stdout w ++ (PrintNotConverged <$> failed tr))
                  ++ closing
                       (mk_buckets
                          ((fun e => res_ext_grid_p_mw (snd e))
                           <$> List.filter
                                 (fun e => limits_hold settings (snd e))
                                 (converged tr))
                          ((fun e => res_ext_grid_q_mvar (snd e))
                           <$> List.filter
                                 (fun e => limits_hold settings (snd e))
                                 (converged tr))
                          ((fun e => res_ext_grid_p_mw (snd e))
                           <$> List.filter
                                 (fun e => negb (limits_hold settings (snd e)))
                                 (converged tr))
                          ((fun e => res_ext_grid_q_mvar (snd e))
                           <$> List.filter
                                 (fun e => negb (limits_hold settings (snd e)))
                                 (converged tr))
                          (fst <$> List.filter
                                     (fun e => limits_hold settings (snd e))
                                     (converged tr))
                          (fst <$> List.filter
                                     (fun e =>
                                        negb (limits_hold settings (snd e)))
                                     (converged tr)))
                       (clock w (S (ticks w)) - clock w (ticks w))%float)
               = skipped_count (stdout w) + length (failed tr)).
  { rewrite !skipped_count_app, skipped_count_not_converged, Hclosing. lia. }
  split; [exact Hs|].
  split; [unfold aligned; cbn; rewrite !length_fmap; auto|].
  rewrite Hs, !length_fmap.
  pose proof (filter_split_length
                (fun e : profile * pf_result => limits_hold settings (snd e))
                (converged tr)) as H1.
  pose proof (converged_failed_length tr) as H2.
  assert (H3 : length tr = length batch)
    by (rewrite <- Hfst, length_fmap; reflexivity).
  lia.
Qed.

(** C5: an iteration whose solve fails reports the profile, leaves the six
    lists as they are and hands the network on to the next iteration.  A
    sweep over a batch whose profiles fit the network returns, whatever the
    solver answers at each call; it has written and solved each profile of
    the batch once and in turn ([solve_in_turn]); the P, the Q and the
    profile at one position of the feasible lists belong to one solve that
    converged within the limits, those of the infeasible lists to one that
    converged outside them, each in the order of the batch; the solves that
    failed are the lines printed as not converged, followed by the closing
    lines of the sweep; and the feasible points, the infeasible points and
    the failed solves add up to the length of the batch.  This holds for
    [run_all_samples] (profiles no longer than the generator table) and
    for [run_all_samples_wl] (profiles no longer than the generators plus
    the flexible loads). *)
Theorem sweep_accounts_for_every_profile
    (settings : SettingReader) (net : network) (batch : list profile)
    (w : World) :
  (forall update net1 b profile s,
     update net profile = Ok net1 ->
     runpp (pf w) net1 = (s, None) ->
     sweep_body update settings (net, b) profile w
     = (Ok (net1, b),
        mk_world (rng w) (clock w) (ticks w)
                 (stdout w ++ [PrintNotConverged profile]) s))
  /\
  (Forall (fun p => length p <= length (sgen net)) batch ->
   exists tr b dur w',
     solve_in_turn
       (fun net profile =>
          update_pqs net (fsp_wt settings) (fsp_pv settings) (Some profile)
                     1 1)
       net (pf w) batch = Ok (tr, pf w')
     /\ fst <$> tr = batch
     /\ run_all_samples settings net batch w = (Ok (b, dur), w')
     /\ x_flexible b
        = (fun e => res_ext_grid_p_mw (snd e))
          <$> List.filter (fun e => limits_hold settings (snd e))
                          (converged tr)
     /\ y_flexible b
        = (fun e => res_ext_grid_q_mvar (snd e))
          <$> List.filter (fun e => limits_hold settings (snd e))
                          (converged tr)
     /\ prof_flexible b
        = fst <$> List.filter (fun e => limits_hold settings (snd e))
                              (converged tr)
     /\ x_non_flexible b
        = (fun e => res_ext_grid_p_mw (snd e))
          <$> List.filter (fun e => negb (limits_hold settings (snd e)))
                          (converged tr)
     /\ y_non_flexible b
        = (fun e => res_ext_grid_q_mvar (snd e))
          <$> List.filter (fun e => negb (limits_hold settings (snd e)))
                          (converged tr)
     /\ prof_non_flexible b
        = fst <$> List.filter (fun e => negb (limits_hold settings (snd e)))
                              (converged tr)
     /\ stdout w'
        = stdout w ++ (PrintNotConverged <$> failed tr)
          ++ [PrintPowerFlows (no_samples settings) dur;
              PrintPfRun (length (y_flexible b) + length (y_non_flexible b))]
     /\ skipped_count (stdout w')
        = skipped_count (stdout w) + length (failed tr)
     /\ aligned b
     /\ length (prof_flexible b) + length (prof_non_flexible b)
        + skipped_count (stdout w') = length batch + skipped_count (stdout w))
  /\
  (Forall (fun p => length p <= length (sgen net) + length (fsp_load settings))
          batch ->
   exists tr b dur w',
     solve_in_turn
       (fun net profile =>
          update_pqs_wl net (fsp_wt settings) (fsp_pv settings) (Some profile)
                        1 1 (fsp_load settings))
       net (pf w) batch = Ok (tr, pf w')
     /\ fst <$> tr = batch
     /\ run_all_samples_wl settings net batch w = (Ok (b, dur), w')
     /\ x_flexible b
        = (fun e => res_ext_grid_p_mw (snd e))
          <$> List.filter (fun e => limits_hold settings (snd e))
                          (converged tr)
     /\ y_flexible b
        = (fun e => res_ext_grid_q_mvar (snd e))
          <$> List.filter (fun e => limits_hold settings (snd e))
                          (converged tr)
     /\ prof_flexible b
        = fst <$> List.filter (fun e => limits_hold settings (snd e))
                              (converged tr)
     /\ x_non_flexible b
        = (fun e => res_ext_grid_p_mw (snd e))
          <$> List.filter (fun e => negb (limits_hold settings (snd e)))
                          (converged tr)
     /\ y_non_flexible b
        = (fun e => res_ext_grid_q_mvar (snd e))
          <$> List.filter (fun e => negb (limits_hold settings (snd e)))
                          (converged tr)
     /\ prof_non_flexible b
        = fst <$> List.filter (fun e => negb (limits_hold settings (snd e)))
                              (converged tr)
     /\ stdout w'
        = stdout w ++ (PrintNotConverged <$> failed tr)
          ++ [PrintFlexNonFlex (length (x_flexible b))
                               (length (x_non_flexible b));
              PrintPowerFlows (no_samples settings) dur]
     /\ skipped_count (stdout w')
        = skipped_count (stdout w) + length (failed tr)
     /\ aligned b
     /\ length (prof_flexible b) + length (prof_non_flexible b)
        + skipped_count (stdout w') = length batch + skipped_count (stdout w)).
Proof.
  split.
  { intros update net1 b profile s Hupd Hrun.
    unfold sweep_body. cbv [mbind M_bind lift pp_runpp].
    rewrite Hupd, Hrun. reflexivity. }
  split; intros Hall.
  - unfold run_all_samples.
    apply (sweep_run_refines
             (fun net profile =>
                update_pqs net (fsp_wt settings) (fsp_pv settings)
                           (Some profile) 1 1)
             settings net
             (fun p => length p <= length (sgen net))
             (fun b t0 t1 =>
                _ ← print (PrintPowerFlows (no_samples settings)
                             (t1 - t0)%float);
                _ ← print (PrintPfRun (length (y_flexible b)
                                       + length (y_non_flexible b)));
                mret (b, (t1 - t0)%float))
             (fun b d =>
                [PrintPowerFlows (no_samples settings) d;
                 PrintPfRun (length (y_flexible b)
                             + length (y_non_flexible b))]));
      auto.
    + intros n1 p L Hp. rewrite <- L in Hp.
      destruct (update_pqs_Ok n1 (fsp_wt settings) (fsp_pv settings) p 1 1 Hp)
        as (n2 & -> & L2). eexists. split; [reflexivity|]. congruence.
    + intros b t0 t1 w2. cbv [mbind M_bind print mret M_ret]. simpl.
      rewrite <- app_assoc. reflexivity.
  - unfold run_all_samples_wl.
    apply (sweep_run_refines
             (fun net profile =>
                update_pqs_wl net (fsp_wt settings) (fsp_pv settings)
                              (Some profile) 1 1 (fsp_load settings))
             settings net
             (fun p => length p <= length (sgen net)
                                   + length (fsp_load settings))
             (fun b t0 t1 =>
                _ ← print (PrintFlexNonFlex (length (x_flexible b))
                                            (length (x_non_flexible b)));
                _ ← print (PrintPowerFlows (no_samples settings)
                             (t1 - t0)%float);
                mret (b, (t1 - t0)%float))
             (fun b d =>
                [PrintFlexNonFlex (length (x_flexible b))
                                  (length (x_non_flexible b));
                 PrintPowerFlows (no_samples settings) d]));
      auto.
    + intros n1 p L Hp. rewrite <- L in Hp.
      destruct (update_pqs_wl_Ok n1 (fsp_wt settings) (fsp_pv settings) p 1 1
                  (fsp_load settings) Hp)
        as (n2 & -> & L2). eexists. split; [reflexivity|]. congruence.
    + intros b t0 t1 w2. cbv [mbind M_bind print mret M_ret]. simpl.
      rewrite <- app_assoc. reflexivity.
Qed.

End SweepCompleteness.

(** ** Sign alternation of the power-factor preserving projection *)

Section SignAlternation.

Lemma sample_new_point_entry sgen (random_p : array2) n profs j i :
  sample_new_point sgen random_p n = Ok profs ->
  j < n -> i < length sgen ->
  exists pj e, profs !! j = Some pj /\ pj !! i = Some e
               /\ new_point sgen random_p j i = Ok e.
Proof.
  intros H Hj Hi. unfold sample_new_point in H.
  destruct (mapM_result_lookup _ _ _ j j H) as (pj & Hpj & Hin).
  { rewrite lookup_seq_lt by assumption. reflexivity. }
  destruct (mapM_result_lookup _ _ _ i i Hin) as (e & He & Hnew).
  { rewrite lookup_seq_lt by assumption. reflexivity. }
  eauto.
Qed.

Lemma sample_new_point_total sgen (random_p : array2) n :
  has_columns 1 (n * length sgen) random_p ->
  exists profs, sample_new_point sgen random_p n = Ok profs.
Proof.
  intros Hraw. unfold sample_new_point.
  apply mapM_result_total, Forall_seq. intros j Hj.
  apply mapM_result_total, Forall_seq. intros i Hi.
  destruct (Hraw (length sgen * j + i)) as (row & Hrow & Hlen); [nia|].
  destruct (lookup_lt_is_Some_2 row 0) as [x Hx]; [lia|].
  destruct (lookup_lt_is_Some_2 sgen i) as [g Hg]; [lia|].
  unfold new_point, index, loc. rewrite Hrow. cbn [mbind result_bind].
  rewrite Hx, Hg. eexists. reflexivity.
Qed.

Lemma new_point_value sgen (random_p : array2) j i g row x :
  sgen !! i = Some g ->
  random_p !! (length sgen * j + i) = Some row -> row !! 0 = Some x ->
  new_point sgen random_p j i
  = Ok ((sn_mva g * x)%float,
        (F64.neg1_pow j
         * sqrt (F64.pow2 (sn_mva g) - F64.pow2 (sn_mva g * x)))%float).
Proof.
  intros Hg Hrow Hx. unfold new_point, index, loc.
  rewrite Hrow. cbn [mbind result_bind]. rewrite Hx, Hg. reflexivity.
Qed.

(** X28: in [sample_new_point], run on a raw array with a row for every
    entry, an FSP that gets the same raw value [x] in two consecutive
    iterations [j] and [j + 1] has the same active power [p = sn_mva * x]
    in both; with [root = sqrt(sn_mva^2 - p^2)], its reactive power is
    [root] in the even one of the two iterations and [- root] in the odd
    one.  When [root] is
    a number, the two reactive powers compare as negations of each other
    and as equal in magnitude, and one is positive exactly when the other
    is negative.  When [root] is not a number (the difference under the
    square root is negative), both reactive powers are [NaN], and neither
    comparison holds. *)
Theorem sample_new_point_sign_alternates
    (sgen : list unit_row) (random_p : array2) (no_samples : nat)
    (j i : nat) (g : unit_row) (row row' : list float) (x : float) :
  has_columns 1 (no_samples * length sgen) random_p ->
  S j < no_samples ->
  sgen !! i = Some g ->
  random_p !! (length sgen * j + i) = Some row -> row !! 0 = Some x ->
  random_p !! (length sgen * S j + i) = Some row' -> row' !! 0 = Some x ->
  exists profs pj pj' p root q q',
    sample_new_point sgen random_p no_samples = Ok profs
    /\ profs !! j = Some pj /\ pj !! i = Some (p, q)
    /\ profs !! S j = Some pj' /\ pj' !! i = Some (p, q')
    /\ p = (sn_mva g * x)%float
    /\ root = sqrt (F64.pow2 (sn_mva g) - F64.pow2 p)%float
    /\ q = (if Nat.even j then root else (- root)%float)
    /\ q' = (if Nat.even j then (- root)%float else root)
    /\ (F64.isnan root = false ->
        (q' =? - q)%float = true
        /\ (abs q' =? abs q)%float = true
        /\ (0 <? q)%float = (q' <? 0)%float
        /\ (q <? 0)%float = (0 <? q')%float)
    /\ (F64.isnan root = true ->
        F64.isnan q = true /\ F64.isnan q' = true
        /\ (q' =? - q)%float = false
        /\ (abs q' =? abs q)%float = false).
Proof.
  intros Hraw Hj Hg Hrow Hx Hrow' Hx'.
  destruct (sample_new_point_total _ _ _ Hraw) as (profs & H).
  assert (Hi : i < length sgen) by (eapply lookup_lt_Some; eassumption).
  destruct (sample_new_point_entry _ _ _ _ j i H) as (pj & e & Hpj & He & E);
    [lia | assumption |].
  destruct (sample_new_point_entry _ _ _ _ (S j) i H)
    as (pj' & e' & Hpj' & He' & E'); [lia | assumption |].
  rewrite (new_point_value _ _ _ _ g row x) in E by assumption.
  rewrite (new_point_value _ _ _ _ g row' x) in E' by assumption.
  rewrite F64Facts.neg1_pow_mul in E, E'.
  rewrite Nat.even_succ, <- Nat.negb_even in E'.
  injection E as <-. injection E' as <-.
  set (root := sqrt (F64.pow2 (sn_mva g) - F64.pow2 (sn_mva g * x))%float)
    in *.
  exists profs, pj, pj', (sn_mva g * x)%float, root.
  eexists _, _.
  split; [exact H|]. split; [exact Hpj|]. split; [exact He|].
  split; [exact Hpj'|]. split; [exact He'|].
  split; [reflexivity|]. split; [reflexivity|].
  split; [reflexivity|].
  split; [destruct (Nat.even j); reflexivity|].
  split.
  - intros Hnum.
    assert (Hopp : F64.isnan (- root) = false)
      by (rewrite F64Facts.isnan_opp; exact Hnum).
    assert (Habs : F64.isnan (abs root) = false)
      by (rewrite F64Facts.isnan_abs; exact Hnum).
    destruct (Nat.even j); cbn [negb];
      rewrite ?F64Facts.opp_involutive, ?F64Facts.abs_opp,
              ?F64Facts.ltb_zero_opp, ?F64Facts.ltb_opp_zero;
      repeat split; auto using F64Facts.eqb_refl_number.
  - intros Hnan. apply F64Facts.isnan_spec in Hnan. rewrite Hnan.
    destruct (Nat.even j); cbn [negb]; repeat split; reflexivity.
Qed.

End SignAlternation.

(** ** A reactive-power budget that is not a number *)

Section NanBudget.
Context `{Gen : Generator} `{Pf : Solver}.

Lemma print_Ok e w u w' :
  print e w = (Ok u, w') -> stdout w' = stdout w ++ [e].
Proof. unfold print. intros [= _ <-]. reflexivity. Qed.

Lemma new_load_point_appends loads (random_p : array2) report k i w y w1 :
  new_load_point loads random_p report k i w = (Ok y, w1) ->
  exists out, stdout w1 = stdout w ++ out.
Proof.
  unfold new_load_point. intros H. inv_M.
  destruct (report && _).
  - apply print_Ok in Ha2. eauto.
  - inv_M. exists []. rewrite app_nil_r. reflexivity.
Qed.

Lemma mapM_appends {A B} (f : A -> M B) l :
  (forall x w y w1, f x w = (Ok y, w1) ->
     exists out, stdout w1 = stdout w ++ out) ->
  forall w r w', mapM f l w = (Ok r, w') ->
  exists out, stdout w' = stdout w ++ out.
Proof.
  intros Hmono. induction l as [|x l IH]; intros w r w' H; simpl in H.
  - apply M_ret_Ok in H as [-> ->]. exists []. rewrite app_nil_r. reflexivity.
  - apply M_bind_Ok in H as (y0 & w0 & Hy0 & H).
    apply M_bind_Ok in H as (ys & w2 & Hys & H).
    apply M_ret_Ok in H as [-> ->].
    destruct (Hmono _ _ _ _ Hy0) as (o1 & E1).
    destruct (IH _ _ _ Hys) as (o2 & E2).
    exists (o1 ++ o2). rewrite E2, E1, app_assoc. reflexivity.
Qed.

(** What a run of [mapM] did for its [k]-th element, when every element
    only appends to standard output. *)
Lemma mapM_M_lookup {A B} (f : A -> M B) l :
  (forall x w y w1, f x w = (Ok y, w1) ->
     exists out, stdout w1 = stdout w ++ out) ->
  forall w r w' k x,
  mapM f l w = (Ok r, w') -> l !! k = Some x ->
  exists y wa wb pre post,
    r !! k = Some y /\ f x wa = (Ok y, wb)
    /\ stdout wa = stdout w ++ pre /\ stdout w' = stdout wb ++ post.
Proof.
  intros Hmono. induction l as [|x0 l IH]; intros w r w' k x H Hk;
    [discriminate|].
  simpl in H.
  apply M_bind_Ok in H as (y0 & w0 & Hy0 & H).
  apply M_bind_Ok in H as (ys & w2 & Hys & H).
  apply M_ret_Ok in H as [-> ->].
  destruct k as [|k]; simpl in Hk.
  - injection Hk as ->.
    destruct (mapM_appends f l Hmono _ _ _ Hys) as (post & Hpost).
    exists y0, w, w0, [], post. rewrite app_nil_r. auto.
  - destruct (IH _ _ _ _ _ Hys Hk)
      as (y & wa & wb & pre & post & ? & ? & E1 & E2).
    destruct (Hmono _ _ _ _ Hy0) as (o1 & Eo).
    exists y, wa, wb, (o1 ++ pre), post. simpl.
    rewrite E1, Eo, app_assoc. auto.
Qed.

Lemma mapM_M_total {A B} (f : A -> M B) l :
  Forall (fun x => forall w, exists y w1, f x w = (Ok y, w1)) l ->
  forall w, exists r w', mapM f l w = (Ok r, w').
Proof.
  induction 1 as [|x l Hx _ IH]; intros w.
  - eexists _, _. reflexivity.
  - destruct (Hx w) as (y & w1 & Ey). destruct (IH w1) as (r & w2 & Er).
    change (mapM f (x :: l)) with (y ← f x; k ← mapM f l; mret (y :: k)).
    rewrite (M_bind_run _ _ _ _ _ Ey), (M_bind_run _ _ _ _ _ Er).
    eexists _, _. reflexivity.
Qed.

Lemma new_load_point_total loads (random_p : array2) report k i l row :
  loads !! i = Some l -> random_p !! k = Some row -> 2 <= length row ->
  forall w, exists y w1,
    new_load_point loads random_p report k i w = (Ok y, w1).
Proof.
  intros Hl Hrow Hlen w.
  destruct (lookup_lt_is_Some_2 row 0) as [x0 Hx0]; [lia|].
  destruct (lookup_lt_is_Some_2 row 1) as [x1 Hx1]; [lia|].
  unfold new_load_point, index, loc. cbv [mbind M_bind lift].
  rewrite Hrow, Hx0, Hl.
  destruct (report && _); cbv [print mret M_ret]; rewrite Hx1;
    eexists _, _; reflexivity.
Qed.

Lemma sample_new_load_point_total loads (random_p : array2) n i0 fl :
  has_columns 2 (n * length (i0 :: fl)) random_p ->
  Forall (fun i => i < length loads) (i0 :: fl) ->
  forall w, exists profs w',
    sample_new_load_point loads random_p n (i0 :: fl) w = (Ok profs, w').
Proof.
  intros Hraw Hfl. unfold sample_new_load_point.
  set (flex := i0 :: fl) in *.
  apply mapM_M_total, Forall_seq. intros j Hj.
  apply mapM_M_total, Forall_lookup. intros idx [idx' i] Hidx.
  rewrite list_lookup_imap in Hidx.
  destruct (flex !! idx) as [i'|] eqn:Ei; [|discriminate].
  injection Hidx as <- <-.
  assert (Hlt : idx < length flex) by (eapply lookup_lt_Some; eassumption).
  destruct (Hraw (length flex * j + idx)) as (row & Hrow & Hlen); [nia|].
  destruct (lookup_lt_is_Some_2 loads i') as [l Hl].
  { eapply (proj1 (Forall_lookup _ _) Hfl); eassumption. }
  eapply new_load_point_total; eassumption.
Qed.

(** The entry computed for a load whose budget is not a number, in the
    branch that tests for it. *)
Lemma new_load_point_nan loads (random_p : array2) k i w y w1 l row x :
  new_load_point loads random_p true k i w = (Ok y, w1) ->
  loads !! i = Some l -> random_p !! k = Some row -> row !! 0 = Some x ->
  let p_new :=
    (load_change * (if F64.geb x 1 then p_mw l
                    else if (x <=? 0)%float then 0%float
                    else (p_mw l * x)%float))%float in
  F64.isnan (sqrt (load_change * load_change * F64.pow2 (sn_mva l)
                   - F64.pow2 p_new)%float) = true ->
  y = (p_new, nan)
  /\ stdout w1 = stdout w ++ [PrintNaN (sn_mva l) p_new i].
Proof.
  intros H Hl Hrow Hx p_new Hnan. unfold new_load_point in H. inv_M.
  apply index_Ok in Ha, Ha0. apply loc_Ok in Ha1.
  rewrite Hrow in Ha. injection Ha as <-.
  rewrite Hx in Ha0. injection Ha0 as <-.
  rewrite Hl in Ha1. injection Ha1 as <-.
  fold p_new in Ha2 |- *. rewrite Hnan in Ha2. cbn [andb] in Ha2.
  apply print_Ok in Ha2.
  apply F64Facts.isnan_spec in Hnan. rewrite Hnan.
  unfold F64.geb. rewrite F64Facts.leb_nan_r.
  split; [reflexivity | exact Ha2].
Qed.

(** C7, as the code has it: in the branch of [sample_new_load_point] for
    an explicit list of flexible loads (all of them in the load table, the
    raw array large enough), the call returns, and a budget [q_max] that is
    not a number is reported on standard output (rated power, active power
    and load index) while the sample is produced all the same: the
    comparison with [q_max] is false, and the entry carries
    [q_new = NaN]. *)
Theorem sample_new_load_point_reports_nan
    (loads : list unit_row) (random_p : array2) (no_samples : nat)
    (flex_loads : list nat) (w : World)
    (j idx i : nat) (l : unit_row) (row : list float) (x : float) :
  has_columns 2 (no_samples * length flex_loads) random_p ->
  Forall (fun i => i < length loads) flex_loads ->
  j < no_samples ->
  flex_loads !! idx = Some i ->
  loads !! i = Some l ->
  random_p !! (length flex_loads * j + idx) = Some row -> row !! 0 = Some x ->
  let p_new :=
    (load_change * (if F64.geb x 1 then p_mw l
                    else if (x <=? 0)%float then 0%float
                    else (p_mw l * x)%float))%float in
  F64.isnan (sqrt (load_change * load_change * F64.pow2 (sn_mva l)
                   - F64.pow2 p_new)%float) = true ->
  exists profs w' pj pre post,
    sample_new_load_point loads random_p no_samples flex_loads w
      = (Ok profs, w')
    /\ profs !! j = Some pj /\ pj !! idx = Some (p_new, nan)
    /\ stdout w' = stdout w ++ pre ++ [PrintNaN (sn_mva l) p_new i] ++ post.
Proof.
  intros Hraw Hfl Hj Hidx Hl Hrow Hx p_new Hnan.
  destruct flex_loads as [|i0 fl]; [discriminate|].
  destruct (sample_new_load_point_total loads random_p no_samples i0 fl
              Hraw Hfl w) as (profs & w' & H).
  exists profs, w'. rewrite H.
  unfold sample_new_load_point in H.
  set (flex := i0 :: fl) in *.
  set (inner k := mapM (fun '(idx, i) =>
                    new_load_point loads random_p true
                      (length flex * k + idx) i)
                  (imap (fun idx i => (idx, i)) flex)) in *.
  assert (Hin : forall k w y w1, inner k w = (Ok y, w1) ->
                  exists out, stdout w1 = stdout w ++ out).
  { intros k w0 y w1. apply mapM_appends.
    intros [idx0 i1] ? ? ?. apply new_load_point_appends. }
  destruct (mapM_M_lookup inner (seq 0 no_samples) Hin w profs w' j j H)
    as (pj & wa & wb & pre & post & Hpj & Ej & Ea & Eb).
  { rewrite lookup_seq_lt by assumption. reflexivity. }
  unfold inner in Ej.
  eapply mapM_M_lookup with (k := idx) (x := (idx, i)) in Ej
    as (e & wc & wd & pre' & post' & He & Ee & Ec & Ed).
  2: { intros [idx0 i1] ? ? ?. apply new_load_point_appends. }
  2: { rewrite list_lookup_imap, Hidx. reflexivity. }
  destruct (new_load_point_nan _ _ _ _ _ _ _ l row x Ee Hl Hrow Hx Hnan)
    as [-> Eout].
  exists pj, (pre ++ pre'), (post' ++ post).
  repeat split; try assumption.
  rewrite Eb, Ed, Eout, Ec, Ea. rewrite <- !app_assoc. reflexivity.
Qed.

End NanBudget.

(** ** Determinism of the sampler *)

Section Determinism.
Context `{Gen : Generator} `{Pf : Solver}.

Lemma so_ret {A} (R : A -> A -> Prop) a1 a2 :
  R a1 a2 -> same_outcome R (mret a1) (mret a2).
Proof. intros HR w1 w2 E. simpl. auto. Qed.

Lemma so_bind {A B} (R : A -> A -> Prop) (R' : B -> B -> Prop)
    (m1 m2 : M A) (k1 k2 : A -> M B) :
  same_outcome R m1 m2 ->
  (forall a1 a2, R a1 a2 -> same_outcome R' (k1 a1) (k2 a2)) ->
  same_outcome R' (m1 ≫= k1) (m2 ≫= k2).
Proof.
  intros Hm Hk w1 w2 E. specialize (Hm w1 w2 E). cbv [mbind M_bind].
  destruct (m1 w1) as [[a1|e1] w1'], (m2 w2) as [[a2|e2] w2'];
    try contradiction; [|assumption].
  destruct Hm as [HR E']. exact (Hk a1 a2 HR w1' w2' E').
Qed.

Lemma so_lift {A} (r : result A) : same_outcome eq (lift r) (lift r).
Proof. intros w1 w2 E. unfold lift. destruct r; auto. Qed.

Lemma so_raise {A} (R : A -> A -> Prop) e :
  same_outcome R (raise e) (raise e).
Proof. intros w1 w2 E. reflexivity. Qed.

Lemma so_time : same_outcome (fun _ _ => True) time_time time_time.
Proof. intros w1 w2 E. simpl. auto. Qed.

Lemma so_print e1 e2 : same_outcome (fun _ _ => True) (print e1) (print e2).
Proof. intros w1 w2 E. simpl. auto. Qed.

Lemma so_rng_fill2 draw rows cols :
  same_outcome eq (rng_fill2 draw rows cols) (rng_fill2 draw rows cols).
Proof.
  intros w1 w2 E. unfold rng_fill2. rewrite E.
  destruct (fill2 draw rows cols (rng w2)). simpl. auto.
Qed.

Lemma so_mapM {A B} (f : A -> M B) l :
  (forall x, same_outcome eq (f x) (f x)) ->
  same_outcome eq (mapM f l) (mapM f l).
Proof.
  intros Hf. induction l as [|x l IH]; simpl.
  - apply so_ret. reflexivity.
  - eapply so_bind; [apply Hf|]. intros y ? <-.
    eapply so_bind; [apply IH|]. intros ys ? <-.
    apply so_ret. reflexivity.
Qed.

Ltac so_eq_step lem :=
  eapply so_bind; [apply lem | intros ? ? <-].

Lemma so_sample_from_rng d n dof :
  same_outcome eq (sample_from_rng d n dof) (sample_from_rng d n dof).
Proof.
  unfold sample_from_rng, rng_normal, rng_uniform.
  repeat match goal with
  | |- same_outcome _ (if ?c then _ else _) _ => destruct c
  end;
  repeat first
    [ apply so_rng_fill2
    | apply so_raise
    | apply so_ret; reflexivity
    | so_eq_step so_rng_fill2 ].
Qed.

Lemma so_new_load_point loads (random_p : array2) report k i :
  same_outcome eq (new_load_point loads random_p report k i)
                  (new_load_point loads random_p report k i).
Proof.
  unfold new_load_point.
  so_eq_step (so_lift (A := list float)).
  so_eq_step (so_lift (A := float)).
  so_eq_step (so_lift (A := unit_row)).
  eapply so_bind.
  { destruct (report && _); [apply so_print | apply so_ret; exact I]. }
  intros _ _ _.
  so_eq_step (so_lift (A := float)).
  apply so_ret. reflexivity.
Qed.

Lemma so_sample_new_load_point loads (random_p : array2) n fl :
  same_outcome eq (sample_new_load_point loads random_p n fl)
                  (sample_new_load_point loads random_p n fl).
Proof.
  unfold sample_new_load_point. destruct fl.
  - apply so_mapM. intros j. apply so_mapM. intros i.
    apply so_new_load_point.
  - apply so_mapM. intros j. apply so_mapM. intros [idx i].
    apply so_new_load_point.
Qed.

(** The relation between the results of two sampling calls: the profiles
    are the same, the durations need not be. *)
Lemma so_create_samples n net d k :
  same_outcome (fun a b => fst a = fst b)
    (create_samples n net d k) (create_samples n net d k).
Proof.
  unfold create_samples.
  eapply so_bind; [apply so_time | intros t0 t0' _].
  eapply so_bind with (R := eq).
  { destruct k; (so_eq_step so_sample_from_rng; apply so_lift). }
  intros p ? <-.
  eapply so_bind; [apply so_time | intros t1 t1' _].
  eapply so_bind; [apply so_print | intros _ _ _].
  apply so_ret. reflexivity.
Qed.

Lemma so_create_load_samples n net d fl :
  same_outcome (fun a b => fst a = fst b)
    (create_load_samples n net d fl) (create_load_samples n net d fl).
Proof.
  unfold create_load_samples.
  eapply so_bind; [apply so_time | intros t0 t0' _].
  so_eq_step so_sample_from_rng.
  so_eq_step so_sample_new_load_point.
  eapply so_bind; [apply so_time | intros t1 t1' _].
  eapply so_bind; [apply so_print | intros _ _ _].
  apply so_ret. reflexivity.
Qed.

Ltac so_pair_step lem :=
  eapply so_bind; [apply lem | intros [? ?] [? ?] Efst; simpl in Efst; subst].

Lemma bind_RandomState_init {A} (s : Z) (k : unit -> M A) w :
  (RandomState_init s ≫= k) w
  = k tt (mk_world (RandomState_seed s) (clock w) (ticks w) (stdout w) (pf w)).
Proof. reflexivity. Qed.

Lemma same_outcome_batch (m1 m2 : M (list profile * float)) w1 w2 :
  same_outcome (fun a b => fst a = fst b) m1 m2 ->
  rng w1 = rng w2 ->
  batch_of (fst (m1 w1)) = batch_of (fst (m2 w2)).
Proof.
  intros Hm E. specialize (Hm w1 w2 E).
  destruct (m1 w1) as [[[p1 d1]|e1] w1'], (m2 w2) as [[[p2 d2]|e2] w2'];
    simpl in *; try contradiction; [|congruence].
  destruct Hm as [-> _]. reflexivity.
Qed.

(** C8: the batch that [profile_creation] returns (or the exception it
    raises) is a function of its arguments alone: two runs on the same
    arguments agree on it whatever the worlds they start in, i.e. whatever
    the earlier state of the generator, the readings of the clock, the
    output so far and the state of the solver.  Only the reported duration
    may differ. *)
Theorem profile_creation_deterministic
    (no_samples : nat) (net : network) (distribution : string)
    (keep_mp : bool) (services : string) (flexible_loads : list nat)
    (w1 w2 : World) :
  batch_of (fst (profile_creation no_samples net distribution keep_mp
                   services flexible_loads w1))
  = batch_of (fst (profile_creation no_samples net distribution keep_mp
                     services flexible_loads w2)).
Proof.
  unfold profile_creation. rewrite !bind_RandomState_init.
  apply same_outcome_batch; [|reflexivity].
  repeat match goal with
  | |- same_outcome _ (if ?c then _ else _) _ => destruct c
  end.
  - apply so_create_samples.
  - so_pair_step so_create_samples.
    so_pair_step so_create_load_samples.
    so_eq_step (so_lift (A := list profile)).
    so_pair_step so_create_samples.
    so_eq_step (so_lift (A := list profile)).
    so_eq_step (so_lift (A := list profile)).
    so_pair_step so_create_load_samples.
    so_eq_step (so_lift (A := list profile)).
    so_eq_step (so_lift (A := list profile)).
    apply so_ret. reflexivity.
  - so_pair_step so_create_samples.
    so_pair_step so_create_load_samples.
    so_eq_step (so_lift (A := list profile)).
    apply so_ret. reflexivity.
  - apply so_raise.
Qed.

End Determinism.

(** ** The sampler returns *)

Section SamplerReturns.
Context `{Gen : Generator} `{Pf : Solver}.

Lemma has_columns_intro c n (a : array2) :
  n <= length a -> Forall (fun r => c <= length r) a -> has_columns c n a.
Proof.
  intros Hn Hall k Hk.
  destruct (lookup_lt_is_Some_2 a k) as [row Hrow]; [lia|].
  exists row. split; [assumption|].
  exact (proj1 (Forall_lookup _ _) Hall k row Hrow).
Qed.

Lemma fill2_rows draw rows cols rs :
  Forall (fun r => length r = cols) (fst (fill2 draw rows cols rs)).
Proof.
  revert rs. induction rows as [|n IH]; intros rs; simpl; [constructor|].
  pose proof (fill_length draw cols rs) as Hr.
  destruct (fill draw cols rs) as [r rs1]. specialize (IH rs1).
  destruct (fill2 draw n cols rs1) as [a rs2]. simpl in *.
  constructor; assumption.
Qed.

Lemma rng_fill2_rows draw rows cols w :
  exists a w', rng_fill2 draw rows cols w = (Ok a, w')
               /\ length a = rows /\ Forall (fun r => length r = cols) a.
Proof.
  unfold rng_fill2.
  pose proof (fill2_length draw rows cols (rng w)) as Hl.
  pose proof (fill2_rows draw rows cols (rng w)) as Hr.
  destruct (fill2 draw rows cols (rng w)) as [a rs]. simpl in *.
  eexists _, _. auto.
Qed.

Lemma hstack_rows ca cb (a b : array2) :
  Forall (fun r => length r = ca) a -> Forall (fun r => length r = cb) b ->
  Forall (fun r => length r = ca + cb) (hstack a b).
Proof.
  intros Ha. revert b. induction Ha as [|r a Hr _ IH]; intros b Hb.
  - constructor.
  - destruct Hb as [|r' b Hr' Hb]; [constructor|].
    simpl. constructor; [rewrite length_app; lia | apply IH; assumption].
Qed.

Lemma sample_from_rng_columns d n dof w :
  valid_distribution d -> dof = 1 \/ dof = 2 ->
  exists a w', sample_from_rng d n dof w = (Ok a, w') /\ has_columns dof n a.
Proof.
  intros Hd Hdof. unfold sample_from_rng, rng_normal, rng_uniform.
  destruct Hd as [-> | [-> | [-> | ->]]];
    cbn [String.eqb Ascii.eqb Bool.eqb].
  - destruct (rng_fill2_rows
                (fun rs => let (z, rs') := legacy_gauss rs in
                           ((1 + F64.lit_0_02 * z)%float, rs')) n dof w)
      as (a & w' & -> & L & R).
    eexists _, _. split; [reflexivity|].
    apply has_columns_intro; [lia|].
    eapply Forall_impl; [exact R|]. simpl. intros; lia.
  - destruct (rng_fill2_rows
                (fun rs => let (u, rs') := random_sample rs in
                           ((0 + (1 - 0) * u)%float, rs')) n dof w)
      as (a & w' & -> & L & R).
    eexists _, _. split; [reflexivity|].
    apply has_columns_intro; [lia|].
    eapply Forall_impl; [exact R|]. simpl. intros; lia.
  - destruct Hdof as [-> | ->]; cbn [Nat.eqb].
    + destruct (rng_fill2_rows
                  (fun rs => let (z, rs') := legacy_gauss rs in
                             ((1 + 1 * z)%float, rs')) n 1 w)
        as (a & w' & -> & L & R).
      eexists _, _. split; [reflexivity|].
      apply has_columns_intro; [lia|].
      eapply Forall_impl; [exact R|]. simpl. intros; lia.
    + repeat match goal with
      | |- context [(rng_fill2 ?d ?r ?c ≫= ?k) ?w0] =>
          let a := fresh "a" in let w1 := fresh "w" in
          let E := fresh "E" in let L := fresh "L" in let R := fresh "R" in
          destruct (rng_fill2_rows d r c w0) as (a & w1 & E & L & R);
          rewrite (M_bind_run _ k _ _ _ E)
      end.
      eexists _, _. split; [reflexivity|].
      apply has_columns_intro.
      * rewrite !length_app, !hstack_length.
        pose proof (Nat.Div0.mul_div_le n 4). lia.
      * rewrite !Forall_app.
        repeat split;
          (eapply Forall_impl;
           [first [eassumption | apply (hstack_rows 1 1); eassumption]
           | simpl; intros; lia]).
  - eexists _, _. split; [reflexivity|].
    apply has_columns_intro; unfold np_ones.
    + rewrite length_replicate. lia.
    + apply Forall_replicate. rewrite length_replicate. lia.
Qed.

Lemma mapM_result_Forall {A B} (P : B -> Prop) (f : A -> result B) l r :
  (forall x y, f x = Ok y -> P y) -> mapM f l = Ok r -> Forall P r.
Proof.
  intros Hf. revert r. induction l as [|x l IH]; intros r H; simpl in H;
    inv_result; constructor; eauto.
Qed.

Lemma mapM_M_Forall {A B} (P : B -> Prop) (f : A -> M B) l :
  (forall x w y w1, f x w = (Ok y, w1) -> P y) ->
  forall w r w', mapM f l w = (Ok r, w') -> Forall P r.
Proof.
  intros Hf. induction l as [|x l IH]; intros w r w' H; simpl in H.
  - apply M_ret_Ok in H as [-> _]. constructor.
  - apply M_bind_Ok in H as (y0 & w0 & Hy0 & H).
    apply M_bind_Ok in H as (ys & w2 & Hys & H).
    apply M_ret_Ok in H as [-> _]. constructor; eauto.
Qed.

Lemma sample_new_non_mp_point_total sgen (random_p : array2) n :
  has_columns 2 (n * length sgen) random_p ->
  exists profs, sample_new_non_mp_point sgen random_p n = Ok profs.
Proof.
  intros Hraw. unfold sample_new_non_mp_point.
  apply mapM_result_total, Forall_seq. intros j Hj.
  apply mapM_result_total, Forall_seq. intros i Hi.
  destruct (Hraw (length sgen * j + i)) as (row & Hrow & Hlen); [nia|].
  destruct (lookup_lt_is_Some_2 row 0) as [x0 Hx0]; [lia|].
  destruct (lookup_lt_is_Some_2 row 1) as [x1 Hx1]; [lia|].
  destruct (lookup_lt_is_Some_2 sgen i) as [g Hg]; [lia|].
  unfold new_non_mp_point, index, loc. rewrite Hrow. cbn [mbind result_bind].
  rewrite Hx0, Hg, Hx1. eexists. reflexivity.
Qed.

(** The generator sampler returns [n] profiles with one entry per
    generator. *)
Lemma create_samples_returns n net d k w :
  valid_distribution d ->
  exists p dur w',
    create_samples n net d k w = (Ok (p, dur), w')
    /\ length p = n /\ Forall (fun r => length r = length (sgen net)) p.
Proof.
  intros Hd.
  assert (H : exists p dur w', create_samples n net d k w = (Ok (p, dur), w')).
  { unfold create_samples. cbv [mbind M_bind time_time]. destruct k.
    - destruct (sample_from_rng_columns d (n * length (sgen net)) 1
                  (mk_world (rng w) (clock w) (S (ticks w)) (stdout w) (pf w)) Hd)
        as (a & w1 & -> & Ha); [auto|].
      destruct (sample_new_point_total (sgen net) a n Ha) as (p & Hp).
      unfold lift. rewrite Hp. eexists _, _, _. reflexivity.
    - destruct (sample_from_rng_columns d (n * length (sgen net)) 2
                  (mk_world (rng w) (clock w) (S (ticks w)) (stdout w) (pf w)) Hd)
        as (a & w1 & -> & Ha); [auto|].
      destruct (sample_new_non_mp_point_total (sgen net) a n Ha) as (p & Hp).
      unfold lift. rewrite Hp. eexists _, _, _. reflexivity. }
  destruct H as (p & dur & w' & H). exists p, dur, w'.
  split; [exact H|]. split; [eapply create_samples_length; eassumption|].
  unfold create_samples in H. inv_M. injection H as <- _.
  destruct k; inv_M;
    (eapply mapM_result_Forall; [|eassumption]);
    intros j y Hy; apply mapM_result_length in Hy;
    rewrite Hy; apply length_seq.
Qed.

Lemma sample_new_load_point_all_total loads (random_p : array2) n :
  has_columns 2 (n * length loads) random_p ->
  forall w, exists profs w',
    sample_new_load_point loads random_p n [] w = (Ok profs, w').
Proof.
  intros Hraw. unfold sample_new_load_point.
  apply mapM_M_total, Forall_seq. intros j Hj.
  apply mapM_M_total, Forall_seq. intros i Hi.
  destruct (Hraw (length loads * j + i)) as (row & Hrow & Hlen); [nia|].
  destruct (lookup_lt_is_Some_2 loads i) as [l Hl]; [lia|].
  eapply new_load_point_total; eassumption.
Qed.

(** The load sampler returns [n] profiles with one entry per flexible
    load. *)
Lemma create_load_samples_returns n net d fl w :
  valid_distribution d -> Forall (fun i => i < length (load net)) fl ->
  exists p dur w',
    create_load_samples n net d fl w = (Ok (p, dur), w')
    /\ length p = n /\ Forall (fun r => length r = flex_load_len net fl) p.
Proof.
  intros Hd Hfl.
  assert (H : exists p dur w',
                create_load_samples n net d fl w = (Ok (p, dur), w')).
  { unfold create_load_samples. cbv [mbind M_bind time_time].
    fold (flex_load_len net fl).
    destruct (sample_from_rng_columns d (n * flex_load_len net fl) 2
                (mk_world (rng w) (clock w) (S (ticks w)) (stdout w) (pf w)) Hd)
      as (a & w1 & -> & Ha); [auto|].
    assert (Hs : exists p w2,
                   sample_new_load_point (load net) a n fl w1 = (Ok p, w2)).
    { destruct fl as [|i0 fl].
      - apply sample_new_load_point_all_total. exact Ha.
      - apply sample_new_load_point_total; assumption. }
    destruct Hs as (p & w2 & ->). eexists _, _, _. reflexivity. }
  destruct H as (p & dur & w' & H). exists p, dur, w'.
  split; [exact H|]. split; [eapply create_load_samples_length; eassumption|].
  unfold create_load_samples in H. inv_M. injection H as <- _.
  unfold sample_new_load_point in Ha1.
  destruct fl as [|i0 fl];
    (eapply mapM_M_Forall; [|eassumption]);
    intros j ? y ? Hy; apply mapM_M_length in Hy; rewrite Hy; simpl.
  - apply length_seq.
  - rewrite length_imap. reflexivity.
Qed.

Lemma np_shape_uniform (b : list profile) n g :
  0 < n -> 0 < g -> length b = n -> Forall (fun r => length r = g) b ->
  np_shape b = Some [n; g; 2].
Proof.
  intros Hn Hg Hl Hall. destruct b as [|p b]; [simpl in Hl; lia|].
  unfold np_shape.
  assert (Hp : length p = g) by (inversion Hall; assumption).
  replace (forallb (fun r => length r =? length p) (p :: b)) with true.
  - rewrite Hp, Hl. destruct g; [lia|]. reflexivity.
  - symmetry. apply forallb_forall. intros r Hr. apply Nat.eqb_eq.
    rewrite Hp. apply (proj1 (List.Forall_forall _ _) Hall r Hr).
Qed.

Lemma zip_with_app_rows (a b : list profile) ga gb :
  Forall (fun r => length r = ga) a -> Forall (fun r => length r = gb) b ->
  Forall (fun r => length r = ga + gb) (zip_with app a b).
Proof.
  intros Ha. revert b. induction Ha as [|r a Hr _ IH]; intros b Hb.
  - constructor.
  - destruct Hb as [|r' b Hr' Hb]; [constructor|].
    simpl. constructor; [rewrite length_app; lia | apply IH; assumption].
Qed.

Lemma concatenate_axis1_returns (a b : list profile) n ga gb :
  0 < n -> 0 < ga -> 0 < gb ->
  length a = n -> Forall (fun r => length r = ga) a ->
  length b = n -> Forall (fun r => length r = gb) b ->
  exists c, concatenate_axis1 a b = Ok c /\ length c = n
            /\ Forall (fun r => length r = ga + gb) c.
Proof.
  intros Hn Hga Hgb La Ha Lb Hb. unfold concatenate_axis1.
  rewrite (np_shape_uniform a n ga), (np_shape_uniform b n gb) by assumption.
  simpl. rewrite Nat.eqb_refl. simpl. eexists. split; [reflexivity|].
  split; [rewrite length_zip_with; lia | apply zip_with_app_rows; assumption].
Qed.

Lemma concatenate_axis0_returns (a b : list profile) na nb g :
  0 < na -> 0 < nb -> 0 < g ->
  length a = na -> Forall (fun r => length r = g) a ->
  length b = nb -> Forall (fun r => length r = g) b ->
  concatenate_axis0 a b = Ok (a ++ b).
Proof.
  intros Hna Hnb Hg La Ha Lb Hb. unfold concatenate_axis0.
  rewrite (np_shape_uniform a na g), (np_shape_uniform b nb g) by assumption.
  simpl. rewrite !Nat.eqb_refl. reflexivity.
Qed.

Lemma lift_run {A} (r : result A) a w : r = Ok a -> lift r w = (Ok a, w).
Proof. intros ->. reflexivity. Qed.

Lemma eighths (n : nat) :
  8 <= n ->
  0 < n / 2 /\ 0 < 1 * n / 8 /\ 0 < 3 * n / 8
  /\ 1 * n / 8 <= n / 2 /\ 3 * n / 8 <= n / 2.
Proof.
  intros H. rewrite Nat.mul_1_l.
  pose proof (Nat.div_mod_eq n 2). pose proof (Nat.mod_upper_bound n 2).
  pose proof (Nat.div_mod_eq n 8). pose proof (Nat.mod_upper_bound n 8).
  pose proof (Nat.div_mod_eq (3 * n) 8).
  pose proof (Nat.mod_upper_bound (3 * n) 8).
  lia.
Qed.

(** C2, as the code has it: for ['All'], at least eight samples, a
    distribution the sampler knows and a network with generators and
    flexible loads, [profile_creation] returns a batch, and the batch has
    [N/2 + N/8 + 3N/8] entries (integer divisions): no sub-batch takes up
    the remainders, so the batch has [N] entries only when 8 divides [N]. *)
Theorem profile_creation_All_length (no_samples : nat) (net : network)
    (distribution : string) (keep_mp : bool) (flexible_loads : list nat)
    (w : World) :
  8 <= no_samples ->
  valid_distribution distribution ->
  0 < length (sgen net) ->
  0 < flex_load_len net flexible_loads ->
  Forall (fun i => i < length (load net)) flexible_loads ->
  exists profiles dur w',
    profile_creation no_samples net distribution keep_mp "All"
                     flexible_loads w = (Ok (profiles, dur), w')
    /\ length profiles = no_samples / 2 + no_samples / 8 + 3 * no_samples / 8.
Proof.
  intros HN Hd Hg Hl Hfl.
  destruct (eighths no_samples HN) as (H2 & H8 & H38 & L8 & L38).
  assert (Hnc : valid_distribution "No_change")
    by (unfold valid_distribution; auto).
  assert (H : exists r w', profile_creation no_samples net distribution
                             keep_mp "All" flexible_loads w = (Ok r, w')).
  { unfold profile_creation. rewrite bind_RandomState_init.
    cbn [String.eqb Ascii.eqb Bool.eqb].
    set (g := length (sgen net)) in *.
    set (l := flex_load_len net flexible_loads) in *.
    match goal with |- context [(create_samples ?n net ?d ?k ≫= ?c) ?w0] =>
      destruct (create_samples_returns n net d k w0 Hd)
        as (p1 & d1 & w1 & E1 & L1 & R1);
      rewrite (M_bind_run _ c _ _ _ E1); cbv beta iota
    end.
    match goal with |- context [(create_load_samples ?n net ?d ?f ≫= ?c) ?w0] =>
      destruct (create_load_samples_returns n net d f w0 Hd Hfl)
        as (p2 & d2 & w2 & E2 & L2 & R2);
      rewrite (M_bind_run _ c _ _ _ E2); cbv beta iota
    end.
    destruct (concatenate_axis1_returns p1 p2 (no_samples / 2) g l)
      as (c1 & Ec1 & Lc1 & Rc1); try assumption.
    rewrite (M_bind_run _ _ _ _ _ (lift_run _ _ _ Ec1)).
    match goal with |- context [(create_samples ?n net ?d ?k ≫= ?c) ?w0] =>
      destruct (create_samples_returns n net d k w0 Hnc)
        as (p3 & d3 & w3 & E3 & L3 & R3);
      rewrite (M_bind_run _ c _ _ _ E3); cbv beta iota
    end.
    destruct (concatenate_axis1_returns p3 (take (1 * no_samples / 8) p2)
                (1 * no_samples / 8) g l)
      as (c2 & Ec2 & Lc2 & Rc2); try assumption.
    { rewrite length_take. lia. }
    { apply Forall_take. assumption. }
    rewrite (M_bind_run _ _ _ _ _ (lift_run _ _ _ Ec2)).
    rewrite (M_bind_run _ _ _ _ _
               (lift_run _ _ _ (concatenate_axis0_returns c1 c2 _ _ (g + l)
                                  H2 H8 ltac:(lia) Lc1 Rc1 Lc2 Rc2))).
    match goal with |- context [(create_load_samples ?n net ?d ?f ≫= ?c) ?w0] =>
      destruct (create_load_samples_returns n net d f w0 Hnc Hfl)
        as (p4 & d4 & w4 & E4 & L4 & R4);
      rewrite (M_bind_run _ c _ _ _ E4); cbv beta iota
    end.
    destruct (concatenate_axis1_returns (take (3 * no_samples / 8) p1) p4
                (3 * no_samples / 8) g l)
      as (c3 & Ec3 & Lc3 & Rc3); try assumption.
    { rewrite length_take. lia. }
    { apply Forall_take. assumption. }
    rewrite (M_bind_run _ _ _ _ _ (lift_run _ _ _ Ec3)).
    rewrite (M_bind_run _ _ _ _ _
               (lift_run _ _ _ (concatenate_axis0_returns (c1 ++ c2) c3
                                  (no_samples / 2 + 1 * no_samples / 8) _
                                  (g + l) ltac:(lia) H38 ltac:(lia)
                                  ltac:(rewrite length_app; lia)
                                  ltac:(apply Forall_app; auto) Lc3 Rc3))).
    eexists _, _. reflexivity. }
  destruct H as ([profiles dur] & w' & H). exists profiles, dur, w'.
  split; [exact H|].
  eapply All_batch_length_if_returned. exact H.
Qed.

End SamplerReturns.

(** * More properties of the program *)

(** ** Writing a profile into the network *)

Section ApplyProfile.

Lemma for_each_result_app {S A} (body : S -> A -> result S) s l1 l2 :
  for_each body s (l1 ++ l2)
  = for_each body s l1 ≫= fun s' => for_each body s' l2.
Proof.
  revert s. induction l1 as [|x l1 IH]; intros s; simpl; [reflexivity|].
  destruct (body s x); simpl; auto.
Qed.

Lemma set_pq_lookup i j vp vq (t : list unit_row) :
  set_q_mvar i vq (set_p_mw i vp t) !! j
  = if decide (i = j)
    then (fun g => mk_row vp vq (sn_mva g)) <$> t !! j
    else t !! j.
Proof.
  unfold set_q_mvar, set_p_mw. destruct (decide (i = j)) as [->|Hne].
  - rewrite !list_lookup_alter_eq. destruct (t !! j); reflexivity.
  - rewrite !list_lookup_alter_ne by assumption. reflexivity.
Qed.

Lemma set_pq_length i vp vq (t : list unit_row) :
  length (set_q_mvar i vq (set_p_mw i vp t)) = length t.
Proof. unfold set_q_mvar, set_p_mw. rewrite !length_alter. reflexivity. Qed.

(** The scale the loops use for generator [i] of a table of [n] rows. *)
Local Abbreviation scale_of sw sp n i :=
  (if S i =? n then sw else sp) (only parsing).

Lemma update_sgen_flexible flex_wt flex_pv (p : profile) sw sp t i e :
  py_in i flex_pv || py_in i flex_wt = true -> p !! i = Some e ->
  update_sgen flex_wt flex_pv p sw sp t i
  = Ok (set_q_mvar i (snd e * scale_of sw sp (length t) i)%float
          (set_p_mw i (fst e * scale_of sw sp (length t) i)%float t)).
Proof.
  intros Hf He. unfold update_sgen, index. rewrite Hf, He. reflexivity.
Qed.

(** The first [n] rounds of the loop over a profile whose entries all
    belong to flexible generators. *)
Lemma update_sgen_loop flex_wt flex_pv (p : profile) sw sp t n :
  n <= length p ->
  (forall i, i < n -> py_in i flex_pv || py_in i flex_wt = true) ->
  exists t',
    for_each (update_sgen flex_wt flex_pv p sw sp) t (seq 0 n) = Ok t'
    /\ length t' = length t
    /\ forall i g, t !! i = Some g ->
         t' !! i
         = Some (match p !! i with
                 | Some e =>
                     if decide (i < n)
                     then mk_row (fst e * scale_of sw sp (length t) i)%float
                                 (snd e * scale_of sw sp (length t) i)%float
                                 (sn_mva g)
                     else g
                 | None => g
                 end).
Proof.
  induction n as [|n IH]; intros Hn Hflex.
  - exists t. split; [reflexivity|]. split; [reflexivity|].
    intros i g Hg. rewrite Hg. destruct (p !! i); [|reflexivity].
    destruct (decide (i < 0)); [lia | reflexivity].
  - destruct IH as (t1 & E1 & L1 & R1); [lia | intros; apply Hflex; lia |].
    destruct (lookup_lt_is_Some_2 p n) as [e He]; [lia|].
    rewrite seq_S, for_each_result_app, E1. cbn [mbind result_bind for_each Nat.add].
    rewrite (update_sgen_flexible _ _ _ _ _ _ _ e) by (auto; apply Hflex; lia).
    cbn [mbind result_bind mret result_ret].
    eexists. split; [reflexivity|].
    split; [rewrite set_pq_length; exact L1|].
    intros i g Hg. rewrite set_pq_lookup, (R1 i g Hg), L1.
    destruct (decide (n = i)) as [<-|Hne].
    + rewrite He. destruct (decide (n < n)); [lia|].
      destruct (decide (n < S n)); [|lia]. reflexivity.
    + destruct (p !! i); [|reflexivity].
      destruct (decide (i < n)), (decide (i < S n)); try lia; reflexivity.
Qed.

Lemma update_pqs_all_flexible
    (net : network) (flex_wt flex_pv : list nat) (p : profile) :
  p <> [] -> length p <= length (sgen net) ->
  (forall i, i < length p -> py_in i flex_pv || py_in i flex_wt = true) ->
  exists net',
    update_pqs net flex_wt flex_pv (Some p) 1 1 = Ok net'
    /\ load net' = load net /\ res net' = res net
    /\ length (sgen net') = length (sgen net)
    /\ forall i g, sgen net !! i = Some g ->
         sgen net' !! i
         = Some (match p !! i with
                 | Some e => mk_row (fst e) (snd e) (sn_mva g)
                 | None => g
                 end).
Proof.
  intros Hp _ Hflex. unfold update_pqs.
  destruct p as [|e0 p0]; [congruence|]. set (p := e0 :: p0) in *.
  destruct (update_sgen_loop flex_wt flex_pv p 1 1 (sgen net) (length p))
    as (t' & E & L & R); [lia | exact Hflex |].
  rewrite E. eexists. split; [reflexivity|]. simpl.
  repeat split; try assumption.
  intros i g Hg. rewrite (R i g Hg).
  destruct (p !! i) as [e|] eqn:He; [|reflexivity].
  destruct (decide (i < length p)) as [_|Hge].
  - destruct (S i =? length (sgen net)); rewrite !F64Facts.mul_1_r;
      reflexivity.
  - exfalso. apply Hge. eapply lookup_lt_Some. exact He.
Qed.

(** X1: when a profile is no longer than the generator table and every
    entry of it belongs to a flexible generator, [update_pqs] with the
    default scales returns, and afterwards each generator the profile
    reaches carries exactly the profile's P and Q, while the rated powers,
    the generators beyond the profile, the loads, the result tables and the
    table length are as before. *)
Theorem update_pqs_writes_profile
    (net : network) (flex_wt flex_pv : list nat) (p : profile) :
  p <> [] -> length p <= length (sgen net) ->
  (forall i, i < length p -> py_in i flex_pv || py_in i flex_wt = true) ->
  exists net',
    update_pqs net flex_wt flex_pv (Some p) 1 1 = Ok net'
    /\ load net' = load net /\ res net' = res net
    /\ length (sgen net') = length (sgen net)
    /\ forall i g, sgen net !! i = Some g ->
         sgen net' !! i
         = Some (match p !! i with
                 | Some e => mk_row (fst e) (snd e) (sn_mva g)
                 | None => g
                 end).
Proof. apply update_pqs_all_flexible. Qed.

Lemma rescale_sgen_value sw sp t i g :
  t !! i = Some g ->
  rescale_sgen sw sp t i
  = Ok (set_q_mvar i (q_mvar g * scale_of sw sp (length t) i)%float
          (set_p_mw i (p_mw g * scale_of sw sp (length t) i)%float t)).
Proof.
  intros Hg. unfold rescale_sgen, loc. rewrite Hg. cbn [mbind result_bind].
  unfold set_p_mw, set_q_mvar. rewrite list_lookup_alter_eq, Hg.
  reflexivity.
Qed.

Lemma rescale_loop sw sp t n :
  n <= length t ->
  exists t',
    for_each (rescale_sgen sw sp) t (seq 0 n) = Ok t'
    /\ length t' = length t
    /\ forall i g, t !! i = Some g ->
         t' !! i
         = Some (if decide (i < n)
                 then mk_row (p_mw g * scale_of sw sp (length t) i)%float
                             (q_mvar g * scale_of sw sp (length t) i)%float
                             (sn_mva g)
                 else g).
Proof.
  induction n as [|n IH]; intros Hn.
  - exists t. split; [reflexivity|]. split; [reflexivity|].
    intros i g Hg. rewrite Hg. destruct (decide (i < 0)); [lia | reflexivity].
  - destruct IH as (t1 & E1 & L1 & R1); [lia|].
    destruct (lookup_lt_is_Some_2 t n) as [g0 Hg0]; [lia|].
    pose proof (R1 n g0 Hg0) as Hn1.
    destruct (decide (n < n)); [lia|].
    rewrite seq_S, for_each_result_app, E1. cbn [mbind result_bind for_each Nat.add].
    rewrite (rescale_sgen_value _ _ _ _ g0 Hn1).
    cbn [mbind result_bind mret result_ret].
    eexists. split; [reflexivity|].
    split; [rewrite set_pq_length; exact L1|].
    intros i g Hg. rewrite set_pq_lookup, (R1 i g Hg), L1.
    destruct (decide (n = i)) as [<-|Hne].
    + rewrite Hg0 in Hg. injection Hg as <-.
      destruct (decide (n < n)); [lia|].
      destruct (decide (n < S n)); [|lia]. reflexivity.
    + destruct (decide (i < n)), (decide (i < S n)); try lia; reflexivity.
Qed.

(** X2: without a profile ([None], or the empty list, which Python takes
    for false), [update_pqs] multiplies the P and Q of the last generator
    by [scale_w] and those of every other generator by [scale_pv], and
    leaves everything else as it is; with both scales 1 the network is
    returned unchanged. *)
Theorem update_pqs_without_profile
    (net : network) (flex_wt flex_pv : list nat) (scale_w scale_pv : float) :
  update_pqs net flex_wt flex_pv (Some []) scale_w scale_pv
  = update_pqs net flex_wt flex_pv None scale_w scale_pv
  /\ (exists net',
        update_pqs net flex_wt flex_pv None scale_w scale_pv = Ok net'
        /\ load net' = load net /\ res net' = res net
        /\ length (sgen net') = length (sgen net)
        /\ forall i g, sgen net !! i = Some g ->
             sgen net' !! i
             = Some (let scale :=
                       if S i =? length (sgen net) then scale_w else scale_pv in
                     mk_row (p_mw g * scale)%float (q_mvar g * scale)%float
                            (sn_mva g)))
  /\ update_pqs net flex_wt flex_pv None 1 1 = Ok net.
Proof.
  split; [reflexivity|]. split.
  - unfold update_pqs.
    destruct (rescale_loop scale_w scale_pv (sgen net) (length (sgen net)))
      as (t' & E & L & R); [lia|].
    rewrite E. eexists. split; [reflexivity|]. simpl.
    repeat split; try assumption.
    intros i g Hg. rewrite (R i g Hg).
    destruct (decide (i < length (sgen net))) as [_|Hge]; [reflexivity|].
    exfalso. apply Hge. eapply lookup_lt_Some. exact Hg.
  - unfold update_pqs.
    destruct (rescale_loop 1 1 (sgen net) (length (sgen net)))
      as (t' & E & L & R); [lia|].
    rewrite E. cbn [mbind result_bind mret result_ret].
    replace t' with (sgen net); [destruct net; reflexivity|].
    symmetry. apply list_eq. intros i.
    destruct (sgen net !! i) as [g|] eqn:Hg.
    + rewrite (R i g Hg). destruct (decide (i < length (sgen net))).
      * destruct (S i =? length (sgen net)); rewrite !F64Facts.mul_1_r;
          destruct g; reflexivity.
      * reflexivity.
    + apply lookup_ge_None. rewrite L. apply lookup_ge_None. exact Hg.
Qed.

Lemma for_each_result_preserves_on {S A} (I : S -> Prop) (P : A -> Prop)
    (body : S -> A -> result S) :
  (forall s x s', I s -> P x -> body s x = Ok s' -> I s') ->
  forall l s s', Forall P l -> I s -> for_each body s l = Ok s' -> I s'.
Proof.
  intros Hb. induction l as [|x l IH]; intros s s' Hl Hs E; simpl in E.
  - injection E as <-. exact Hs.
  - inversion Hl; subst.
    destruct (body s x) as [s1|] eqn:E1; simpl in E; [|discriminate].
    eapply IH; [assumption | | exact E]. eapply Hb; eauto.
Qed.

Lemma for_each_result_preserves {S A} (I : S -> Prop)
    (body : S -> A -> result S) :
  (forall s x s', I s -> body s x = Ok s' -> I s') ->
  forall l s s', I s -> for_each body s l = Ok s' -> I s'.
Proof.
  intros Hb l s s'.
  apply (for_each_result_preserves_on I (fun _ => True)); [eauto|].
  apply Forall_forall. auto.
Qed.

Lemma for_each_result_ext {S A} (f g : S -> A -> result S) l :
  Forall (fun x => forall s, f s x = g s x) l ->
  forall s, for_each f s l = for_each g s l.
Proof.
  induction 1 as [|x l Hx _ IH]; intros s; simpl; [reflexivity|].
  rewrite Hx. destruct (g s x); simpl; auto.
Qed.

Lemma update_sgen_length flex_wt flex_pv (p : profile) sw sp t i t' :
  update_sgen flex_wt flex_pv p sw sp t i = Ok t' -> length t' = length t.
Proof.
  unfold update_sgen, set_p_mw, set_q_mvar.
  destruct (py_in i flex_pv || py_in i flex_wt).
  - destruct (index p i); simpl; intros E; [|discriminate].
    injection E as <-. rewrite !length_alter. reflexivity.
  - destruct (loc t i); simpl; [|discriminate].
    destruct (loc _ i); simpl; intros E; [|discriminate].
    injection E as <-. rewrite !length_alter. reflexivity.
Qed.

(** The body of the loop of [update_pqs_wl]. *)
Local Abbreviation wl_body flex_wt flex_pv p sw sp load_ind :=
  (fun (net : network) (i : nat) =>
     if i <? length (sgen net) then
       t ← update_sgen flex_wt flex_pv p sw sp (sgen net) i;
       mret (mk_net t (load net) (res net))
     else
       j ← index load_ind (i - length (sgen net));
       e ← index p i;
       let l := set_p_mw j (fst e) (load net) in
       let l := set_q_mvar j (snd e) l in
       mret (mk_net (sgen net) l (res net))) (only parsing).

(** While the loop of [update_pqs_wl] is within the generator table it is
    the loop of [update_pqs]. *)
Lemma wl_generator_rounds flex_wt flex_pv (p : profile) sw sp load_ind net n :
  n <= length (sgen net) ->
  for_each (wl_body flex_wt flex_pv p sw sp load_ind) net (seq 0 n)
  = t ← for_each (update_sgen flex_wt flex_pv p sw sp) (sgen net) (seq 0 n);
    mret (mk_net t (load net) (res net)).
Proof.
  induction n as [|n IH]; intros Hn.
  - simpl. destruct net; reflexivity.
  - rewrite seq_S, !for_each_result_app, IH by lia. cbn [Nat.add].
    destruct (for_each (update_sgen flex_wt flex_pv p sw sp) (sgen net)
                (seq 0 n)) as [t1|] eqn:E1; [|reflexivity].
    assert (L1 : length t1 = length (sgen net)).
    { apply (for_each_result_preserves
               (fun t' => length t' = length (sgen net))
               (update_sgen flex_wt flex_pv p sw sp)) with (3 := E1);
        [|reflexivity].
      intros s x s' Hs E. apply update_sgen_length in E. congruence. }
    cbn [mbind result_bind mret result_ret for_each sgen load res].
    rewrite L1. destruct (Nat.ltb_spec n (length (sgen net))); [|lia].
    destruct (update_sgen _ _ _ _ _ t1 n); reflexivity.
Qed.

(** The rounds of [update_pqs_wl] beyond the generator table: round
    [ns + k] writes entry [ns + k] of the profile into load
    [load_ind[k]]. *)
Lemma wl_load_rounds flex_wt flex_pv (p : profile) sw sp load_ind net m :
  length (sgen net) + m <= length p -> m <= length load_ind ->
  exists l',
    for_each (wl_body flex_wt flex_pv p sw sp load_ind) net
             (seq (length (sgen net)) m)
    = Ok (mk_net (sgen net) l' (res net))
    /\ length l' = length (load net)
    /\ (forall j, sn_mva <$> l' !! j = sn_mva <$> load net !! j)
    /\ (forall j, (forall k, k < m -> load_ind !! k <> Some j) ->
          l' !! j = load net !! j)
    /\ (forall k j e, k < m -> load_ind !! k = Some j ->
          p !! (length (sgen net) + k) = Some e ->
          (forall k', k < k' -> k' < m -> load_ind !! k' <> Some j) ->
          l' !! j = (fun r => mk_row (fst e) (snd e) (sn_mva r))
                    <$> load net !! j).
Proof.
  induction m as [|m IH]; intros Hp Hl.
  - exists (load net). split; [destruct net; reflexivity|].
    split; [reflexivity|]. split; [reflexivity|]. split; [reflexivity|].
    intros; lia.
  - destruct IH as (l1 & E1 & L1 & S1 & U1 & W1); [lia | lia |].
    destruct (lookup_lt_is_Some_2 load_ind m) as [jm Hjm]; [lia|].
    destruct (lookup_lt_is_Some_2 p (length (sgen net) + m)) as [em Hem];
      [lia|].
    rewrite seq_S, for_each_result_app, E1.
    cbn [mbind result_bind for_each sgen load res].
    destruct (Nat.ltb_spec (length (sgen net) + m) (length (sgen net)));
      [lia|].
    replace (length (sgen net) + m - length (sgen net)) with m by lia.
    unfold index. rewrite Hjm, Hem.
    cbn [mbind result_bind mret result_ret].
    eexists. split; [reflexivity|].
    split; [rewrite set_pq_length; exact L1|].
    split; [|split].
    + intros j. rewrite set_pq_lookup, <- S1.
      destruct (decide (jm = j)); [|reflexivity].
      destruct (l1 !! j); reflexivity.
    + intros j Hj. rewrite set_pq_lookup.
      destruct (decide (jm = j)) as [->|_].
      * exfalso. apply (Hj m); [lia | exact Hjm].
      * apply U1. intros k Hk. apply Hj. lia.
    + intros k j e Hk Hj He Hlast. rewrite set_pq_lookup.
      destruct (decide (k = m)) as [->|Hkm].
      * rewrite Hjm in Hj. injection Hj as ->.
        rewrite Hem in He. injection He as ->.
        destruct (decide (j = j)); [|congruence].
        specialize (S1 j).
        destruct (l1 !! j), (load net !! j); simpl in *;
          try discriminate; [|reflexivity].
        injection S1 as ->. reflexivity.
      * destruct (decide (jm = j)) as [->|_].
        -- exfalso. apply (Hlast m); [lia | lia | exact Hjm].
        -- apply (W1 k j e); [lia | assumption | assumption |].
           intros k' H1 H2. apply Hlast; lia.
Qed.

(** X3: a profile with an entry for every generator and at most as many
    further entries as there are flexible loads, all of them loads of the
    table.  [update_pqs_wl] returns; entry [len(net.sgen) + k] is written,
    unscaled, into load [load_ind[k]], the last write winning when
    [load_ind] names a load twice; loads that [load_ind] does not reach are
    untouched, and so are the rated powers of all loads, the number of
    loads and the result tables. *)
Theorem update_pqs_wl_writes_loads
    (net : network) (flex_wt flex_pv : list nat) (p : profile)
    (scale_w scale_pv : float) (load_ind : list nat) :
  p <> [] ->
  Forall (fun j => j < length (load net)) load_ind ->
  length (sgen net) <= length p ->
  length p <= length (sgen net) + length load_ind ->
  exists net',
    update_pqs_wl net flex_wt flex_pv (Some p) scale_w scale_pv load_ind
      = Ok net'
    /\ res net' = res net
    /\ length (load net') = length (load net)
    /\ (forall j, (forall k, length (sgen net) + k < length p ->
                     load_ind !! k <> Some j) ->
          load net' !! j = load net !! j)
    /\ (forall k j e, load_ind !! k = Some j ->
          p !! (length (sgen net) + k) = Some e ->
          (forall k', k < k' -> length (sgen net) + k' < length p ->
             load_ind !! k' <> Some j) ->
          load net' !! j = (fun r => mk_row (fst e) (snd e) (sn_mva r))
                           <$> load net !! j).
Proof.
  intros Hne _ Hlo Hhi. unfold update_pqs_wl.
  destruct p as [|e0 p0]; [congruence|]. set (p := e0 :: p0) in *.
  assert (Hsplit : seq 0 (length p)
                   = seq 0 (length (sgen net))
                     ++ seq (length (sgen net)) (length p - length (sgen net))).
  { transitivity (seq 0 (length (sgen net) + (length p - length (sgen net))));
      [f_equal; lia | apply seq_app]. }
  rewrite Hsplit, for_each_result_app, wl_generator_rounds by lia.
  destruct (for_each_result_inv (fun t' => length t' = length (sgen net))
              (fun i => i < length (sgen net))
              (update_sgen flex_wt flex_pv p scale_w scale_pv)
              (sgen net) (seq 0 (length (sgen net)))) as (t & -> & Lt).
  { intros t1 i E Hi.
    destruct (update_sgen_Ok flex_wt flex_pv p scale_w scale_pv t1 i)
      as (t2 & -> & E2); [lia | lia |].
    eexists. split; [reflexivity|]. congruence. }
  { reflexivity. }
  { apply Forall_seq. intros; lia. }
  cbn [mbind result_bind mret result_ret].
  destruct (wl_load_rounds flex_wt flex_pv p scale_w scale_pv load_ind
              (mk_net t (load net) (res net))
              (length p - length (sgen net)))
    as (l' & E & L & _ & U & W); cbn [sgen load res] in *; [lia | lia |].
  rewrite Lt in E. rewrite E. eexists. split; [reflexivity|].
  cbn [sgen load res]. split; [reflexivity|]. split; [exact L|]. split.
  - intros j Hj. apply U. intros k Hk. apply Hj. lia.
  - intros k j e Hj He Hlast.
    assert (Hk : length (sgen net) + k < length p)
      by (eapply lookup_lt_Some; exact He).
    apply (W k j e); [lia | exact Hj | rewrite Lt; exact He |].
    intros k' H1 H2. apply Hlast; lia.
Qed.

(** X4: whenever [update_pqs_wl] returns (the flexible loads being loads
    of the table), its generator table is the one [update_pqs] computes
    from the entries of the profile that fall within the generator
    table. *)
Theorem update_pqs_wl_generators_as_update_pqs
    (net net' : network) (flex_wt flex_pv : list nat) (p : profile)
    (scale_w scale_pv : float) (load_ind : list nat) :
  Forall (fun j => j < length (load net)) load_ind ->
  update_pqs_wl net flex_wt flex_pv (Some p) scale_w scale_pv load_ind
    = Ok net' ->
  update_pqs net flex_wt flex_pv (Some (take (length (sgen net)) p))
             scale_w scale_pv
  = Ok (mk_net (sgen net') (load net) (res net)).
Proof.
  intros _. destruct p as [|e0 p0].
  { rewrite take_nil. unfold update_pqs_wl, update_pqs.
    destruct (for_each _ _ _) as [t|]; simpl; [|discriminate].
    intros E. injection E as <-. reflexivity. }
  intros E. unfold update_pqs_wl in E. cbv beta iota in E.
  set (p := e0 :: p0) in *.
  set (n := Nat.min (length (sgen net)) (length p)).
  assert (Hsplit : seq 0 (length p) = seq 0 n ++ seq n (length p - n)).
  { transitivity (seq 0 (n + (length p - n)));
      [f_equal; lia | apply seq_app]. }
  rewrite Hsplit, for_each_result_app, wl_generator_rounds in E by lia.
  destruct (for_each (update_sgen flex_wt flex_pv p scale_w scale_pv)
              (sgen net) (seq 0 n)) as [t|] eqn:E1; [|discriminate].
  cbn [mbind result_bind mret result_ret] in E.
  assert (Lt : length t = length (sgen net)).
  { apply (for_each_result_preserves
             (fun t' => length t' = length (sgen net))
             (update_sgen flex_wt flex_pv p scale_w scale_pv))
      with (3 := E1); [|reflexivity].
    intros s x s' Hs Ex. apply update_sgen_length in Ex. congruence. }
  assert (Hs : sgen net' = t).
  { apply (for_each_result_preserves_on
             (fun s : network => sgen s = t)
             (fun i => length (sgen net) <= i)
             (wl_body flex_wt flex_pv p scale_w scale_pv load_ind))
      with (4 := E); [| |reflexivity].
    - intros s x s' Hst Hx. rewrite Hst, Lt.
      destruct (Nat.ltb_spec x (length (sgen net))); [lia|].
      destruct (index load_ind _); simpl; [|discriminate].
      destruct (index p x); simpl; [|discriminate].
      intros Ex. injection Ex as <-. reflexivity.
    - apply Forall_seq. intros i Hi. lia. }
  subst t. unfold update_pqs.
  destruct (take (length (sgen net)) p) as [|e1 q1] eqn:Etake.
  - assert (Hn : n = 0).
    { pose proof (length_take p (length (sgen net))) as HL.
      rewrite Etake in HL. simpl in HL. unfold n. lia. }
    rewrite Hn in E1. simpl in E1. injection E1 as E1.
    assert (H0 : length (sgen net) = 0) by (simpl in n; lia).
    rewrite H0. simpl. rewrite <- E1. reflexivity.
  - rewrite <- Etake, length_take. fold n.
    rewrite (for_each_result_ext _
               (update_sgen flex_wt flex_pv p scale_w scale_pv)), E1;
      [reflexivity|].
    apply Forall_seq. intros i Hi s. unfold update_sgen, index.
    rewrite lookup_take.
    destruct (decide (i < length (sgen net))); [reflexivity|lia].
Qed.

Lemma for_each_result_inv_or {S A} (I : S -> Prop) (P : A -> Prop) (e : exn)
    (body : S -> A -> result S) s l :
  (forall s x, I s -> P x ->
     (exists s', body s x = Ok s' /\ I s') \/ body s x = Raise e) ->
  I s -> Forall P l ->
  (exists s', for_each body s l = Ok s' /\ I s') \/ for_each body s l = Raise e.
Proof.
  intros Hb Hs Hl. revert s Hs.
  induction Hl as [|x l Hx _ IH]; intros s Hs; simpl; [eauto|].
  destruct (Hb s x Hs Hx) as [(s1 & -> & Hs1) | ->]; simpl; auto.
Qed.

(** A round of the loop of [update_pqs] can only fail with [KeyError]. *)
Lemma update_sgen_Ok_or_KeyError flex_wt flex_pv (p : profile) sw sp t i :
  i < length p ->
  (exists t', update_sgen flex_wt flex_pv p sw sp t i = Ok t'
              /\ length t' = length t)
  \/ update_sgen flex_wt flex_pv p sw sp t i = Raise KeyError.
Proof.
  intros Hp. destruct (decide (i < length t)) as [Ht|Ht].
  - left. apply update_sgen_Ok; assumption.
  - destruct (py_in i flex_pv || py_in i flex_wt) eqn:Hf.
    + left. destruct (lookup_lt_is_Some_2 p i Hp) as [e He].
      rewrite (update_sgen_flexible _ _ _ _ _ _ _ e Hf He).
      eexists. split; [reflexivity|]. apply set_pq_length.
    + right. unfold update_sgen, loc. rewrite Hf.
      rewrite (proj2 (lookup_ge_None t i)) by lia. reflexivity.
Qed.

Lemma update_pqs_Ok_or_KeyError net flex_wt flex_pv (p : profile) sw sp :
  (exists net', update_pqs net flex_wt flex_pv (Some p) sw sp = Ok net'
                /\ length (sgen net') = length (sgen net))
  \/ update_pqs net flex_wt flex_pv (Some p) sw sp = Raise KeyError.
Proof.
  unfold update_pqs. destruct p as [|e0 p0]; cbv beta iota.
  - left. destruct (rescale_loop_Ok sw sp (sgen net)) as (t & -> & E).
    eexists. split; [reflexivity|]. exact E.
  - set (p := e0 :: p0).
    destruct (for_each_result_inv_or
                (fun t' => length t' = length (sgen net))
                (fun i => i < length p) KeyError
                (update_sgen flex_wt flex_pv p sw sp)
                (sgen net) (seq 0 (length p))) as [(t & -> & E) | ->].
    + intros t1 i E Hi.
      destruct (update_sgen_Ok_or_KeyError flex_wt flex_pv p sw sp t1 i Hi)
        as [(t2 & -> & E2) | ->]; [left|right; reflexivity].
      eexists. split; [reflexivity|]. congruence.
    + reflexivity.
    + apply Forall_seq. intros; lia.
    + left. eexists. split; [reflexivity|]. exact E.
    + right. reflexivity.
Qed.

Lemma update_pqs_unknown_generator_raises_aux
    (net : network) (flex_wt flex_pv : list nat) (p : profile)
    (scale_w scale_pv : float) (i : nat) :
  length (sgen net) <= i -> i < length p ->
  py_in i flex_pv || py_in i flex_wt = false ->
  update_pqs net flex_wt flex_pv (Some p) scale_w scale_pv = Raise KeyError.
Proof.
  intros Hi Hp Hf. unfold update_pqs.
  destruct p as [|e0 p0]; [simpl in Hp; lia|]. cbv beta iota.
  set (p := e0 :: p0) in *.
  assert (Hsplit : seq 0 (length p) = seq 0 i ++ i :: seq (S i) (length p - S i)).
  { transitivity (seq 0 (i + S (length p - S i))); [f_equal; lia|].
    apply seq_app. }
  rewrite Hsplit, for_each_result_app.
  destruct (for_each_result_inv_or
              (fun t' => length t' = length (sgen net))
              (fun i => i < length p) KeyError
              (update_sgen flex_wt flex_pv p scale_w scale_pv)
              (sgen net) (seq 0 i)) as [(t & -> & E) | ->].
  - intros t1 k E Hk.
    destruct (update_sgen_Ok_or_KeyError flex_wt flex_pv p scale_w scale_pv
                t1 k Hk) as [(t2 & -> & E2) | ->]; [left|right; reflexivity].
    eexists. split; [reflexivity|]. congruence.
  - reflexivity.
  - apply Forall_seq. intros; lia.
  - assert (Hstep : update_sgen flex_wt flex_pv p scale_w scale_pv t i
                    = Raise KeyError).
    { unfold update_sgen, loc.
      rewrite Hf, (proj2 (lookup_ge_None t i)) by lia. reflexivity. }
    cbn [mbind result_bind for_each]. rewrite Hstep. reflexivity.
  - reflexivity.
Qed.

Lemma update_pqs_wl_long_profile_raises_aux
    (net : network) (flex_wt flex_pv : list nat) (p : profile)
    (scale_w scale_pv : float) (load_ind : list nat) :
  length (sgen net) + length load_ind < length p ->
  update_pqs_wl net flex_wt flex_pv (Some p) scale_w scale_pv load_ind
  = Raise IndexError.
Proof.
  intros Hp. unfold update_pqs_wl.
  destruct p as [|e0 p0]; [simpl in Hp; lia|]. cbv beta iota.
  set (p := e0 :: p0) in *.
  assert (Hsplit :
    seq 0 (length p)
    = seq 0 (length (sgen net))
      ++ seq (length (sgen net)) (length load_ind)
      ++ (length (sgen net) + length load_ind)
         :: seq (S (length (sgen net) + length load_ind))
                (length p - S (length (sgen net) + length load_ind))).
  { transitivity
      (seq 0 (length (sgen net)
              + (length load_ind
                 + S (length p - S (length (sgen net) + length load_ind)))));
      [f_equal; lia|].
    rewrite seq_app. f_equal. apply seq_app. }
  rewrite Hsplit, !for_each_result_app, wl_generator_rounds by lia.
  destruct (for_each_result_inv (fun t' => length t' = length (sgen net))
              (fun i => i < length (sgen net))
              (update_sgen flex_wt flex_pv p scale_w scale_pv)
              (sgen net) (seq 0 (length (sgen net)))) as (t & -> & Lt).
  { intros t1 i E Hi.
    destruct (update_sgen_Ok flex_wt flex_pv p scale_w scale_pv t1 i)
      as (t2 & -> & E2); [lia | lia |].
    eexists. split; [reflexivity|]. congruence. }
  { reflexivity. }
  { apply Forall_seq. intros; lia. }
  cbn [mbind result_bind mret result_ret].
  destruct (wl_load_rounds flex_wt flex_pv p scale_w scale_pv load_ind
              (mk_net t (load net) (res net)) (length load_ind))
    as (l' & E & _); cbn [sgen load res] in *; [lia | lia |].
  rewrite Lt in E. rewrite for_each_result_app, E.
  cbn [mbind result_bind for_each sgen load res]. rewrite Lt.
  destruct (Nat.ltb_spec (length (sgen net) + length load_ind)
              (length (sgen net))); [lia|].
  assert (Hstep : index load_ind (length (sgen net) + length load_ind
                                  - length (sgen net)) = Raise IndexError).
  { unfold index.
    rewrite (proj2 (lookup_ge_None load_ind _)) by lia.
    reflexivity. }
  rewrite Hstep. reflexivity.
Qed.

(** X5: [update_pqs] reads the current P of a generator that is not
    flexible, so a profile that is longer than the generator table and
    whose first surplus entry does not belong to a flexible index makes it
    raise [KeyError], whatever the scales. *)
Theorem update_pqs_unknown_generator_raises
    (net : network) (flex_wt flex_pv : list nat) (p : profile)
    (scale_w scale_pv : float) :
  length (sgen net) < length p ->
  py_in (length (sgen net)) flex_pv || py_in (length (sgen net)) flex_wt
    = false ->
  update_pqs net flex_wt flex_pv (Some p) scale_w scale_pv = Raise KeyError.
Proof.
  intros Hp Hf.
  apply (update_pqs_unknown_generator_raises_aux net flex_wt flex_pv p
           scale_w scale_pv (length (sgen net))); [lia | exact Hp | exact Hf].
Qed.

(** X6: [update_pqs_wl] looks up the load of entry [len(net.sgen) + k] at
    [load_ind[k]], so a profile with more entries than generators and
    flexible loads together makes it raise [IndexError], whatever the
    flexible generators and the scales. *)
Theorem update_pqs_wl_long_profile_raises
    (net : network) (flex_wt flex_pv : list nat) (p : profile)
    (scale_w scale_pv : float) (load_ind : list nat) :
  Forall (fun j => j < length (load net)) load_ind ->
  length (sgen net) + length load_ind < length p ->
  update_pqs_wl net flex_wt flex_pv (Some p) scale_w scale_pv load_ind
  = Raise IndexError.
Proof. intros _. apply update_pqs_wl_long_profile_raises_aux. Qed.

End ApplyProfile.

(** ** More on the sweep *)

Section SweepOutcome.
Context `{Gen : Generator} `{Pf : Solver}.

Lemma reported_app out1 out2 :
  reported (out1 ++ out2) = reported out1 ++ reported out2.
Proof. unfold reported. apply omap_app. Qed.

(** What one iteration adds to the lists and to the output. *)
Lemma sweep_body_files update settings net b p w net' b' w' :
  sweep_body update settings (net, b) p w = (Ok (net', b'), w') ->
  exists net1, update net p = Ok net1 /\ sgen net' = sgen net1
  /\ ((prof_flexible b' = prof_flexible b ++ [p]
       /\ prof_non_flexible b' = prof_non_flexible b
       /\ stdout w' = stdout w)
      \/ (prof_flexible b' = prof_flexible b
          /\ prof_non_flexible b' = prof_non_flexible b ++ [p]
          /\ stdout w' = stdout w)
      \/ (prof_flexible b' = prof_flexible b
          /\ prof_non_flexible b' = prof_non_flexible b
          /\ stdout w' = stdout w ++ [PrintNotConverged p])).
Proof.
  unfold sweep_body. cbv [mbind M_bind lift pp_runpp].
  destruct (update net p) as [net1|]; [|discriminate].
  exists net1. split; [reflexivity|].
  destruct (runpp (pf w) net1) as [s [r|]]; cbn [option_map] in *.
  - destruct (_ && _ && _); cbv [mret M_ret] in *;
      match goal with H : (_, _) = (_, _) |- _ => inversion H; subst end;
      simpl; auto 10.
  - cbv [print mret M_ret] in *.
    match goal with H : (_, _) = (_, _) |- _ => inversion H; subst end.
    simpl. auto 10.
Qed.

Lemma sweep_loop_partitions update settings :
  forall batch net b w net' b' w',
  for_each (sweep_body update settings) (net, b) batch w
    = (Ok (net', b'), w') ->
  exists fl nf ev,
    prof_flexible b' = prof_flexible b ++ fl
    /\ prof_non_flexible b' = prof_non_flexible b ++ nf
    /\ stdout w' = stdout w ++ ev
    /\ fl ++ nf ++ reported ev ≡ₚ batch
    /\ fl `sublist_of` batch /\ nf `sublist_of` batch
    /\ reported ev `sublist_of` batch.
Proof.
  induction batch as [|p batch IH]; intros net b w net' b' w' E.
  - cbn in E. inversion E; subst. exists [], [], [].
    rewrite !app_nil_r. repeat split; reflexivity.
  - cbn [for_each] in E. cbv [mbind M_bind] in E.
    destruct (sweep_body update settings (net, b) p w) as [[[net1 b1]|] w1]
      eqn:E1; [|discriminate].
    destruct (IH _ _ _ _ _ _ E) as (fl & nf & ev & F & N & O & Hp & S1 & S2 & S3).
    destruct (sweep_body_files _ _ _ _ _ _ _ _ _ E1)
      as (_ & _ & _ & [(F1 & N1 & O1) | [(F1 & N1 & O1) | (F1 & N1 & O1)]]);
      rewrite F1 in F; rewrite N1 in N; rewrite O1 in O.
    + exists (p :: fl), nf, ev. rewrite <- app_assoc in F.
      repeat split; try assumption.
      * simpl. constructor. exact Hp.
      * apply sublist_skip. exact S1.
      * apply sublist_cons. exact S2.
      * apply sublist_cons. exact S3.
    + exists fl, (p :: nf), ev. rewrite <- app_assoc in N.
      repeat split; try assumption.
      * simpl. rewrite <- Permutation_middle. constructor. exact Hp.
      * apply sublist_cons. exact S1.
      * apply sublist_skip. exact S2.
      * apply sublist_cons. exact S3.
    + exists fl, nf, (PrintNotConverged p :: ev). rewrite <- app_assoc in O.
      repeat split; try assumption.
      * cbn. rewrite !app_assoc, <- Permutation_middle, <- !app_assoc.
        constructor. exact Hp.
      * apply sublist_cons. exact S1.
      * apply sublist_cons. exact S2.
      * cbn. apply sublist_skip. exact S3.
Qed.

(** X7: whenever a sweep returns, the profiles it filed as feasible, those
    it filed as infeasible and those it printed as not converged are,
    together, exactly the profiles of the batch (each as often as it occurs
    there), and each of the three lists keeps the order of the batch.  This
    holds for all three FSP settings of [all_pf_simulations]. *)
Theorem sweep_partitions_the_batch
    (settings : SettingReader) (net : network) (batch : list profile)
    (w w' : World) (b : buckets) (dur : float) :
  all_pf_simulations settings net batch w = (Ok (b, dur), w') ->
  exists ev,
    reported (stdout w') = reported (stdout w) ++ ev
    /\ prof_flexible b ++ prof_non_flexible b ++ ev ≡ₚ batch
    /\ prof_flexible b `sublist_of` batch
    /\ prof_non_flexible b `sublist_of` batch
    /\ ev `sublist_of` batch.
Proof.
  unfold all_pf_simulations, run_all_samples, run_all_samples_wl.
  destruct (String.eqb (fsps settings) "DG only");
    [|destruct (_ || _); [|discriminate]];
    cbv [mbind M_bind time_time];
    match goal with
    | |- context [for_each ?f ?s ?l ?w1] =>
        destruct (for_each f s l w1) as [[[n1 b1]|] w1'] eqn:E; [|discriminate]
    end;
    cbv [print mret M_ret]; intros H; inversion H; subst; clear H;
    destruct (sweep_loop_partitions _ _ _ _ _ _ _ _ _ E)
      as (fl & nf & ev & F & N & O & Hp & S1 & S2 & S3);
    cbn in F, N, O; subst fl nf;
    exists (reported ev); cbn [stdout]; rewrite O, !reported_app, !app_nil_r;
    auto.
Qed.

Lemma sweep_body_raises update settings net b p w e :
  update net p = Raise e ->
  sweep_body update settings (net, b) p w = (Raise e, w).
Proof.
  intros E. unfold sweep_body. cbv [mbind M_bind lift]. rewrite E. reflexivity.
Qed.

Lemma sweep_body_returns update settings net b p w net1 :
  update net p = Ok net1 ->
  exists net' b' w',
    sweep_body update settings (net, b) p w = (Ok (net', b'), w')
    /\ sgen net' = sgen net1.
Proof.
  intros E. unfold sweep_body. cbv [mbind M_bind lift pp_runpp]. rewrite E.
  destruct (runpp (pf w) net1) as [s [r|]]; cbn [option_map].
  - destruct (_ && _ && _); cbv [mret M_ret];
      eexists _, _, _; (split; [reflexivity|]); reflexivity.
  - cbv [print mret M_ret]. eexists _, _, _. split; reflexivity.
Qed.

(** The loop stops at the first profile the update rejects. *)
Lemma sweep_loop_aborts update settings net0 (Bad : profile -> Prop) e :
  (forall net p, length (sgen net) = length (sgen net0) ->
     (exists net', update net p = Ok net'
                   /\ length (sgen net') = length (sgen net0))
     \/ update net p = Raise e) ->
  (forall net p, length (sgen net) = length (sgen net0) -> Bad p ->
     update net p = Raise e) ->
  forall batch net b w,
  length (sgen net) = length (sgen net0) -> Exists Bad batch ->
  exists w', for_each (sweep_body update settings) (net, b) batch w
             = (Raise e, w').
Proof.
  intros Hany Hbad. induction batch as [|p batch IH]; intros net b w L Hex.
  - inversion Hex.
  - cbn [for_each]. cbv [mbind M_bind].
    destruct (Hany net p L) as [(net1 & E1 & L1) | E1].
    + destruct (sweep_body_returns update settings net b p w net1 E1)
        as (net2 & b2 & w2 & -> & L2).
      apply IH; [congruence|].
      inversion Hex as [? ? Hb | ? ? Hrest]; subst; [|assumption].
      rewrite (Hbad net p L Hb) in E1. discriminate.
    + rewrite (sweep_body_raises _ _ _ _ _ _ _ E1). eauto.
Qed.

Lemma sweep_prologue_raises (body : M (network * buckets))
    (tail : buckets -> float -> float -> M (buckets * float)) w e w1 :
  body (mk_world (rng w) (clock w) (S (ticks w)) (stdout w) (pf w))
    = (Raise e, w1) ->
  (t0 ← time_time; '(_, b) ← body; t1 ← time_time; tail b t0 t1) w
    = (Raise e, w1).
Proof. intros E. cbv [mbind M_bind time_time]. rewrite E. reflexivity. Qed.

Lemma sweep_aborts_general
    (settings : SettingReader) (net : network) (batch : list profile)
    (w : World) :
  (Exists (fun p => exists i,
             length (sgen net) <= i /\ i < length p
             /\ py_in i (fsp_pv settings) || py_in i (fsp_wt settings) = false)
          batch ->
   exists w', run_all_samples settings net batch w = (Raise KeyError, w'))
  /\
  (Exists (fun p => length (sgen net) + length (fsp_load settings) < length p)
          batch ->
   exists w', run_all_samples_wl settings net batch w = (Raise IndexError, w')).
Proof.
  split; intros Hex.
  - destruct (sweep_loop_aborts
                (fun net profile =>
                   update_pqs net (fsp_wt settings) (fsp_pv settings)
                              (Some profile) 1 1)
                settings net
                (fun p => exists i,
                   length (sgen net) <= i /\ i < length p
                   /\ py_in i (fsp_pv settings) || py_in i (fsp_wt settings)
                      = false)
                KeyError) with
        (batch := batch) (net := net) (b := no_buckets)
        (w := mk_world (rng w) (clock w) (S (ticks w)) (stdout w) (pf w))
      as (w1 & E); [| |reflexivity|exact Hex|].
    + intros n1 p L.
      destruct (update_pqs_Ok_or_KeyError n1 (fsp_wt settings)
                  (fsp_pv settings) p 1 1) as [(n2 & E2 & L2) | E2];
        [left|right; exact E2].
      eexists. split; [exact E2|]. congruence.
    + intros n1 p L (i & H1 & H2 & H3).
      apply (update_pqs_unknown_generator_raises_aux n1 _ _ p 1 1 i);
        [lia | exact H2 | exact H3].
    + exists w1. unfold run_all_samples.
      eapply sweep_prologue_raises. exact E.
  - destruct (sweep_loop_aborts
                (fun net profile =>
                   update_pqs_wl net (fsp_wt settings) (fsp_pv settings)
                                 (Some profile) 1 1 (fsp_load settings))
                settings net
                (fun p => length (sgen net) + length (fsp_load settings)
                          < length p)
                IndexError) with
        (batch := batch) (net := net) (b := no_buckets)
        (w := mk_world (rng w) (clock w) (S (ticks w)) (stdout w) (pf w))
      as (w1 & E); [| |reflexivity|exact Hex|].
    + intros n1 p L.
      destruct (le_lt_dec (length p)
                  (length (sgen n1) + length (fsp_load settings))) as [Hfit|Hl].
      * left. destruct (update_pqs_wl_Ok n1 (fsp_wt settings)
                          (fsp_pv settings) p 1 1 (fsp_load settings) Hfit)
          as (n2 & E2 & L2).
        eexists. split; [exact E2|]. congruence.
      * right. apply update_pqs_wl_long_profile_raises_aux. exact Hl.
    + intros n1 p L Hl. apply update_pqs_wl_long_profile_raises_aux. lia.
    + exists w1. unfold run_all_samples_wl.
      eapply sweep_prologue_raises. exact E.
Qed.

(** X8: the profile is written into the network before the [try], so the
    first profile the update rejects ends the whole sweep with the update's
    exception, and nothing is returned.  After profiles that fit,
    [run_all_samples] raises [KeyError] at a profile that is longer than
    the generator table and whose first surplus entry does not belong to a
    flexible index, and [run_all_samples_wl] raises [IndexError] at a
    profile with more entries than there are generators and flexible
    loads. *)
Theorem sweep_aborts_on_unfit_profile
    (settings : SettingReader) (net : network)
    (fit : list profile) (p : profile) (rest : list profile) (w : World) :
  (Forall (fun q => length q <= length (sgen net)) fit ->
   length (sgen net) < length p ->
   py_in (length (sgen net)) (fsp_pv settings)
   || py_in (length (sgen net)) (fsp_wt settings) = false ->
   exists w', run_all_samples settings net (fit ++ p :: rest) w
              = (Raise KeyError, w'))
  /\
  (Forall (fun j => j < length (load net)) (fsp_load settings) ->
   Forall (fun q => length q <= length (sgen net)
                                + length (fsp_load settings)) fit ->
   length (sgen net) + length (fsp_load settings) < length p ->
   exists w', run_all_samples_wl settings net (fit ++ p :: rest) w
              = (Raise IndexError, w')).
Proof.
  destruct (sweep_aborts_general settings net (fit ++ p :: rest) w)
    as (Hdg & Hwl).
  split.
  - intros _ Hp Hf. apply Hdg. apply Exists_app. right. left.
    exists (length (sgen net)). auto.
  - intros _ _ Hp. apply Hwl. apply Exists_app. right. left. exact Hp.
Qed.

Lemma forallb_Exists_false {A} (f : A -> bool) l :
  Exists (fun x => f x = false) l -> forallb f l = false.
Proof.
  induction 1 as [x l Hx | x l _ IH]; simpl.
  - rewrite Hx. reflexivity.
  - rewrite IH. apply andb_false_r.
Qed.

Lemma geb_nan_l x y : F64.isnan x = true -> F64.geb x y = false.
Proof. intros H. unfold F64.geb. apply F64Facts.leb_nan_false_r, H. Qed.

Lemma geb_nan_r x y : F64.isnan y = true -> F64.geb x y = false.
Proof. intros H. unfold F64.geb. apply F64Facts.leb_nan_false_l, H. Qed.

(** X9: a solve that converges but leaves a [NaN] in the bus voltages or in
    the line or transformer loadings is filed as infeasible, whatever the
    limits: the profile and the exchange at the external grid go to the
    infeasible lists, nothing is printed and no list of feasible points
    changes. *)
Theorem nan_result_is_filed_infeasible
    (update : network -> profile -> result network)
    (settings : SettingReader) (net net1 : network) (b : buckets)
    (profile : profile) (w : World) (s : solver) (r : pf_result) :
  update net profile = Ok net1 ->
  runpp (pf w) net1 = (s, Some r) ->
  Exists (fun x => F64.isnan x = true)
         (res_bus_vm_pu r ++ res_line_loading_percent r
          ++ res_trafo_loading_percent r) ->
  sweep_body update settings (net, b) profile w
  = (Ok (mk_net (sgen net1) (load net1) r,
         append_non_flexible b (res_ext_grid_p_mw r, res_ext_grid_q_mvar r)
                             profile),
     mk_world (rng w) (clock w) (ticks w) (stdout w) s).
Proof.
  intros Hupd Hrun Hnan. unfold sweep_body.
  cbv [mbind M_bind lift pp_runpp]. rewrite Hupd, Hrun.
  cbn [option_map res sgen load].
  replace (_ && _ && _) with false; [reflexivity|].
  symmetry. rewrite !Exists_app in Hnan.
  destruct Hnan as [H | [H | H]].
  - replace (check_voltage_limits _ _ _) with false; [reflexivity|].
    symmetry. apply forallb_Exists_false.
    eapply Exists_impl; [exact H|]. cbv beta. intros x Hx.
    rewrite (geb_nan_r _ x Hx). reflexivity.
  - replace (check_line_current_limits _ _) with false;
      [rewrite andb_false_r; reflexivity|].
    symmetry. apply forallb_Exists_false. cbn [res].
    eapply Exists_impl; [exact H|]. cbv beta. intros x Hx.
    apply geb_nan_r, F64Facts.abs_nan, Hx.
  - replace (check_trafo_current_limits _ _) with false;
      [apply andb_false_r|].
    symmetry. apply forallb_Exists_false. cbn [res].
    eapply Exists_impl; [exact H|]. cbv beta. intros x Hx.
    apply geb_nan_r, F64Facts.abs_nan, Hx.
Qed.

End SweepOutcome.

(** ** More on the sampler *)

Section SamplerValues.
Context `{Gen : Generator} `{Pf : Solver}.

Lemma mapM_result_seq_lookup {B} (f : nat -> result B) n r k y :
  mapM f (seq 0 n) = Ok r -> r !! k = Some y -> k < n /\ f k = Ok y.
Proof.
  intros H Hk.
  assert (Hlt : k < n).
  { apply lookup_lt_Some in Hk.
    rewrite (mapM_result_length _ _ _ H), length_seq in Hk. exact Hk. }
  split; [exact Hlt|].
  destruct (mapM_result_lookup _ _ _ k k H) as (y' & Hy' & E).
  { rewrite lookup_seq_lt by assumption. reflexivity. }
  congruence.
Qed.

Lemma sample_new_non_mp_point_entry sgen (random_p : array2) n profs j pj i e :
  sample_new_non_mp_point sgen random_p n = Ok profs ->
  profs !! j = Some pj -> pj !! i = Some e ->
  j < n /\ i < length sgen /\ new_non_mp_point sgen random_p j i = Ok e.
Proof.
  intros H Hj Hi. unfold sample_new_non_mp_point in H.
  destruct (mapM_result_seq_lookup _ _ _ _ _ H Hj) as (Hjn & Hin).
  destruct (mapM_result_seq_lookup _ _ _ _ _ Hin Hi) as (Hil & E).
  auto.
Qed.

Lemma sample_new_point_entry_inv sgen (random_p : array2) n profs j pj i e :
  sample_new_point sgen random_p n = Ok profs ->
  profs !! j = Some pj -> pj !! i = Some e ->
  j < n /\ i < length sgen /\ new_point sgen random_p j i = Ok e.
Proof.
  intros H Hj Hi. unfold sample_new_point in H.
  destruct (mapM_result_seq_lookup _ _ _ _ _ H Hj) as (Hjn & Hin).
  destruct (mapM_result_seq_lookup _ _ _ _ _ Hin Hi) as (Hil & E).
  auto.
Qed.

(** What [new_non_mp_point] read and what it computed from it. *)
Lemma new_non_mp_point_inv sgen (random_p : array2) j i e :
  new_non_mp_point sgen random_p j i = Ok e ->
  exists g row x r1,
    sgen !! i = Some g /\ random_p !! (length sgen * j + i) = Some row
    /\ row !! 0 = Some x /\ row !! 1 = Some r1
    /\ e = (let p_new :=
              if F64.geb x 1 then sn_mva g
              else if (x <=? 0)%float then 0%float
              else (sn_mva g * x)%float in
            let q_max := sqrt (F64.pow2 (sn_mva g) - F64.pow2 p_new)%float in
            (p_new,
             if F64.geb q_max (abs (sn_mva g * r1)%float)
             then (F64.neg1_pow j * sn_mva g * r1)%float
             else (F64.neg1_pow j * q_max)%float)).
Proof.
  unfold new_non_mp_point, index, loc. intros H.
  destruct (random_p !! _) as [row|] eqn:Hrow; [|discriminate]. cbn in H.
  destruct (row !! 0) as [x|] eqn:Hx; [|discriminate]. cbn in H.
  destruct (sgen !! i) as [g|] eqn:Hg; [|discriminate]. cbn in H.
  destruct (row !! 1) as [r1|] eqn:Hr1; [|discriminate]. cbn in H.
  injection H as <-. exists g, row, x, r1. auto.
Qed.

(** X10: every entry [(P, Q)] that [sample_new_non_mp_point] returns stays
    within the reactive budget [q_max = sqrt(sn_mva^2 - P^2)] of its
    generator in magnitude, unless that budget is not a number. *)
Theorem sample_new_non_mp_point_within_budget
    (sgen : list unit_row) (random_p : array2) (no_samples : nat)
    (profs : list profile) (j i : nat) (pj : profile) (e : pq) (g : unit_row) :
  sample_new_non_mp_point sgen random_p no_samples = Ok profs ->
  profs !! j = Some pj -> pj !! i = Some e -> sgen !! i = Some g ->
  F64.isnan (sqrt (F64.pow2 (sn_mva g) - F64.pow2 (fst e))) = false ->
  (abs (snd e) <=? sqrt (F64.pow2 (sn_mva g) - F64.pow2 (fst e)))%float = true.
Proof.
  intros H Hj Hi Hg.
  destruct (sample_new_non_mp_point_entry _ _ _ _ _ _ _ _ H Hj Hi)
    as (_ & _ & E).
  destruct (new_non_mp_point_inv _ _ _ _ _ E)
    as (g' & row & x & r1 & Hg' & _ & _ & _ & ->).
  rewrite Hg in Hg'. injection Hg' as <-. cbn [fst snd].
  set (q_max := sqrt _). intros Hnan.
  destruct (F64.geb q_max (abs (sn_mva g * r1))) eqn:Hb.
  - rewrite F64Facts.abs_neg1_pow_mul_mul. exact Hb.
  - rewrite F64Facts.neg1_pow_mul_abs. apply F64Facts.sqrt_abs_leb, Hnan.
Qed.

(** X11: in [sample_new_non_mp_point] too the sign of Q comes from the
    parity of the iteration alone: a generator that gets the same two raw
    values in iterations [j] and [j + 1] has the same P in both, and Q
    negated. *)
Theorem sample_new_non_mp_point_sign_alternates
    (sgen : list unit_row) (random_p : array2) (no_samples : nat)
    (profs : list profile) (j i : nat) (pj pj' : profile) (e e' : pq)
    (row row' : list float) :
  sample_new_non_mp_point sgen random_p no_samples = Ok profs ->
  profs !! j = Some pj -> pj !! i = Some e ->
  profs !! S j = Some pj' -> pj' !! i = Some e' ->
  random_p !! (length sgen * j + i) = Some row ->
  random_p !! (length sgen * S j + i) = Some row' ->
  row !! 0 = row' !! 0 -> row !! 1 = row' !! 1 ->
  fst e' = fst e /\ snd e' = (- snd e)%float.
Proof.
  intros H Hj Hi Hj' Hi' Hrow Hrow' H0 H1.
  destruct (sample_new_non_mp_point_entry _ _ _ _ _ _ _ _ H Hj Hi)
    as (_ & _ & E).
  destruct (sample_new_non_mp_point_entry _ _ _ _ _ _ _ _ H Hj' Hi')
    as (_ & _ & E').
  destruct (new_non_mp_point_inv _ _ _ _ _ E)
    as (g & r & x & r1 & Hg & Hr & Hx & Hr1 & ->).
  destruct (new_non_mp_point_inv _ _ _ _ _ E')
    as (g' & r' & x' & r1' & Hg' & Hr' & Hx' & Hr1' & ->).
  rewrite Hg in Hg'. injection Hg' as <-.
  rewrite Hrow in Hr. injection Hr as <-.
  rewrite Hrow' in Hr'. injection Hr' as <-.
  rewrite <- H0, Hx in Hx'. injection Hx' as <-.
  rewrite <- H1, Hr1 in Hr1'. injection Hr1' as <-.
  cbn [fst snd]. split; [reflexivity|].
  rewrite F64Facts.neg1_pow_S.
  match goal with
  | |- (if ?b then _ else _) = _ => destruct b
  end; rewrite !F64Facts.mul_opp_l; reflexivity.
Qed.

(** What [new_load_point] read and what it computed from it. *)
Lemma new_load_point_inv loads (random_p : array2) report k i w y w1 :
  new_load_point loads random_p report k i w = (Ok y, w1) ->
  exists l row x r1,
    loads !! i = Some l /\ random_p !! k = Some row
    /\ row !! 0 = Some x /\ row !! 1 = Some r1
    /\ rng w1 = rng w
    /\ y = (let p_new :=
              (load_change * (if F64.geb x 1 then p_mw l
                              else if (x <=? 0)%float then 0%float
                              else (p_mw l * x)%float))%float in
            let q_max :=
              sqrt (load_change * load_change * F64.pow2 (sn_mva l)
                    - F64.pow2 p_new)%float in
            (p_new,
             (load_change
              * (if F64.geb q_max (abs (load_change * q_mvar l * r1)%float)
                 then (q_mvar l * r1)%float else q_max))%float)).
Proof.
  unfold new_load_point. intros H. inv_M.
  apply index_Ok in Ha, Ha0, Ha3. apply loc_Ok in Ha1.
  eexists _, _, _, _. repeat (split; [eassumption|]).
  split; [|reflexivity].
  destruct (report && _).
  - unfold print in Ha2. injection Ha2 as _ <-. reflexivity.
  - apply M_ret_Ok in Ha2 as [_ ->]. reflexivity.
Qed.


Lemma mapM_M_lookup_inv {A B} (f : A -> M B) l w r w' k y :
  mapM f l w = (Ok r, w') -> r !! k = Some y ->
  (forall x w y w1, f x w = (Ok y, w1) ->
     exists out, stdout w1 = stdout w ++ out) ->
  exists x wa wb, l !! k = Some x /\ f x wa = (Ok y, wb).
Proof.
  intros H Hk Hmono.
  destruct (lookup_lt_is_Some_2 l k) as [x Hx].
  { rewrite <- (mapM_M_length _ _ _ _ _ H). eapply lookup_lt_Some, Hk. }
  destruct (mapM_M_lookup f l Hmono _ _ _ _ _ H Hx)
    as (y' & wa & wb & _ & _ & Hy' & E & _).
  rewrite Hk in Hy'. injection Hy' as <-. eauto.
Qed.

(** Which call of [new_load_point] made entry [idx] of profile [j]. *)
Lemma sample_new_load_point_entry loads (random_p : array2) n fl w profs w'
    j pj idx e :
  sample_new_load_point loads random_p n fl w = (Ok profs, w') ->
  profs !! j = Some pj -> pj !! idx = Some e ->
  exists i report k wa wb,
    (fl = [] /\ i = idx \/ fl !! idx = Some i)
    /\ new_load_point loads random_p report k i wa = (Ok e, wb).
Proof.
  intros H Hj Hidx. unfold sample_new_load_point in H.
  destruct fl as [|i0 fl].
  - destruct (mapM_M_lookup_inv _ _ _ _ _ _ _ H Hj)
      as (j' & wa & wb & _ & Hin).
    { intros ? ? ? ?. apply mapM_appends.
      intros ? ? ? ?. apply new_load_point_appends. }
    destruct (mapM_M_lookup_inv _ _ _ _ _ _ _ Hin Hidx)
      as (i & wc & wd & Hi & E).
    { intros ? ? ? ?. apply new_load_point_appends. }
    apply lookup_seq in Hi as [Hi _]. simpl in Hi. subst i.
    eexists _, _, _, _, _. split; [left; split; reflexivity | exact E].
  - set (flex := i0 :: fl) in *.
    destruct (mapM_M_lookup_inv _ _ _ _ _ _ _ H Hj)
      as (j' & wa & wb & _ & Hin).
    { intros ? ? ? ?. apply mapM_appends.
      intros [? ?] ? ? ?. apply new_load_point_appends. }
    destruct (mapM_M_lookup_inv _ _ _ _ _ _ _ Hin Hidx)
      as ([idx' i] & wc & wd & Hi & E).
    { intros [? ?] ? ? ?. apply new_load_point_appends. }
    rewrite list_lookup_imap in Hi.
    destruct (flex !! idx) as [i'|] eqn:Hfl; [|discriminate].
    injection Hi as <- <-.
    eexists _, _, _, _, _. split; [right; reflexivity | exact E].
Qed.

(** X12: every entry [(P, Q)] that [sample_new_load_point] returns belongs
    to a load of the table (load [idx] when no list of flexible loads is
    given, load [flex_loads[idx]] otherwise) and stays within the reactive
    budget [q_max = sqrt(sn_mva^2 - P^2)] of that load in magnitude; when
    the budget is not a number, neither is Q. *)
Theorem sample_new_load_point_within_budget
    (loads : list unit_row) (random_p : array2) (no_samples : nat)
    (flex_loads : list nat) (w w' : World) (profs : list profile)
    (j idx : nat) (pj : profile) (e : pq) :
  sample_new_load_point loads random_p no_samples flex_loads w
    = (Ok profs, w') ->
  profs !! j = Some pj -> pj !! idx = Some e ->
  exists i l,
    (flex_loads = [] /\ i = idx \/ flex_loads !! idx = Some i)
    /\ loads !! i = Some l
    /\ let q_max := sqrt (F64.pow2 (sn_mva l) - F64.pow2 (fst e))%float in
       (F64.isnan q_max = false -> (abs (snd e) <=? q_max)%float = true)
       /\ (F64.isnan q_max = true -> F64.isnan (snd e) = true).
Proof.
  intros H Hj Hidx.
  destruct (sample_new_load_point_entry _ _ _ _ _ _ _ _ _ _ _ H Hj Hidx)
    as (i & report & k & wa & wb & Hi & E).
  destruct (new_load_point_inv _ _ _ _ _ _ _ _ E)
    as (l & row & x & r1 & Hl & _ & _ & _ & _ & ->).
  exists i, l. split; [exact Hi|]. split; [exact Hl|].
  cbn [fst snd]. unfold load_change.
  change (1 * 1)%float with 1%float. rewrite !F64Facts.mul_1_l.
  set (q_max := sqrt _). cbv zeta. split; intros Hnan.
  - destruct (F64.geb q_max (abs (q_mvar l * r1))) eqn:Hb; [exact Hb|].
    apply F64Facts.sqrt_abs_leb, Hnan.
  - rewrite geb_nan_l by exact Hnan. exact Hnan.
Qed.

Lemma rng_fill2_stdout draw rows cols w r w1 :
  rng_fill2 draw rows cols w = (r, w1) -> stdout w1 = stdout w.
Proof.
  unfold rng_fill2. destruct (fill2 _ _ _ _). intros [= _ <-]. reflexivity.
Qed.

(** Drawing the raw array prints nothing. *)
Lemma sample_from_rng_stdout d n dof w r w1 :
  sample_from_rng d n dof w = (r, w1) -> stdout w1 = stdout w.
Proof.
  unfold sample_from_rng, rng_normal, rng_uniform.
  destruct (String.eqb d "Normal"); [apply rng_fill2_stdout|].
  destruct (String.eqb d "Uniform"); [apply rng_fill2_stdout|].
  destruct (String.eqb d "Normal_Limits_Oriented").
  - destruct (dof =? 1); [apply rng_fill2_stdout|].
    destruct (dof =? 2); [|intros [= _ <-]; reflexivity].
    repeat match goal with
    | |- (rng_fill2 ?d ?r ?c ≫= ?k) ?w0 = _ -> _ =>
        let a := fresh "a" in let w1 := fresh "w" in
        let E := fresh "E" in let S := fresh "S" in
        destruct (rng_fill2_Ok d r c w0) as (a & w1 & E & _ & _ & _ & S);
        rewrite (M_bind_run _ k _ _ _ E)
    end.
    intros [= _ <-]. congruence.
  - destruct (String.eqb d "No_change"); intros [= _ <-]; reflexivity.
Qed.

Lemma sample_from_rng_No_change n dof w :
  sample_from_rng "No_change" n dof w = (Ok (np_ones n dof), w).
Proof. reflexivity. Qed.

Lemma np_ones_lookup rows cols k row :
  np_ones rows cols !! k = Some row -> row = replicate cols 1%float.
Proof. unfold np_ones. intros H. apply lookup_replicate in H as [-> _]. reflexivity. Qed.

Lemma replicate_ones_lookup cols k (x : float) :
  replicate cols 1%float !! k = Some x -> x = 1%float.
Proof. intros H. apply lookup_replicate in H as [-> _]. reflexivity. Qed.

Lemma create_samples_stdout n net d k w p dur w' :
  create_samples n net d k w = (Ok (p, dur), w') ->
  stdout w' = stdout w ++ [PrintSampled n d dur].
Proof.
  unfold create_samples. cbv [mbind M_bind time_time]. destruct k.
  - destruct (sample_from_rng d _ 1 _) as [[a|e] w1] eqn:Es; [|discriminate].
    apply sample_from_rng_stdout in Es. unfold lift.
    destruct (sample_new_point _ _ _); [|discriminate].
    cbv [print mret M_ret]. intros [= <- <- <-]. simpl. rewrite Es.
    reflexivity.
  - destruct (sample_from_rng d _ 2 _) as [[a|e] w1] eqn:Es; [|discriminate].
    apply sample_from_rng_stdout in Es. unfold lift.
    destruct (sample_new_non_mp_point _ _ _); [|discriminate].
    cbv [print mret M_ret]. intros [= <- <- <-]. simpl. rewrite Es.
    reflexivity.
Qed.

(** The profiles that [create_samples] returns for ['No_change']. *)
Lemma create_samples_No_change_entries n net keep_mp w profs dur w' :
  create_samples n net "No_change" keep_mp w = (Ok (profs, dur), w') ->
  rng w' = rng w
  /\ forall j pj i e g,
       profs !! j = Some pj -> pj !! i = Some e -> sgen net !! i = Some g ->
       fst e = sn_mva g
       /\ (is_finite (F64.pow2 (sn_mva g)) = true -> abs (snd e) = 0%float).
Proof.
  intros H.
  unfold create_samples in H. cbv [mbind M_bind time_time] in H.
  destruct keep_mp; rewrite sample_from_rng_No_change in H; unfold lift in H.
  - destruct (sample_new_point _ _ _) as [ps|] eqn:Hs; [|discriminate].
    cbv [print mret M_ret] in H. injection H as <- _ <-.
    split; [reflexivity|].
    intros j pj i e g Hj Hi Hg.
    destruct (sample_new_point_entry_inv _ _ _ _ _ _ _ _ Hs Hj Hi)
      as (Hjn & Hil & E).
    unfold new_point, index, loc in E.
    destruct (np_ones _ _ !! _) as [row|] eqn:Hrow; [|discriminate].
    apply np_ones_lookup in Hrow. subst row. cbn in E.
    rewrite Hg in E. cbn in E. injection E as <-. cbn [fst snd].
    rewrite F64Facts.mul_1_r. split; [reflexivity|].
    intros Hfin. unfold F64.pow2 in *. rewrite (F64Facts.sub_diag _ Hfin).
    change (sqrt 0) with 0%float. apply F64Facts.neg1_pow_mul_abs.
  - destruct (sample_new_non_mp_point _ _ _) as [ps|] eqn:Hs; [|discriminate].
    cbv [print mret M_ret] in H. injection H as <- _ <-.
    split; [reflexivity|].
    intros j pj i e g Hj Hi Hg.
    destruct (sample_new_non_mp_point_entry _ _ _ _ _ _ _ _ Hs Hj Hi)
      as (Hjn & Hil & E).
    destruct (new_non_mp_point_inv _ _ _ _ _ E)
      as (g' & row & x & r1 & Hg' & Hrow & Hx & Hr1 & ->).
    rewrite Hg in Hg'. injection Hg' as <-.
    apply np_ones_lookup in Hrow. subst row.
    apply replicate_ones_lookup in Hx, Hr1. subst x r1.
    change (F64.geb 1 1) with true. cbv iota zeta. cbn [fst snd].
    split; [reflexivity|].
    intros Hfin. unfold F64.pow2 in *. rewrite (F64Facts.sub_diag _ Hfin).
    change (sqrt 0) with 0%float.
    destruct (F64.geb 0 (abs (sn_mva g * 1))) eqn:Hb.
    + rewrite F64Facts.abs_neg1_pow_mul_mul.
      apply F64Facts.abs_leb_zero. exact Hb.
    + apply F64Facts.neg1_pow_mul_abs.
Qed.




Lemma valid_distribution_dec d :
  {valid_distribution d}
  + {String.eqb d "Normal" = false /\ String.eqb d "Uniform" = false
     /\ String.eqb d "Normal_Limits_Oriented" = false
     /\ String.eqb d "No_change" = false /\ ~ valid_distribution d}.
Proof.
  unfold valid_distribution.
  destruct (String.eqb_spec d "Normal"); [auto|].
  destruct (String.eqb_spec d "Uniform"); [auto|].
  destruct (String.eqb_spec d "Normal_Limits_Oriented"); [auto|].
  destruct (String.eqb_spec d "No_change"); [auto|].
  right. repeat split; auto. intros [? | [? | [? | ?]]]; contradiction.
Qed.

(** X15: for the service ['DG only'] the distribution tag decides the
    outcome of [profile_creation].  With one of the four tags that
    [sample_from_rng] knows it returns [no_samples] profiles, each with one
    entry per generator, and prints the one line on the sampling time;
    with any other tag it raises the [AssertionError] of
    [sample_from_rng] and prints nothing. *)
Theorem profile_creation_DG_only_outcome
    (no_samples : nat) (net : network) (distribution : string)
    (keep_mp : bool) (flexible_loads : list nat) (w : World) :
  match profile_creation no_samples net distribution keep_mp "DG only"
                         flexible_loads w with
  | (Ok (profiles, dur), w') =>
      valid_distribution distribution
      /\ length profiles = no_samples
      /\ Forall (fun p => length p = length (sgen net)) profiles
      /\ stdout w' = stdout w ++ [PrintSampled no_samples distribution dur]
  | (Raise e, w') =>
      ~ valid_distribution distribution
      /\ e = AssertionError
               ("Please specify a viable sampling distribution, i.e. 'Normal', 'Uniform', "
                +:+ "'Normal_Limits_Oriented' or 'No_change'. Not "
                +:+ distribution)
      /\ stdout w' = stdout w
  end.
Proof.
  unfold profile_creation. cbv [mbind M_bind RandomState_init].
  cbn [String.eqb Ascii.eqb Bool.eqb].
  set (w0 := mk_world _ _ _ _ _).
  destruct (valid_distribution_dec distribution)
    as [Hd | (E1 & E2 & E3 & E4 & Hd)].
  - destruct (create_samples_returns no_samples net distribution keep_mp w0 Hd)
      as (p & dur & w' & H & L & F).
    rewrite H. apply create_samples_stdout in H.
    repeat split; assumption.
  - unfold create_samples, sample_from_rng.
    cbv [mbind M_bind time_time]. rewrite E1, E2, E3, E4.
    destruct keep_mp; cbv [raise]; repeat split; auto.
Qed.

End SamplerValues.

(** ** From the sampler to the sweep *)

Section Pipeline.
Context `{Gen : Generator} `{Pf : Solver}.

(** X16: the batch that [profile_creation] makes for the service
    ['DG only'] always fits the sweep that [all_pf_simulations] runs for
    that service on the same network: the sampler returns, the sweep
    returns, whatever the solver answers and whichever generators are
    flexible, and the feasible points, the infeasible points and the
    reported failures of the sweep add up to [no_samples]. *)
Theorem dg_only_pipeline_accounts
    (no_samples : nat) (net : network) (distribution : string)
    (keep_mp : bool) (flexible_loads : list nat) (settings : SettingReader)
    (w : World) :
  valid_distribution distribution ->
  fsps settings = "DG only" ->
  exists profiles dur w1 b dur_pf w2,
    profile_creation no_samples net distribution keep_mp "DG only"
                     flexible_loads w = (Ok (profiles, dur), w1)
    /\ all_pf_simulations settings net profiles w1 = (Ok (b, dur_pf), w2)
    /\ aligned b
    /\ length (prof_flexible b) + length (prof_non_flexible b)
       + skipped_count (stdout w2) = no_samples + skipped_count (stdout w).
Proof.
  intros Hd Hfsps.
  set (w0 := mk_world (RandomState_seed 21) (clock w) (ticks w) (stdout w)
                      (pf w)).
  destruct (create_samples_returns no_samples net distribution keep_mp w0 Hd)
    as (profiles & dur & w1 & H & L & F).
  assert (Hout : skipped_count (stdout w1) = skipped_count (stdout w)).
  { apply create_samples_stdout in H. rewrite H, skipped_count_snoc.
    simpl. lia. }
  assert (A0 : aligned no_buckets) by (unfold aligned; simpl; auto).
  destruct (sweep_loop_accounts
              (fun net profile =>
                 update_pqs net (fsp_wt settings) (fsp_pv settings)
                            (Some profile) 1 1)
              settings net
              (fun p => length p <= length (sgen net))) with
      (batch := profiles) (net := net) (b := no_buckets)
      (w := mk_world (rng w1) (clock w1) (S (ticks w1)) (stdout w1) (pf w1))
    as (net' & b' & w2 & E & A & C); auto.
  { intros n1 p L1 Hp. rewrite <- L1 in Hp.
    destruct (update_pqs_Ok n1 (fsp_wt settings) (fsp_pv settings) p 1 1 Hp)
      as (n2 & -> & L2). eexists. split; [reflexivity|]. congruence. }
  { eapply Forall_impl; [exact F|]. cbv beta. intros p ->. lia. }
  assert (R : exists b dur_pf w3,
            run_all_samples settings net profiles w1 = (Ok (b, dur_pf), w3)
            /\ aligned b
            /\ length (prof_flexible b) + length (prof_non_flexible b)
               + skipped_count (stdout w3)
               = length profiles + skipped_count (stdout w1)).
  { unfold run_all_samples.
    eapply sweep_epilogue_accounts; eauto; [].
    intros t0 t1 w3. eexists. split; [reflexivity|]. simpl.
    rewrite !skipped_count_snoc. simpl. lia. }
  destruct R as (b & dur_pf & w3 & R & A' & C').
  exists profiles, dur, w1, b, dur_pf, w3.
  split; [|split; [|split; [exact A'|]]].
  - unfold profile_creation. cbv [mbind M_bind RandomState_init].
    cbn [String.eqb Ascii.eqb Bool.eqb]. exact H.
  - unfold all_pf_simulations. rewrite Hfsps.
    cbn [String.eqb Ascii.eqb Bool.eqb]. exact R.
  - rewrite C', L, Hout. reflexivity.
Qed.

Lemma concatenate_axis1_Ok (a b c : list profile) :
  concatenate_axis1 a b = Ok c -> c = zip_with app a b.
Proof.
  unfold concatenate_axis1.
  destruct (np_shape a), (np_shape b); try discriminate.
  repeat match goal with
  | |- (if ?x then _ else _) = _ -> _ => destruct x; try discriminate
  end.
  congruence.
Qed.

Lemma mapM_M_preserves {A B} (R : World -> World -> Prop) (f : A -> M B) l :
  (forall w, R w w) -> (forall w1 w2 w3, R w1 w2 -> R w2 w3 -> R w1 w3) ->
  (forall x w y w1, f x w = (Ok y, w1) -> R w w1) ->
  forall w r w', mapM f l w = (Ok r, w') -> R w w'.
Proof.
  intros Hrefl Htrans Hf. induction l as [|x l IH]; intros w r w' H;
    simpl in H.
  - apply M_ret_Ok in H as [_ ->]. apply Hrefl.
  - apply M_bind_Ok in H as (y0 & w1 & Hy0 & H).
    apply M_bind_Ok in H as (ys & w2 & Hys & H).
    apply M_ret_Ok in H as [_ ->]. eauto.
Qed.

Lemma new_load_point_skipped loads (random_p : array2) report k i w y w1 :
  new_load_point loads random_p report k i w = (Ok y, w1) ->
  skipped_count (stdout w1) = skipped_count (stdout w).
Proof.
  unfold new_load_point. intros H. inv_M.
  destruct (report && _).
  - apply print_Ok in Ha2. rewrite Ha2, skipped_count_snoc. simpl. lia.
  - apply M_ret_Ok in Ha2 as [_ ->]. reflexivity.
Qed.

(** The load sampler reports no solve as failed. *)
Lemma create_load_samples_skipped n net d fl w p dur w' :
  create_load_samples n net d fl w = (Ok (p, dur), w') ->
  skipped_count (stdout w') = skipped_count (stdout w).
Proof.
  unfold create_load_samples. cbv [mbind M_bind time_time].
  destruct (sample_from_rng d _ 2 _) as [[a|e] w1] eqn:Es; [|discriminate].
  apply sample_from_rng_stdout in Es. simpl in Es.
  destruct (sample_new_load_point _ _ _ _ _) as [[ps|] w2] eqn:Hs;
    [|discriminate].
  cbv [print mret M_ret]. intros [= _ _ <-]. simpl.
  rewrite skipped_count_snoc. simpl. rewrite Nat.add_0_r, <- Es.
  revert Hs. unfold sample_new_load_point.
  set (R := fun w w' : World =>
              skipped_count (stdout w') = skipped_count (stdout w)).
  assert (Hrefl : forall w, R w w) by reflexivity.
  assert (Htrans : forall w1 w2 w3, R w1 w2 -> R w2 w3 -> R w1 w3)
    by (unfold R; intros; congruence).
  destruct fl as [|i0 fl].
  - apply (mapM_M_preserves R); auto. intros j.
    apply (mapM_M_preserves R); auto. intros i.
    apply new_load_point_skipped.
  - apply (mapM_M_preserves R); auto. intros j.
    apply (mapM_M_preserves R); auto. intros [idx i].
    apply new_load_point_skipped.
Qed.

(** What [profile_creation] returns for the service ['Load only']. *)
Lemma profile_creation_Load_only_returns n net d keep_mp fl w :
  0 < n -> valid_distribution d -> 0 < length (sgen net) ->
  0 < flex_load_len net fl ->
  Forall (fun i => i < length (load net)) fl ->
  exists p1 p2 dur w',
    profile_creation n net d keep_mp "Load only" fl w
      = (Ok (zip_with app p1 p2, dur), w')
    /\ length p1 = n /\ Forall (fun r => length r = length (sgen net)) p1
    /\ length p2 = n /\ Forall (fun r => length r = flex_load_len net fl) p2
    /\ skipped_count (stdout w') = skipped_count (stdout w)
    /\ forall j pj i e g,
         p1 !! j = Some pj -> pj !! i = Some e -> sgen net !! i = Some g ->
         fst e = sn_mva g
         /\ (is_finite (F64.pow2 (sn_mva g)) = true -> abs (snd e) = 0%float).
Proof.
  intros Hn Hd Hg Hl Hfl.
  assert (Hnc : valid_distribution "No_change")
    by (unfold valid_distribution; auto).
  set (w0 := mk_world (RandomState_seed 21) (clock w) (ticks w) (stdout w)
                      (pf w)).
  destruct (create_samples_returns n net "No_change" keep_mp w0 Hnc)
    as (p1 & d1 & w1 & E1 & L1 & R1).
  destruct (create_load_samples_returns n net d fl w1 Hd Hfl)
    as (p2 & d2 & w2 & E2 & L2 & R2).
  destruct (concatenate_axis1_returns p1 p2 n (length (sgen net))
              (flex_load_len net fl)) as (c & Ec & _ & _); try assumption.
  pose proof (concatenate_axis1_Ok _ _ _ Ec) as ->.
  exists p1, p2, (d1 + d2)%float, w2.
  split; [|repeat split; try assumption].
  - unfold profile_creation. rewrite bind_RandomState_init.
    cbn [String.eqb Ascii.eqb Bool.eqb]. fold w0.
    rewrite (M_bind_run _ _ _ _ _ E1). cbv beta iota.
    rewrite (M_bind_run _ _ _ _ _ E2). cbv beta iota.
    rewrite (M_bind_run _ _ _ _ _ (lift_run _ _ _ Ec)). reflexivity.
  - rewrite (create_load_samples_skipped _ _ _ _ _ _ _ _ E2).
    apply create_samples_stdout in E1. rewrite E1, skipped_count_snoc.
    simpl. lia.
  - eapply (create_samples_No_change_entries _ _ _ _ _ _ _ E1); eassumption.
  - eapply (create_samples_No_change_entries _ _ _ _ _ _ _ E1); eassumption.
Qed.

(** X17: the service ['Load only'] does not hold the generators where they
    are.  [profile_creation] returns [no_samples] profiles with an entry for
    every generator followed by an entry for every flexible load, and the
    entry of each generator is its rated power [sn_mva] with, when
    [sn_mva^2] is finite, a zero Q. *)
Theorem profile_creation_Load_only_generators
    (no_samples : nat) (net : network) (distribution : string)
    (keep_mp : bool) (flexible_loads : list nat) (w : World) :
  0 < no_samples -> valid_distribution distribution ->
  0 < length (sgen net) -> 0 < flex_load_len net flexible_loads ->
  Forall (fun i => i < length (load net)) flexible_loads ->
  exists profiles dur w',
    profile_creation no_samples net distribution keep_mp "Load only"
                     flexible_loads w = (Ok (profiles, dur), w')
    /\ length profiles = no_samples
    /\ forall j pj, profiles !! j = Some pj ->
         length pj = length (sgen net) + flex_load_len net flexible_loads
         /\ forall i g, sgen net !! i = Some g ->
              exists e, pj !! i = Some e /\ fst e = sn_mva g
                /\ (is_finite (F64.pow2 (sn_mva g)) = true ->
                    abs (snd e) = 0%float).
Proof.
  intros Hn Hd Hg Hl Hfl.
  destruct (profile_creation_Load_only_returns no_samples net distribution
              keep_mp flexible_loads w Hn Hd Hg Hl Hfl)
    as (p1 & p2 & dur & w' & H & L1 & R1 & L2 & R2 & _ & V).
  exists (zip_with app p1 p2), dur, w'. split; [exact H|].
  split; [rewrite length_zip_with; lia|].
  intros j pj Hj. apply lookup_zip_with_Some in Hj
    as (a & b & -> & Ha & Hb).
  pose proof (proj1 (Forall_lookup _ _) R1 _ _ Ha) as La.
  pose proof (proj1 (Forall_lookup _ _) R2 _ _ Hb) as Lb.
  cbv beta in La, Lb.
  split; [rewrite length_app; lia|].
  intros i g Hi.
  destruct (lookup_lt_is_Some_2 a i) as [e He].
  { rewrite La. eapply lookup_lt_Some, Hi. }
  exists e. split; [rewrite lookup_app_l by (eapply lookup_lt_Some, He); exact He|].
  exact (V j a i e g Ha He Hi).
Qed.

(** X18: the batch that [profile_creation] makes for the service
    ['Load only'] from an explicit list of flexible loads fits the sweep
    that [all_pf_simulations] runs for that service with the same list: the
    sampler returns, the sweep returns, and the feasible points, the
    infeasible points and the reported failures add up to [no_samples]. *)
Theorem load_only_pipeline_accounts
    (no_samples : nat) (net : network) (distribution : string)
    (keep_mp : bool) (settings : SettingReader) (w : World) :
  0 < no_samples -> valid_distribution distribution ->
  0 < length (sgen net) -> fsp_load settings <> [] ->
  Forall (fun i => i < length (load net)) (fsp_load settings) ->
  fsps settings = "Load only" ->
  exists profiles dur w1 b dur_pf w2,
    profile_creation no_samples net distribution keep_mp "Load only"
                     (fsp_load settings) w = (Ok (profiles, dur), w1)
    /\ all_pf_simulations settings net profiles w1 = (Ok (b, dur_pf), w2)
    /\ aligned b
    /\ length (prof_flexible b) + length (prof_non_flexible b)
       + skipped_count (stdout w2) = no_samples + skipped_count (stdout w).
Proof.
  intros Hn Hd Hg Hne Hfl Hfsps.
  assert (Hlen : flex_load_len net (fsp_load settings)
                 = length (fsp_load settings)).
  { unfold flex_load_len. destruct (fsp_load settings); congruence. }
  assert (Hl : 0 < flex_load_len net (fsp_load settings)).
  { rewrite Hlen. destruct (fsp_load settings); [congruence|simpl; lia]. }
  destruct (profile_creation_Load_only_returns no_samples net distribution
              keep_mp (fsp_load settings) w Hn Hd Hg Hl Hfl)
    as (p1 & p2 & dur & w1 & H & L1 & R1 & L2 & R2 & Hout & _).
  set (profiles := zip_with app p1 p2) in *.
  assert (L : length profiles = no_samples)
    by (unfold profiles; rewrite length_zip_with; lia).
  assert (F : Forall (fun p => length p <= length (sgen net)
                                           + length (fsp_load settings))
                     profiles).
  { rewrite <- Hlen. eapply Forall_impl;
      [apply (zip_with_app_rows p1 p2 _ _ R1 R2)|].
    cbv beta. intros p ->. lia. }
  assert (A0 : aligned no_buckets) by (unfold aligned; simpl; auto).
  destruct (sweep_loop_accounts
              (fun net profile =>
                 update_pqs_wl net (fsp_wt settings) (fsp_pv settings)
                               (Some profile) 1 1 (fsp_load settings))
              settings net
              (fun p => length p <= length (sgen net)
                                    + length (fsp_load settings))) with
      (batch := profiles) (net := net) (b := no_buckets)
      (w := mk_world (rng w1) (clock w1) (S (ticks w1)) (stdout w1) (pf w1))
    as (net' & b' & w2 & E & A & C); auto.
  { intros n1 p La Hp. rewrite <- La in Hp.
    destruct (update_pqs_wl_Ok n1 (fsp_wt settings) (fsp_pv settings) p 1 1
                (fsp_load settings) Hp)
      as (n2 & -> & L2'). eexists. split; [reflexivity|]. congruence. }
  assert (R : exists b dur_pf w3,
            run_all_samples_wl settings net profiles w1
              = (Ok (b, dur_pf), w3)
            /\ aligned b
            /\ length (prof_flexible b) + length (prof_non_flexible b)
               + skipped_count (stdout w3)
               = length profiles + skipped_count (stdout w1)).
  { unfold run_all_samples_wl.
    eapply sweep_epilogue_accounts; eauto; [].
    intros t0 t1 w3. eexists. split; [reflexivity|]. simpl.
    rewrite !skipped_count_snoc. simpl. lia. }
  destruct R as (b & dur_pf & w3 & R & A' & C').
  exists profiles, dur, w1, b, dur_pf, w3.
  split; [exact H|]. split; [|split; [exact A'|]].
  - unfold all_pf_simulations. rewrite Hfsps.
    cbn [String.eqb Ascii.eqb Bool.eqb orb]. exact R.
  - rewrite C', L, Hout. reflexivity.
Qed.

End Pipeline.

(** ** The result file *)

Section ResultFile.

(** The loop that copies a pair of lists into a pair of zero arrays. *)
Local Abbreviation copy_body xs ys :=
  (fun (df : list float * list float) i =>
     x ← index xs i;
     y ← index ys i;
     mret (<[i := x]> (fst df), <[i := y]> (snd df))) (only parsing).

Lemma insert_padded (l : list float) n m x :
  n < m -> length l = n ->
  <[n := x]> (l ++ replicate (m - n) 0%float)
  = (l ++ [x]) ++ replicate (m - S n) 0%float.
Proof.
  intros Hn Hl. rewrite insert_app_r_alt by lia.
  replace (n - length l) with 0 by lia.
  replace (m - n) with (S (m - S n)) by lia.
  rewrite <- app_assoc. reflexivity.
Qed.

Lemma copy_rounds (xs ys : list float) m n :
  n <= length xs -> n <= length ys -> n <= m ->
  for_each (copy_body xs ys) (np_zeros m, np_zeros m) (seq 0 n)
  = Ok (take n xs ++ replicate (m - n) 0%float,
        take n ys ++ replicate (m - n) 0%float).
Proof.
  induction n as [|n IH]; intros Hx Hy Hm.
  - rewrite !take_0, Nat.sub_0_r. reflexivity.
  - rewrite seq_S, for_each_result_app, IH by lia.
    cbn [mbind result_bind for_each Nat.add fst snd].
    destruct (lookup_lt_is_Some_2 xs n) as [x Ex]; [lia|].
    destruct (lookup_lt_is_Some_2 ys n) as [y Ey]; [lia|].
    unfold index. rewrite Ex, Ey. cbn [mbind result_bind mret result_ret].
    rewrite !insert_padded by (try lia; rewrite length_take; lia).
    rewrite (take_S_r xs n x Ex), (take_S_r ys n y Ey). reflexivity.
Qed.

Lemma copy_short (xs ys : list float) m :
  length ys < length xs -> length xs <= m ->
  for_each (copy_body xs ys) (np_zeros m, np_zeros m) (seq 0 (length xs))
  = Raise IndexError.
Proof.
  intros Hy Hm.
  assert (Hsplit : seq 0 (length xs)
                   = seq 0 (length ys)
                     ++ length ys
                        :: seq (S (length ys)) (length xs - S (length ys))).
  { transitivity (seq 0 (length ys + S (length xs - S (length ys))));
      [f_equal; lia | apply seq_app]. }
  rewrite Hsplit, for_each_result_app, copy_rounds by lia.
  destruct (lookup_lt_is_Some_2 xs (length ys)) as [x Ex]; [lia|].
  assert (Ix : index xs (length ys) = Ok x)
    by (unfold index; rewrite Ex; reflexivity).
  assert (Iy : index ys (length ys) = Raise IndexError).
  { unfold index. rewrite (proj2 (lookup_ge_None ys (length ys))) by lia.
    reflexivity. }
  cbn [mbind result_bind for_each]. rewrite Ix. cbn [mbind result_bind].
  rewrite Iy. reflexivity.
Qed.

Lemma padded_lookup (l : list float) n m k :
  length l = n -> n <= m -> k < m ->
  (l ++ replicate (m - n) 0%float) !! k = Some (nth k l 0%float).
Proof.
  intros <- Hl Hk. destruct (decide (k < length l)) as [H|H].
  - rewrite lookup_app_l by assumption.
    destruct (lookup_lt_is_Some_2 l k H) as [x Ex].
    rewrite Ex, (nth_lookup_Some _ _ _ _ Ex). reflexivity.
  - rewrite lookup_app_r by lia. rewrite lookup_replicate_2 by lia.
    rewrite nth_overflow by lia. reflexivity.
Qed.

(** The frame that [write_result] builds from aligned lists. *)
Lemma write_result_frame (x_flexible x_non_flexible y_flexible
    y_non_flexible : list float) :
  length y_flexible = length x_flexible ->
  length y_non_flexible = length x_non_flexible ->
  exists rows,
    write_result x_flexible x_non_flexible y_flexible y_non_flexible = Ok rows
    /\ length rows = Nat.max (length x_flexible) (length x_non_flexible)
    /\ forall k, k < Nat.max (length x_flexible) (length x_non_flexible) ->
         rows !! k = Some (nth k x_flexible 0%float, nth k y_flexible 0%float,
                           nth k x_non_flexible 0%float,
                           nth k y_non_flexible 0%float).
Proof.
  intros Hf Hn. unfold write_result.
  set (m := Nat.max (length x_flexible) (length x_non_flexible)).
  rewrite !copy_rounds by lia. cbn [mbind result_bind mret result_ret].
  rewrite !take_ge by lia.
  eexists. split; [reflexivity|]. split.
  - rewrite !length_zip, !length_app, !length_replicate. lia.
  - intros k Hk.
    repeat (apply lookup_zip_with_Some; eexists _, _;
            split; [reflexivity|];
            split; [|apply (padded_lookup _ _ m k); lia]).
    apply (padded_lookup _ _ m k); lia.
Qed.

(** X19: from lists that are aligned (as many Q as P in each class)
    [write_result] builds a frame with as many rows as the longer class
    has points; row [k] holds the [k]-th feasible point and the [k]-th
    infeasible point, with zeros where a class has run out. *)
Theorem write_result_rows
    (x_flexible x_non_flexible y_flexible y_non_flexible : list float) :
  length y_flexible = length x_flexible ->
  length y_non_flexible = length x_non_flexible ->
  exists rows,
    write_result x_flexible x_non_flexible y_flexible y_non_flexible = Ok rows
    /\ length rows = Nat.max (length x_flexible) (length x_non_flexible)
    /\ forall k, k < Nat.max (length x_flexible) (length x_non_flexible) ->
         rows !! k = Some (nth k x_flexible 0%float, nth k y_flexible 0%float,
                           nth k x_non_flexible 0%float,
                           nth k y_non_flexible 0%float).
Proof. apply write_result_frame. Qed.

(** X20: the frame does not tell padding from data.  When there are fewer
    feasible than infeasible points, a run with one more feasible point at
    the origin gives the very same frame. *)
Theorem write_result_padding_is_ambiguous
    (x_flexible x_non_flexible y_flexible y_non_flexible : list float) :
  length y_flexible = length x_flexible ->
  length y_non_flexible = length x_non_flexible ->
  length x_flexible < length x_non_flexible ->
  write_result (x_flexible ++ [0%float]) x_non_flexible
               (y_flexible ++ [0%float]) y_non_flexible
  = write_result x_flexible x_non_flexible y_flexible y_non_flexible.
Proof.
  intros Hf Hn Hlt.
  destruct (write_result_frame x_flexible x_non_flexible y_flexible
              y_non_flexible Hf Hn) as (r1 & -> & L1 & R1).
  destruct (write_result_frame (x_flexible ++ [0%float]) x_non_flexible
              (y_flexible ++ [0%float]) y_non_flexible)
    as (r2 & -> & L2 & R2); [rewrite !length_app; simpl; lia | exact Hn |].
  rewrite length_app in L2, R2. simpl in L2, R2.
  f_equal. apply list_eq. intros k.
  destruct (decide (k < length x_non_flexible)) as [Hk|Hk].
  - rewrite R1, R2 by lia.
    assert (Hpad : forall l : list float,
              nth k (l ++ [0%float]) 0%float = nth k l 0%float).
    { intros l. destruct (decide (k < length l)).
      - apply app_nth1. assumption.
      - rewrite app_nth2 by lia. rewrite (nth_overflow l) by lia.
        destruct (k - length l) as [|[|?]]; reflexivity. }
    rewrite !Hpad. reflexivity.
  - rewrite (proj2 (lookup_ge_None r1 k)), (proj2 (lookup_ge_None r2 k))
      by lia.
    reflexivity.
Qed.

(** X21: [write_result] reads a Q for every P, so a class with fewer Q
    than P values makes it raise [IndexError]. *)
Theorem write_result_short_column_raises
    (x_flexible x_non_flexible y_flexible y_non_flexible : list float) :
  length y_flexible < length x_flexible
  \/ (length x_flexible <= length y_flexible
      /\ length y_non_flexible < length x_non_flexible) ->
  write_result x_flexible x_non_flexible y_flexible y_non_flexible
  = Raise IndexError.
Proof.
  intros [H | [H1 H2]]; unfold write_result.
  - rewrite (copy_short x_flexible y_flexible) by lia. reflexivity.
  - rewrite (copy_rounds x_flexible y_flexible) by lia.
    cbn [mbind result_bind].
    rewrite (copy_short x_non_flexible y_non_flexible) by lia. reflexivity.
Qed.

End ResultFile.

Section SweepToFile.
Context `{Gen : Generator} `{Pf : Solver}.

Lemma sweep_body_aligned update settings net b p w net' b' w' :
  sweep_body update settings (net, b) p w = (Ok (net', b'), w') ->
  aligned b -> aligned b'.
Proof.
  unfold sweep_body. cbv [mbind M_bind lift pp_runpp].
  destruct (update net p) as [net1|]; [|discriminate].
  intros H (A1 & A2 & A3 & A4).
  destruct (runpp (pf w) net1) as [s [r|]]; cbn [option_map] in *.
  - destruct (_ && _ && _); cbv [mret M_ret] in *;
      inversion H; subst; unfold aligned; simpl;
      rewrite !length_app; simpl; repeat split; lia.
  - cbv [print mret M_ret] in *. inversion H; subst.
    unfold aligned. auto.
Qed.

Lemma sweep_loop_aligned update settings :
  forall batch net b w net' b' w',
  for_each (sweep_body update settings) (net, b) batch w
    = (Ok (net', b'), w') ->
  aligned b -> aligned b'.
Proof.
  induction batch as [|p batch IH]; intros net b w net' b' w' E A.
  - cbn in E. inversion E; subst. exact A.
  - cbn [for_each] in E. cbv [mbind M_bind] in E.
    destruct (sweep_body update settings (net, b) p w) as [[[net1 b1]|] w1]
      eqn:E1; [|discriminate].
    eapply IH; [exact E|]. eapply sweep_body_aligned; eassumption.
Qed.

(** X22: whatever a sweep returns can be written: when
    [all_pf_simulations] returns, its four lists of points are aligned with
    its two lists of profiles, and [write_result] on them returns a frame
    with as many rows as the longer of the two lists of profiles. *)
Theorem sweep_result_can_be_written
    (settings : SettingReader) (net : network) (batch : list profile)
    (w w' : World) (b : buckets) (dur : float) :
  all_pf_simulations settings net batch w = (Ok (b, dur), w') ->
  aligned b
  /\ exists rows,
       write_result (x_flexible b) (x_non_flexible b)
                    (y_flexible b) (y_non_flexible b) = Ok rows
       /\ length rows = Nat.max (length (prof_flexible b))
                                (length (prof_non_flexible b)).
Proof.
  intros H.
  assert (A : aligned b).
  { revert H. unfold all_pf_simulations, run_all_samples, run_all_samples_wl.
    assert (A0 : aligned no_buckets) by (unfold aligned; simpl; auto).
    destruct (String.eqb (fsps settings) "DG only");
      [|destruct (_ || _); [|discriminate]];
      cbv [mbind M_bind time_time];
      match goal with
      | |- context [for_each ?f ?s ?l ?w1] =>
          destruct (for_each f s l w1) as [[[n1 b1]|] w1'] eqn:E;
            [|discriminate]
      end;
      cbv [print mret M_ret]; intros H; inversion H; subst; clear H;
      exact (sweep_loop_aligned _ _ _ _ _ _ _ _ _ E A0). }
  split; [exact A|]. destruct A as (A1 & A2 & A3 & A4).
  destruct (write_result_frame (x_flexible b) (x_non_flexible b)
              (y_flexible b) (y_non_flexible b)) as (rows & E & L & _);
    [lia | lia |].
  exists rows. split; [exact E|]. rewrite L, A1, A3. reflexivity.
Qed.

End SweepToFile.

(** ** Reports and index lists *)

Section Reports.

(** The rows of a table whose label is in [input], in table order. *)
Local Abbreviation selected table input :=
  (snd <$> List.filter (fun row => py_in_Z (Z.of_nat (fst row)) input)
                       (imap (fun i r => (i, r)) table)) (only parsing).

Lemma get_input_fold {R} (cp cq : R -> float) input (l : list (nat * R)) acc :
  fold_left
    (fun (acc : list float * list float) (row : nat * R) =>
       if py_in_Z (Z.of_nat (fst row)) input
       then (fst acc ++ [cp (snd row)], snd acc ++ [cq (snd row)])
       else acc) l acc
  = (fst acc
     ++ (cp <$> (snd <$> List.filter
                   (fun row => py_in_Z (Z.of_nat (fst row)) input) l)),
     snd acc
     ++ (cq <$> (snd <$> List.filter
                   (fun row => py_in_Z (Z.of_nat (fst row)) input) l))).
Proof.
  revert acc. induction l as [|row l IH]; intros [a1 a2]; simpl.
  - rewrite !app_nil_r. reflexivity.
  - rewrite IH. destruct (py_in_Z _ input); simpl; [|reflexivity].
    rewrite <- !app_assoc. reflexivity.
Qed.

Lemma get_input_spec {R} (cp cq : R -> float) (table : list R) input :
  get_input cp cq table input
  = (cp <$> selected table input, cq <$> selected table input).
Proof. unfold get_input. rewrite get_input_fold. reflexivity. Qed.

Lemma filter_split_perm {A} (f : A -> bool) (l : list A) :
  List.filter f l ++ List.filter (fun x => negb (f x)) l ≡ₚ l.
Proof.
  induction l as [|x l IH]; simpl; [reflexivity|].
  destruct (f x); simpl.
  - constructor. exact IH.
  - rewrite <- Permutation_middle. constructor. exact IH.
Qed.

Lemma imap_pair_snd {A} (l : list A) :
  snd <$> imap (fun i r => (i, r)) l = l.
Proof.
  apply list_eq. intros k.
  rewrite list_lookup_fmap, list_lookup_imap.
  destruct (l !! k); reflexivity.
Qed.

Lemma imap_pair_In {A} (l : list A) (row : nat * A) :
  In row (imap (fun i r => (i, r)) l) -> fst row < length l.
Proof.
  intros H. apply list_elem_of_In, list_elem_of_lookup in H as [k Hk].
  rewrite list_lookup_imap in Hk.
  destruct (l !! k) eqn:E; [|discriminate]. injection Hk as <-.
  simpl. eapply lookup_lt_Some. exact E.
Qed.

Lemma py_in_Z_In i l : py_in_Z i l = true <-> In i l.
Proof.
  unfold py_in_Z. rewrite existsb_exists. split.
  - intros (x & Hx & E). apply Z.eqb_eq in E. subst. exact Hx.
  - intros H. exists i. split; [exact H | apply Z.eqb_refl].
Qed.

Lemma In_np_arange i n : In i (np_arange n) <-> exists k, i = Z.of_nat k /\ k < n.
Proof.
  unfold np_arange. rewrite <- list_elem_of_In, list_elem_of_fmap.
  split; intros (k & -> & Hk); exists k; (split; [reflexivity|]).
  - apply elem_of_seq in Hk. lia.
  - apply elem_of_seq. lia.
Qed.

(** Membership in the list that [get_unobservable_lines_buses_indices]
    builds. *)
Lemma unobserved_membership observed n i :
  i < n ->
  py_in_Z (Z.of_nat i)
          (List.filter (fun z => negb (py_in_Z z observed)) (np_arange n))
  = negb (py_in_Z (Z.of_nat i) observed).
Proof.
  intros Hi. destruct (py_in_Z (Z.of_nat i) observed) eqn:E; simpl.
  - apply not_true_iff_false. intros H. apply py_in_Z_In, filter_In in H.
    destruct H as [_ H]. rewrite E in H. discriminate.
  - apply py_in_Z_In, filter_In. split; [|rewrite E; reflexivity].
    apply In_np_arange. eauto.
Qed.

Lemma selected_partition {R} (col : R -> float) (table : list R) observed :
  (col <$> selected table observed)
  ++ (col <$> selected table
        (List.filter (fun z => negb (py_in_Z z observed))
                     (np_arange (length table))))
  ≡ₚ col <$> table.
Proof.
  rewrite (filter_ext_in
             (fun row : nat * R =>
                py_in_Z (Z.of_nat (fst row))
                  (List.filter (fun z => negb (py_in_Z z observed))
                               (np_arange (length table))))
             (fun row => negb (py_in_Z (Z.of_nat (fst row)) observed))).
  - rewrite <- !fmap_app, filter_split_perm, imap_pair_snd. reflexivity.
  - intros row Hrow. apply unobserved_membership.
    apply imap_pair_In. exact Hrow.
Qed.

(** X23: once [get_unobservable_lines_buses_indices] has run (the result
    tables having a row per bus and per line), the report of
    [report_pf_results] covers the network exactly once: for each of the
    six quantities, the values reported as observable and those reported
    as unobservable are together the values of the whole column, whatever
    the list of observable indices contains. *)
Theorem report_covers_network_once (net : solved_tables) (settings : Scenario) :
  exists p_obs q_obs v_obs d_obs p_line_obs q_line_obs
         p_non_obs q_non_obs v_non_obs d_non_obs p_line_non_obs q_line_non_obs,
    report_pf_results net
      (get_unobservable_lines_buses_indices
         (length (res_line net)) (length (res_bus net)) settings)
    = [p_obs; q_obs; v_obs; d_obs; p_line_obs; q_line_obs;
       p_non_obs; q_non_obs; v_non_obs; d_non_obs;
       p_line_non_obs; q_line_non_obs]
    /\ p_obs ++ p_non_obs ≡ₚ bus_p_mw <$> res_bus net
    /\ q_obs ++ q_non_obs ≡ₚ bus_q_mvar <$> res_bus net
    /\ v_obs ++ v_non_obs ≡ₚ bus_vm_pu <$> res_bus net
    /\ d_obs ++ d_non_obs ≡ₚ bus_va_degree <$> res_bus net
    /\ p_line_obs ++ p_line_non_obs ≡ₚ line_p_from_mw <$> res_line net
    /\ q_line_obs ++ q_line_non_obs ≡ₚ line_q_from_mvar <$> res_line net.
Proof.
  unfold report_pf_results, get_input_busses_pq, get_input_busses_v,
    get_input_lines_pq, get_unobservable_lines_buses_indices.
  cbn [observ_buses observ_lines non_observ_buses non_observ_lines].
  rewrite !get_input_spec.
  eexists _, _, _, _, _, _, _, _, _, _, _, _. split; [reflexivity|].
  repeat split; apply selected_partition.
Qed.

(** X24: the three [get_input_*] functions ask of the index list only
    which row labels it contains: two lists with the same labels among
    those of the table give the same two columns, so the order of the list,
    repetitions in it and labels that are not in the table play no part. *)
Theorem get_input_depends_on_membership_only
    (net : solved_tables) (input1 input2 : list Z) :
  (forall i, i < Nat.max (length (res_bus net)) (length (res_line net)) ->
     py_in_Z (Z.of_nat i) input1 = py_in_Z (Z.of_nat i) input2) ->
  get_input_busses_pq net input1 = get_input_busses_pq net input2
  /\ get_input_busses_v net input1 = get_input_busses_v net input2
  /\ get_input_lines_pq net input1 = get_input_lines_pq net input2.
Proof.
  intros H. unfold get_input_busses_pq, get_input_busses_v,
    get_input_lines_pq.
  rewrite !get_input_spec.
  rewrite (filter_ext_in
             (fun row : nat * bus_row => py_in_Z (Z.of_nat (fst row)) input1)
             (fun row => py_in_Z (Z.of_nat (fst row)) input2)
             (imap (fun i r => (i, r)) (res_bus net))).
  2:{ intros row Hrow. apply H. apply imap_pair_In in Hrow. lia. }
  rewrite (filter_ext_in
             (fun row : nat * line_row => py_in_Z (Z.of_nat (fst row)) input1)
             (fun row => py_in_Z (Z.of_nat (fst row)) input2)
             (imap (fun i r => (i, r)) (res_line net))).
  2:{ intros row Hrow. apply H. apply imap_pair_In in Hrow. lia. }
  auto.
Qed.

End Reports.

Section ScenarioSetup.

(** X25: [update_settings] reads the first entry of each of the five index
    lists of the settings, so it returns exactly when none of them is
    empty, and raises [IndexError] otherwise. *)
Theorem update_settings_outcome
    (net : network) (n_line n_bus : nat) (settings : Scenario) :
  match update_settings net n_line n_bus settings with
  | Ok _ =>
      observ_lines settings <> [] /\ observ_buses settings <> []
      /\ sc_fsp_wt settings <> [] /\ sc_fsp_pv settings <> []
      /\ sc_fsp_load settings <> []
  | Raise e =>
      e = IndexError
      /\ (observ_lines settings = [] \/ observ_buses settings = []
          \/ sc_fsp_wt settings = [] \/ sc_fsp_pv settings = []
          \/ sc_fsp_load settings = [])
  end.
Proof.
  destruct settings as [wt pv ld ol ob nol nob].
  unfold update_settings, get_observable_lines_buses, get_fsp,
    get_unobservable_lines_buses_indices, first_is_minus_one, index.
  cbn [observ_lines observ_buses sc_fsp_wt sc_fsp_pv sc_fsp_load
       non_observ_lines non_observ_buses].
  destruct ol as [|? ?]; [cbn; auto 10|].
  destruct ob as [|? ?]; [cbn; auto 10|].
  destruct wt as [|? ?]; [cbn; auto 10|].
  destruct pv as [|? ?]; [cbn; auto 10|].
  destruct ld as [|? ?]; [cbn; auto 10|].
  cbn. repeat split; discriminate.
Qed.

Lemma filter_all_observed n :
  List.filter (fun z => negb (py_in_Z z (np_arange n))) (np_arange n) = [].
Proof.
  assert (H : forall l, (forall z, In z l -> In z (np_arange n)) ->
            List.filter (fun z => negb (py_in_Z z (np_arange n))) l = []).
  { induction l as [|z l IH]; intros Hl; simpl; [reflexivity|].
    replace (py_in_Z z (np_arange n)) with true.
    - simpl. apply IH. intros; apply Hl; right; assumption.
    - symmetry. apply py_in_Z_In, Hl. left. reflexivity. }
  apply H. auto.
Qed.

(** X26: after [update_settings] the observable and the unobservable
    indices split the buses and the lines: an index below the number of
    buses (lines) is in exactly one of the two lists; and a list of
    observable indices that starts with [-1] makes every bus (line)
    observable and none unobservable. *)
Theorem update_settings_splits_observability
    (net : network) (n_line n_bus : nat) (settings settings' : Scenario) :
  update_settings net n_line n_bus settings = Ok settings' ->
  (forall i, i < n_bus ->
     py_in_Z (Z.of_nat i) (non_observ_buses settings')
     = negb (py_in_Z (Z.of_nat i) (observ_buses settings')))
  /\ (forall i, i < n_line ->
        py_in_Z (Z.of_nat i) (non_observ_lines settings')
        = negb (py_in_Z (Z.of_nat i) (observ_lines settings')))
  /\ (observ_buses settings !! 0 = Some (-1)%Z ->
      observ_buses settings' = np_arange n_bus
      /\ non_observ_buses settings' = [])
  /\ (observ_lines settings !! 0 = Some (-1)%Z ->
      observ_lines settings' = np_arange n_line
      /\ non_observ_lines settings' = []).
Proof.
  destruct settings as [wt pv ld ol ob nol nob].
  unfold update_settings, get_observable_lines_buses, get_fsp,
    get_unobservable_lines_buses_indices, first_is_minus_one, index.
  cbn [observ_lines observ_buses sc_fsp_wt sc_fsp_pv sc_fsp_load
       non_observ_lines non_observ_buses].
  destruct ol as [|l0 ol]; [discriminate|].
  destruct ob as [|b0 ob]; [discriminate|].
  destruct wt as [|? ?]; [discriminate|].
  destruct pv as [|? ?]; [discriminate|].
  destruct ld as [|? ?]; [discriminate|].
  cbn. intros [= <-].
  cbn [observ_lines observ_buses non_observ_lines non_observ_buses].
  split; [intros i Hi; apply unobserved_membership; exact Hi|].
  split; [intros i Hi; apply unobserved_membership; exact Hi|].
  split; intros [= ->]; cbn; (split; [reflexivity|]);
    apply filter_all_observed.
Qed.

Lemma py_in_positions i l : py_in i (positions l) = py_in_Z (Z.of_nat i) l.
Proof.
  unfold py_in, py_in_Z, positions.
  induction l as [|z l IH]; [reflexivity|]. cbn [omap list_omap existsb].
  destruct (Z.leb_spec 0 z) as [Hz|Hz]; cbn [existsb]; rewrite IH.
  - f_equal. destruct (Nat.eqb_spec i (Z.to_nat z)),
      (Z.eqb_spec (Z.of_nat i) z); try reflexivity; lia.
  - destruct (Z.eqb_spec (Z.of_nat i) z); [lia | reflexivity].
Qed.

(** X27: a list of flexible PV indices that starts with [-1] makes every
    generator flexible.  With the lists that [get_fsp] returns for such
    settings, [update_pqs] writes a profile that is no longer than the
    generator table into the network exactly: each generator the profile
    reaches gets the profile's P and Q. *)
Theorem default_fsp_writes_profile
    (net : network) (settings settings' : Scenario) (p : profile) :
  get_fsp net settings = Ok settings' ->
  sc_fsp_pv settings !! 0 = Some (-1)%Z ->
  p <> [] -> length p <= length (sgen net) ->
  exists net',
    update_pqs net (positions (sc_fsp_wt settings'))
               (positions (sc_fsp_pv settings')) (Some p) 1 1 = Ok net'
    /\ forall i g, sgen net !! i = Some g ->
         sgen net' !! i
         = Some (match p !! i with
                 | Some e => mk_row (fst e) (snd e) (sn_mva g)
                 | None => g
                 end).
Proof.
  intros H Hpv Hp Hlen.
  assert (Epv : sc_fsp_pv settings' = np_arange (length (sgen net))).
  { revert H. unfold get_fsp, first_is_minus_one, index.
    destruct (sc_fsp_wt settings !! 0); [|discriminate].
    rewrite Hpv. cbn.
    destruct (sc_fsp_load settings !! 0); [|discriminate].
    cbn. intros [= <-]. reflexivity. }
  destruct (update_pqs_all_flexible net (positions (sc_fsp_wt settings'))
              (positions (sc_fsp_pv settings')) p Hp Hlen)
    as (net' & E & _ & _ & _ & R).
  { intros i Hi. rewrite py_in_positions, Epv.
    replace (py_in_Z _ _) with true; [reflexivity|].
    symmetry. apply py_in_Z_In, In_np_arange. exists i. split; [reflexivity|lia]. }
  exists net'. split; assumption.
Qed.

End ScenarioSetup.

(** * The program on concrete inputs *)

Import Stub.

(** C1, at a failing input: one generator rated 0.5 MVA and the raw value
    1.5 (a draw above 1, as [Normal] and [Normal_Limits_Oriented] produce
    them).  [sample_new_point] returns the entry [(0.75, NaN)]: the active
    power exceeds the rating, the square root of a negative number is not a
    number, and the envelope test fails for every tolerance. *)
Theorem sample_new_point_leaves_envelope :
  sample_new_point [mk_row 0.5 0 0.5] [[1.5%float]] 1
    = Ok [[(0.75%float, nan)]]
  /\ forall eps, within_envelope eps 0.5 (0.75%float, nan) = false.
Proof.
  split; [vm_compute; reflexivity|].
  intros eps. unfold within_envelope, F64.pow2. cbn [fst snd].
  replace (0.75 * 0.75 + nan * nan)%float with nan by (vm_compute; reflexivity).
  apply F64Facts.leb_nan_l.
Qed.

(** The same through [profile_creation]: with the stub generator the first
    limits-oriented draw is 1 + 1 * 0.5. *)
Example profile_creation_keep_mp_nan :
  match fst (profile_creation 2 net0 "Normal_Limits_Oriented" true "DG only"
               [] w0) with
  | Ok (p, _) => p !! 0 ≫= (.!! 0)
  | Raise _ => None
  end = Some (0.75%float, nan).
Proof. vm_compute. reflexivity. Qed.

(** The default sample count: 100 requested, 99 produced. *)
Lemma profile_creation_All_length_witness :
  exists profiles dur w',
    profile_creation 100 net0 "Uniform" false "All" [] w0
      = (Ok (profiles, dur), w')
    /\ length profiles = 100 / 2 + 100 / 8 + 3 * 100 / 8.
Proof.
  apply (profile_creation_All_length 100 net0 "Uniform" false [] w0).
  - lia.
  - unfold valid_distribution. auto.
  - simpl. lia.
  - simpl. lia.
  - constructor.
Defined.

(** That is 99 profiles. *)
Example profile_creation_All_100 :
  match profile_creation 100 net0 "Uniform" false "All" [] w0 with
  | (Ok (profiles, _), _) => length profiles
  | _ => 0
  end = 99.
Proof. vm_compute. reflexivity. Qed.

(** Fewer than eight samples: the middle sub-batch is empty and numpy
    refuses to concatenate it along axis 1. *)
Example profile_creation_All_small :
  fst (profile_creation 4 net0 "Uniform" false "All" [] w0) = Raise AxisError.
Proof. vm_compute. reflexivity. Qed.

(** Four rows requested, six returned. *)
Example sample_from_rng_limits_oriented_4 :
  fst (sample_from_rng "Normal_Limits_Oriented" 4 2 w0)
  = Ok [[0.5; -1.5]; [2; 1]; [1.5; -1.5]; [2.5; -1]; [0.5; 2.5]; [1; 0.5]]%float.
Proof. vm_compute. reflexivity. Qed.

(** C9, at a failing input: two generators of which only the second is
    flexible.  Both [update_pqs] and [update_pqs_wl] write the profile on
    the second generator, and overwrite the reactive power 0 of the first,
    which is not flexible, with its active power 0.5. *)
Theorem update_pqs_overwrites_non_flexible_q :
  let net := mk_net [mk_row 0.5 0 0.5; mk_row 1.5 0 1.5]%float
                    [mk_row 0.25 0.125 0.5]%float (mk_res [] [] [] 0 0) in
  update_pqs net [1] [1] (Some [(0.5, 0); (1, 0.5)]%float) 1 1
  = Ok (mk_net [mk_row 0.5 0.5 0.5; mk_row 1 0.5 1.5]%float
               [mk_row 0.25 0.125 0.5]%float (mk_res [] [] [] 0 0))
  /\ update_pqs_wl net [1] [1]
       (Some [(0.5, 0); (1, 0.5); (0.125, 0.0625)]%float) 1 1 [0]
     = Ok (mk_net [mk_row 0.5 0.5 0.5; mk_row 1 0.5 1.5]%float
                  [mk_row 0.125 0.0625 0.5]%float (mk_res [] [] [] 0 0)).
Proof. split; vm_compute; reflexivity. Qed.

(** C7, as stated, fails: a load rated 1 MVA that draws 2 MW has a budget
    that is not a number.  With an explicit list of flexible loads the
    sample is reported and returned with [q = NaN]; with the empty list it
    is returned with [q = NaN] and nothing is printed.  Neither call
    fails. *)
Lemma sample_new_load_point_nan_not_failed :
  F64.isnan (sqrt (load_change * load_change * F64.pow2 1
                   - F64.pow2 (load_change * 2))%float) = true
  /\ sample_new_load_point [mk_row 2 1 1] [[1; 1]]%float 1 [0] w0
     = (Ok [[(2%float, nan)]],
        mk_world (rng w0) (clock w0) (ticks w0) [PrintNaN 1 2 0] (pf w0))
  /\ sample_new_load_point [mk_row 2 1 1] [[1; 1]]%float 1 [] w0
     = (Ok [[(2%float, nan)]], w0).
Proof. repeat split; vm_compute; reflexivity. Qed.

Lemma sample_new_load_point_reports_nan_witness :
  exists profs w' pj pre post,
    sample_new_load_point [mk_row 2 1 1] [[1; 1]]%float 1 [0] w0
      = (Ok profs, w')
    /\ profs !! 0 = Some pj
    /\ pj !! 0 = Some ((load_change * 2)%float, nan)
    /\ stdout w'
       = stdout w0 ++ pre ++ [PrintNaN 1 (load_change * 2)%float 0] ++ post.
Proof.
  apply (sample_new_load_point_reports_nan
           [mk_row 2 1 1] [[1; 1]]%float 1 [0] w0
           0 0 0 (mk_row 2 1 1) [1; 1]%float 1%float);
    try reflexivity; try lia.
  - intros [|k] Hk; simpl in Hk; try lia.
    eexists. split; [reflexivity|]. simpl. lia.
  - repeat constructor.
Defined.

(** One generator rated 0.5 MVA that gets the raw value 0.5 in both
    iterations. *)
Lemma sample_new_point_sign_alternates_witness :
  exists profs pj pj' p root q q',
    sample_new_point [mk_row 0.5 0 0.5] [[0.5]; [0.5]]%float 2 = Ok profs
    /\ profs !! 0 = Some pj /\ pj !! 0 = Some (p, q)
    /\ profs !! 1 = Some pj' /\ pj' !! 0 = Some (p, q')
    /\ p = (0.5 * 0.5)%float
    /\ root = sqrt (F64.pow2 0.5 - F64.pow2 p)%float
    /\ q = root
    /\ q' = (- root)%float
    /\ (F64.isnan root = false ->
        (q' =? - q)%float = true
        /\ (abs q' =? abs q)%float = true
        /\ (0 <? q)%float = (q' <? 0)%float
        /\ (q <? 0)%float = (0 <? q')%float)
    /\ (F64.isnan root = true ->
        F64.isnan q = true /\ F64.isnan q' = true
        /\ (q' =? - q)%float = false
        /\ (abs q' =? abs q)%float = false).
Proof.
  apply (sample_new_point_sign_alternates
           [mk_row 0.5 0 0.5] [[0.5]; [0.5]]%float 2 0 0
           (mk_row 0.5 0 0.5) [0.5%float] [0.5%float] 0.5%float);
    try reflexivity; try lia.
  intros [|[|k]] Hk; simpl in Hk; try lia; eexists; (split; [reflexivity|]);
    simpl; lia.
Defined.

(** The same call, run: the two reactive powers are a number and its
    negation. *)
Example sample_new_point_half :
  sample_new_point [mk_row 0.5 0 0.5] [[0.5]; [0.5]]%float 2
    = Ok [[(0.25, sqrt 0.1875)]; [(0.25, - sqrt 0.1875)]]%float
  /\ (0 <? sqrt 0.1875)%float = true
  /\ (- sqrt 0.1875 <? 0)%float = true.
Proof. repeat split; vm_compute; reflexivity. Qed.

(** C6, at a failing input: one generator rated 0.5 MVA that gets the raw
    value 1.5 in both iterations (a draw above 1, as [Normal] and
    [Normal_Limits_Oriented] produce them).  [sample_new_point] returns
    the entry [(0.75, NaN)] in both iterations: the active power exceeds
    the rating, the square root of the negative difference is not a
    number, and multiplying it by [(-1)^j] leaves it so.  The two reactive
    powers are neither positive nor negative, the second does not compare
    equal to the negation of the first, and their magnitudes do not compare
    equal. *)
Theorem sample_new_point_nan_does_not_alternate :
  sample_new_point [mk_row 0.5 0 0.5] [[1.5]; [1.5]]%float 2
    = Ok [[(0.75%float, nan)]; [(0.75%float, nan)]]
  /\ (nan =? - nan)%float = false
  /\ (abs nan =? abs nan)%float = false
  /\ (0 <? nan)%float = false /\ (nan <? 0)%float = false.
Proof. repeat split; vm_compute; reflexivity. Qed.

(** An iteration whose solve converges within the limits (the second call
    of the stub solver). *)
Lemma sweep_body_classifies_witness :
  let update := fun net p => update_pqs net [2] [0; 1; 2] (Some p) 1 1 in
  let profile := [(0.5, 0); (0.5, 0); (0.5, 0)]%float in
  let w := mk_world (rng w0) (clock w0) (ticks w0) (stdout w0) (1 : solver) in
  exists b',
    sweep_body update settings0 (net0, no_buckets) profile w
    = (Ok (mk_net (sgen net0) (load net0) res_ok, b'),
       mk_world (rng w) (clock w) (ticks w) (stdout w) (2 : solver))
    /\ (within_limits_abs settings0 res_ok
        <-> x_flexible b' = x_flexible no_buckets ++ [res_ext_grid_p_mw res_ok]
            /\ y_flexible b'
               = y_flexible no_buckets ++ [res_ext_grid_q_mvar res_ok]
            /\ prof_flexible b' = prof_flexible no_buckets ++ [profile])
    /\ (~ within_limits_abs settings0 res_ok
        <-> x_non_flexible b'
            = x_non_flexible no_buckets ++ [res_ext_grid_p_mw res_ok]
            /\ y_non_flexible b'
               = y_non_flexible no_buckets ++ [res_ext_grid_q_mvar res_ok]
            /\ prof_non_flexible b' = prof_non_flexible no_buckets ++ [profile])
    /\ (within_limits_abs settings0 res_ok
        -> x_non_flexible b' = x_non_flexible no_buckets
           /\ y_non_flexible b' = y_non_flexible no_buckets
           /\ prof_non_flexible b' = prof_non_flexible no_buckets)
    /\ (~ within_limits_abs settings0 res_ok
        -> x_flexible b' = x_flexible no_buckets
           /\ y_flexible b' = y_flexible no_buckets
           /\ prof_flexible b' = prof_flexible no_buckets)
    /\ (loading_not_negative res_ok
        -> (within_limits settings0 res_ok
            <-> within_limits_abs settings0 res_ok)).
Proof.
  intros update profile w.
  apply (sweep_body_classifies (Pf := cycling_solver)
           update settings0 net0 net0 no_buckets profile w 2 res_ok).
  - vm_compute. reflexivity.
  - reflexivity.
Defined.

(** The same iteration, run: the pair [(3, 0.5)] and the profile are in the
    feasible lists. *)
Example sweep_body_feasible_run :
  let update := fun net p => update_pqs net [2] [0; 1; 2] (Some p) 1 1 in
  let profile := [(0.5, 0); (0.5, 0); (0.5, 0)]%float in
  let w := mk_world (rng w0) (clock w0) (ticks w0) (stdout w0) (1 : solver) in
  within_limits_abs settings0 res_ok
  /\ fst (sweep_body update settings0 (net0, no_buckets) profile w)
     = Ok (mk_net (sgen net0) (load net0) res_ok,
           mk_buckets [3%float] [0.5%float] [] [] [profile] []).
Proof.
  split; [|vm_compute; reflexivity].
  unfold within_limits_abs. simpl.
  repeat split; repeat constructor.
Qed.

(** A sweep of four profiles against the stub solver, whose first and
    fourth call fail. *)
Lemma sweep_accounts_for_every_profile_witness :
  let batch :=
    [[(0.5, 0); (0.5, 0); (0.5, 0)]; [(0.25, 0); (0.5, 0); (0.5, 0)];
     [(0.25, 0.25); (0.5, 0); (0.5, 0)]; [(0, 0); (0.5, 0); (0.5, 0)]]%float in
  let update := fun net p => update_pqs net [2] [0; 1; 2] (Some p) 1 1 in
  let update_wl :=
    fun net p => update_pqs_wl net [2] [0; 1; 2] (Some p) 1 1 [0] in
  let profile := [(0.5, 0); (0.5, 0); (0.5, 0)]%float in
  sweep_body update settings0 (net0, no_buckets) profile w0
  = (Ok (net0, no_buckets),
     mk_world (rng w0) (clock w0) (ticks w0)
              (stdout w0 ++ [PrintNotConverged profile]) (1 : solver))
  /\
  (exists tr b dur w',
     solve_in_turn update net0 (pf w0) batch = Ok (tr, pf w')
     /\ fst <$> tr = batch
     /\ run_all_samples settings0 net0 batch w0 = (Ok (b, dur), w')
     /\ prof_flexible b
        = fst <$> List.filter (fun e => limits_hold settings0 (snd e))
                              (converged tr)
     /\ prof_non_flexible b
        = fst <$> List.filter (fun e => negb (limits_hold settings0 (snd e)))
                              (converged tr)
     /\ skipped_count (stdout w') = length (failed tr)
     /\ length (prof_flexible b) + length (prof_non_flexible b)
        + skipped_count (stdout w') = length batch)
  /\
  (exists tr b dur w',
     solve_in_turn update_wl net0 (pf w0) batch = Ok (tr, pf w')
     /\ fst <$> tr = batch
     /\ run_all_samples_wl settings0 net0 batch w0 = (Ok (b, dur), w')
     /\ prof_flexible b
        = fst <$> List.filter (fun e => limits_hold settings0 (snd e))
                              (converged tr)
     /\ prof_non_flexible b
        = fst <$> List.filter (fun e => negb (limits_hold settings0 (snd e)))
                              (converged tr)
     /\ skipped_count (stdout w') = length (failed tr)
     /\ length (prof_flexible b) + length (prof_non_flexible b)
        + skipped_count (stdout w') = length batch).
Proof.
  intros batch update update_wl profile.
  destruct (sweep_accounts_for_every_profile settings0 net0 batch w0)
    as (Hfail & Hdg & Hwl).
  split; [|split].
  - apply Hfail; [vm_compute; reflexivity | reflexivity].
  - destruct Hdg as (tr & b & dur & w' & H1 & H2 & H3 & _ & _ & H6 & _ & _
                     & H9 & _ & H11 & _ & H13).
    { repeat constructor; simpl; lia. }
    exists tr, b, dur, w'.
    split; [exact H1|]. split; [exact H2|]. split; [exact H3|].
    split; [exact H6|]. split; [exact H9|].
    split; [exact H11 | exact H13].
  - destruct Hwl as (tr & b & dur & w' & H1 & H2 & H3 & _ & _ & H6 & _ & _
                     & H9 & _ & H11 & _ & H13).
    { repeat constructor; simpl; lia. }
    exists tr, b, dur, w'.
    split; [exact H1|]. split; [exact H2|]. split; [exact H3|].
    split; [exact H6|]. split; [exact H9|].
    split; [exact H11 | exact H13].
Defined.

(** The solves of that sweep: the first and the fourth failed, the second
    converged within the limits, the third outside them. *)
Example solve_in_turn_stub :
  let batch :=
    [[(0.5, 0); (0.5, 0); (0.5, 0)]; [(0.25, 0); (0.5, 0); (0.5, 0)];
     [(0.25, 0.25); (0.5, 0); (0.5, 0)]; [(0, 0); (0.5, 0); (0.5, 0)]]%float in
  let update := fun net p => update_pqs net [2] [0; 1; 2] (Some p) 1 1 in
  option_map (fun tr => (snd <$> fst tr, failed (fst tr)))
    (match solve_in_turn update net0 (pf w0) batch with
     | Ok x => Some x
     | Raise _ => None
     end)
  = Some ([None; Some res_ok; Some res_overloaded; None],
          [[(0.5, 0); (0.5, 0); (0.5, 0)];
           [(0, 0); (0.5, 0); (0.5, 0)]]%float).
Proof. vm_compute. reflexivity. Qed.

(** The same sweep, run: one feasible, one infeasible, two skipped. *)
Example run_all_samples_stub :
  let batch :=
    [[(0.5, 0); (0.5, 0); (0.5, 0)]; [(0.25, 0); (0.5, 0); (0.5, 0)];
     [(0.25, 0.25); (0.5, 0); (0.5, 0)]; [(0, 0); (0.5, 0); (0.5, 0)]]%float in
  match run_all_samples settings0 net0 batch w0 with
  | (Ok (b, _), w') =>
      (length (prof_flexible b), length (prof_non_flexible b),
       skipped_count (stdout w'))
  | _ => (0, 0, 0)
  end = (1, 1, 2).
Proof. vm_compute. reflexivity. Qed.

(** ** More concrete inputs *)

Import Cases.

(** C4, as stated, fails: a solve with bus voltage 1, a transformer loaded
    at 25 percent and a line loading of -150 percent is within the limits
    in the words of the claim (-150 <= 100), and the iteration files its
    pair and its profile under the infeasible lists, because the code
    compares [abs(-150) = 150] with the limit. *)
Lemma sweep_body_negative_loading_is_infeasible :
  let update := fun net p => update_pqs net [2] [0; 1; 2] (Some p) 1 1 in
  within_limits settings0 res_negative
  /\ sweep_body (Pf := negative_solver) update settings0 (net0, no_buckets)
                p3 w_negative
     = (Ok (mk_net (sgen net0) (load net0) res_negative,
            mk_buckets [] [] [3%float] [0.5%float] [] [p3]),
        w_negative).
Proof.
  split; [|vm_compute; reflexivity].
  unfold within_limits. simpl. repeat split; repeat constructor.
Qed.

(** C5, as stated for every batch, fails: in a batch whose second profile
    has an entry more than the network has generators (and, for the sweep
    with loads, more than generators and flexible loads together), the
    first solve fails and is reported, and writing the second profile,
    which the loop does before its [try], raises: the sweep ends with the
    exception, the third profile is never solved, and no lists are
    returned. *)
Lemma sweep_aborts_after_a_failed_solve :
  run_all_samples settings0 net0 [p3; p4; p3] w0
  = (Raise KeyError,
     mk_world (rng w0) (clock w0) 1 [PrintNotConverged p3] (1 : solver))
  /\ run_all_samples_wl settings0 net0 [p3; p5; p3] w0
     = (Raise IndexError,
        mk_world (rng w0) (clock w0) 1 [PrintNotConverged p3] (1 : solver))
  /\ ~ (exists b dur w',
          run_all_samples settings0 net0 [p3; p4; p3] w0 = (Ok (b, dur), w')
          /\ length (prof_flexible b) + length (prof_non_flexible b)
             + skipped_count (stdout w') = length [p3; p4; p3]).
Proof.
  split; [vm_compute; reflexivity|]. split; [vm_compute; reflexivity|].
  intros (b & dur & w' & E & _). vm_compute in E. discriminate E.
Qed.

Lemma update_pqs_writes_profile_witness :
  exists net',
    update_pqs net0 [2] [0; 1; 2] (Some [(0.25, 0.125); (0.5, 0)]%float) 1 1
      = Ok net'
    /\ load net' = load net0 /\ res net' = res net0
    /\ length (sgen net') = length (sgen net0)
    /\ forall i g, sgen net0 !! i = Some g ->
         sgen net' !! i
         = Some (match [(0.25, 0.125); (0.5, 0)]%float !! i with
                 | Some e => mk_row (fst e) (snd e) (sn_mva g)
                 | None => g
                 end).
Proof.
  apply (update_pqs_writes_profile net0 [2] [0; 1; 2]
           [(0.25, 0.125); (0.5, 0)]%float).
  - discriminate.
  - simpl. lia.
  - intros [|[|i]] Hi; simpl in Hi; try lia; reflexivity.
Defined.

Lemma update_pqs_wl_writes_loads_witness :
  exists net',
    update_pqs_wl net0 [2] [0; 1; 2] (Some p4) 1 1 [0] = Ok net'
    /\ res net' = res net0
    /\ length (load net') = length (load net0)
    /\ (forall j, (forall k, length (sgen net0) + k < length p4 ->
                     [0] !! k <> Some j) ->
          load net' !! j = load net0 !! j)
    /\ (forall k j e, [0] !! k = Some j ->
          p4 !! (length (sgen net0) + k) = Some e ->
          (forall k', k < k' -> length (sgen net0) + k' < length p4 ->
             [0] !! k' <> Some j) ->
          load net' !! j = (fun r => mk_row (fst e) (snd e) (sn_mva r))
                           <$> load net0 !! j).
Proof.
  apply (update_pqs_wl_writes_loads net0 [2] [0; 1; 2] p4 1 1 [0]).
  - discriminate.
  - repeat constructor.
  - simpl. lia.
  - simpl. lia.
Defined.

Lemma update_pqs_wl_generators_as_update_pqs_witness :
  let net' := mk_net (sgen net0) [mk_row 0.125 0.0625 0.5]%float (res net0) in
  update_pqs_wl net0 [2] [0; 1; 2] (Some p4) 1 1 [0] = Ok net'
  /\ update_pqs net0 [2] [0; 1; 2] (Some (take (length (sgen net0)) p4)) 1 1
     = Ok (mk_net (sgen net') (load net0) (res net0)).
Proof.
  intros net'.
  assert (H : update_pqs_wl net0 [2] [0; 1; 2] (Some p4) 1 1 [0] = Ok net')
    by (vm_compute; reflexivity).
  split; [exact H|].
  apply (update_pqs_wl_generators_as_update_pqs net0 net' [2] [0; 1; 2] p4
           1 1 [0]); [repeat constructor | exact H].
Defined.

Lemma update_pqs_unknown_generator_raises_witness :
  update_pqs net0 [2] [0; 1; 2] (Some p4) 1 1 = Raise KeyError.
Proof.
  apply (update_pqs_unknown_generator_raises net0 [2] [0; 1; 2] p4 1 1).
  - simpl. lia.
  - reflexivity.
Defined.

Lemma update_pqs_wl_long_profile_raises_witness :
  update_pqs_wl net0 [2] [0; 1; 2] (Some p5) 1 1 [0] = Raise IndexError.
Proof.
  apply (update_pqs_wl_long_profile_raises net0 [2] [0; 1; 2] p5 1 1 [0]).
  - repeat constructor.
  - simpl. lia.
Defined.

Lemma sweep_partitions_the_batch_witness :
  exists b dur w',
    all_pf_simulations settings0 net0 batch0 w0 = (Ok (b, dur), w')
    /\ exists ev,
         reported (stdout w') = reported (stdout w0) ++ ev
         /\ prof_flexible b ++ prof_non_flexible b ++ ev ≡ₚ batch0
         /\ prof_flexible b `sublist_of` batch0
         /\ prof_non_flexible b `sublist_of` batch0
         /\ ev `sublist_of` batch0.
Proof.
  destruct (all_pf_simulations settings0 net0 batch0 w0) as [r w'] eqn:E.
  assert (Hr : exists b dur, r = Ok (b, dur)).
  { revert E. vm_compute. intros [= <- _]. eexists _, _. reflexivity. }
  destruct Hr as (b & dur & ->).
  exists b, dur, w'. split; [reflexivity|].
  exact (sweep_partitions_the_batch settings0 net0 batch0 w0 w' b dur E).
Defined.

Lemma sweep_aborts_on_unfit_profile_witness :
  (exists w', run_all_samples settings0 net0 ([p3] ++ p5 :: [p3]) w0
              = (Raise KeyError, w'))
  /\ (exists w', run_all_samples_wl settings0 net0 ([p3] ++ p5 :: [p3]) w0
                 = (Raise IndexError, w')).
Proof.
  destruct (sweep_aborts_on_unfit_profile settings0 net0 [p3] p5 [p3] w0)
    as (Hdg & Hwl).
  split.
  - apply Hdg; [repeat constructor | simpl; lia | reflexivity].
  - apply Hwl; [repeat constructor | repeat constructor; simpl; lia
               | simpl; lia].
Defined.

Lemma nan_result_is_filed_infeasible_witness :
  let update := fun net p => update_pqs net [2] [0; 1; 2] (Some p) 1 1 in
  sweep_body (Pf := nan_solver) update settings0 (net0, no_buckets) p3 w_nan
  = (Ok (mk_net (sgen net0) (load net0) res_nan,
         append_non_flexible no_buckets
           (res_ext_grid_p_mw res_nan, res_ext_grid_q_mvar res_nan) p3),
     mk_world (Pf := nan_solver) (rng w_nan) (clock w_nan) (ticks w_nan)
              (stdout w_nan) tt).
Proof.
  intros update.
  apply (nan_result_is_filed_infeasible (Pf := nan_solver)
           update settings0 net0 net0 no_buckets p3 w_nan tt res_nan).
  - vm_compute. reflexivity.
  - reflexivity.
  - right. left. reflexivity.
Defined.

Lemma sample_new_non_mp_point_within_budget_witness :
  (abs (snd (0.25, 0.25))
   <=? sqrt (F64.pow2 (sn_mva (mk_row 0.5 0 0.5))
             - F64.pow2 (fst (0.25, 0.25))))%float = true.
Proof.
  apply (sample_new_non_mp_point_within_budget
           [mk_row 0.5 0 0.5] [[0.5; 0.5]]%float 1
           [[(0.25, 0.25)]]%float 0 0 [(0.25, 0.25)]%float
           (0.25, 0.25)%float (mk_row 0.5 0 0.5));
    vm_compute; reflexivity.
Defined.

Lemma sample_new_non_mp_point_sign_alternates_witness :
  fst (0.25, -0.25)%float = fst (0.25, 0.25)%float
  /\ snd (0.25, -0.25)%float = (- snd (0.25, 0.25))%float.
Proof.
  apply (sample_new_non_mp_point_sign_alternates
           [mk_row 0.5 0 0.5] [[0.5; 0.5]; [0.5; 0.5]]%float 2
           [[(0.25, 0.25)]; [(0.25, -0.25)]]%float 0 0
           [(0.25, 0.25)]%float [(0.25, -0.25)]%float
           (0.25, 0.25)%float (0.25, -0.25)%float
           [0.5; 0.5]%float [0.5; 0.5]%float);
    vm_compute; reflexivity.
Defined.

Lemma sample_new_load_point_within_budget_witness :
  exists i l,
    ([0] = [] /\ i = 0 \/ [0] !! 0 = Some i)
    /\ [mk_row 0.25 0.125 0.5]%float !! i = Some l
    /\ let q_max :=
         sqrt (F64.pow2 (sn_mva l) - F64.pow2 (fst (0.25, 0.125)))%float in
       (F64.isnan q_max = false
        -> (abs (snd (0.25, 0.125)) <=? q_max)%float = true)
       /\ (F64.isnan q_max = true -> F64.isnan (snd (0.25, 0.125)%float) = true).
Proof.
  apply (sample_new_load_point_within_budget
           [mk_row 0.25 0.125 0.5]%float [[1; 1]]%float 1 [0] w0 w0
           [[(0.25, 0.125)]]%float 0 0 [(0.25, 0.125)]%float
           (0.25, 0.125)%float);
    vm_compute; reflexivity.
Defined.


Lemma dg_only_pipeline_accounts_witness :
  exists profiles dur w1 b dur_pf w2,
    profile_creation 4 net0 "Uniform" false "DG only" [] w0
      = (Ok (profiles, dur), w1)
    /\ all_pf_simulations settings0 net0 profiles w1 = (Ok (b, dur_pf), w2)
    /\ aligned b
    /\ length (prof_flexible b) + length (prof_non_flexible b)
       + skipped_count (stdout w2) = 4 + skipped_count (stdout w0).
Proof.
  apply (dg_only_pipeline_accounts 4 net0 "Uniform" false [] settings0 w0).
  - unfold valid_distribution. auto.
  - reflexivity.
Defined.

Lemma profile_creation_Load_only_generators_witness :
  exists profiles dur w',
    profile_creation 2 net0 "Uniform" false "Load only" [0] w0
      = (Ok (profiles, dur), w')
    /\ length profiles = 2
    /\ forall j pj, profiles !! j = Some pj ->
         length pj = length (sgen net0) + flex_load_len net0 [0]
         /\ forall i g, sgen net0 !! i = Some g ->
              exists e, pj !! i = Some e /\ fst e = sn_mva g
                /\ (is_finite (F64.pow2 (sn_mva g)) = true ->
                    abs (snd e) = 0%float).
Proof.
  apply (profile_creation_Load_only_generators 2 net0 "Uniform" false [0] w0).
  - lia.
  - unfold valid_distribution. auto.
  - simpl. lia.
  - simpl. lia.
  - repeat constructor.
Defined.

Lemma load_only_pipeline_accounts_witness :
  exists profiles dur w1 b dur_pf w2,
    profile_creation 2 net0 "Uniform" false "Load only"
                     (fsp_load settings_load_only) w0
      = (Ok (profiles, dur), w1)
    /\ all_pf_simulations settings_load_only net0 profiles w1
       = (Ok (b, dur_pf), w2)
    /\ aligned b
    /\ length (prof_flexible b) + length (prof_non_flexible b)
       + skipped_count (stdout w2) = 2 + skipped_count (stdout w0).
Proof.
  apply (load_only_pipeline_accounts 2 net0 "Uniform" false
           settings_load_only w0).
  - lia.
  - unfold valid_distribution. auto.
  - simpl. lia.
  - discriminate.
  - repeat constructor.
  - reflexivity.
Defined.

Lemma write_result_rows_witness :
  exists rows,
    (write_result [1; 2] [3] [4; 5] [6])%float = Ok rows
    /\ length rows = Nat.max (length [1; 2]%float) (length [3%float])
    /\ forall k, k < Nat.max (length [1; 2]%float) (length [3%float]) ->
         rows !! k = Some (nth k [1; 2]%float 0%float,
                           nth k [4; 5]%float 0%float,
                           nth k [3%float] 0%float, nth k [6%float] 0%float).
Proof.
  apply (write_result_rows [1; 2] [3] [4; 5] [6])%float; reflexivity.
Defined.

Lemma write_result_padding_is_ambiguous_witness :
  (write_result ([1] ++ [0]) [3; 4] ([2] ++ [0]) [5; 6])%float
  = (write_result [1] [3; 4] [2] [5; 6])%float.
Proof.
  apply (write_result_padding_is_ambiguous [1] [3; 4] [2] [5; 6])%float;
    simpl; lia.
Defined.

Lemma write_result_short_column_raises_witness :
  (write_result [1; 2] [3] [4] [6])%float = Raise IndexError.
Proof.
  apply (write_result_short_column_raises [1; 2] [3] [4] [6])%float.
  left. simpl. lia.
Defined.

Lemma sweep_result_can_be_written_witness :
  exists b dur w',
    all_pf_simulations settings0 net0 batch0 w0 = (Ok (b, dur), w')
    /\ aligned b
    /\ exists rows,
         write_result (x_flexible b) (x_non_flexible b)
                      (y_flexible b) (y_non_flexible b) = Ok rows
         /\ length rows = Nat.max (length (prof_flexible b))
                                  (length (prof_non_flexible b)).
Proof.
  destruct (all_pf_simulations settings0 net0 batch0 w0) as [r w'] eqn:E.
  assert (Hr : exists b dur, r = Ok (b, dur)).
  { revert E. vm_compute. intros [= <- _]. eexists _, _. reflexivity. }
  destruct Hr as (b & dur & ->).
  exists b, dur, w'. split; [reflexivity|].
  exact (sweep_result_can_be_written settings0 net0 batch0 w0 w' b dur E).
Defined.

Lemma get_input_depends_on_membership_only_witness :
  get_input_busses_pq tables0 [1; 0; 1; 7; -5]%Z
    = get_input_busses_pq tables0 [0; 1]%Z
  /\ get_input_busses_v tables0 [1; 0; 1; 7; -5]%Z
     = get_input_busses_v tables0 [0; 1]%Z
  /\ get_input_lines_pq tables0 [1; 0; 1; 7; -5]%Z
     = get_input_lines_pq tables0 [0; 1]%Z.
Proof.
  apply (get_input_depends_on_membership_only tables0
           [1; 0; 1; 7; -5]%Z [0; 1]%Z).
  intros [|[|i]] Hi; simpl in Hi; try lia; reflexivity.
Defined.

Lemma update_settings_splits_observability_witness :
  let settings' :=
    mk_scenario [2]%Z [0; 1; 2]%Z [0]%Z [0]%Z [0; 1]%Z [] [] in
  update_settings net0 1 2 scenario0 = Ok settings'
  /\ (forall i, i < 2 ->
        py_in_Z (Z.of_nat i) (non_observ_buses settings')
        = negb (py_in_Z (Z.of_nat i) (observ_buses settings')))
  /\ (forall i, i < 1 ->
        py_in_Z (Z.of_nat i) (non_observ_lines settings')
        = negb (py_in_Z (Z.of_nat i) (observ_lines settings')))
  /\ (observ_buses scenario0 !! 0 = Some (-1)%Z ->
      observ_buses settings' = np_arange 2
      /\ non_observ_buses settings' = [])
  /\ (observ_lines scenario0 !! 0 = Some (-1)%Z ->
      observ_lines settings' = np_arange 1
      /\ non_observ_lines settings' = []).
Proof.
  intros settings'.
  assert (H : update_settings net0 1 2 scenario0 = Ok settings')
    by (vm_compute; reflexivity).
  split; [exact H|].
  exact (update_settings_splits_observability net0 1 2 scenario0 settings' H).
Defined.

Lemma default_fsp_writes_profile_witness :
  let settings' :=
    mk_scenario [2]%Z [0; 1; 2]%Z [0]%Z [0]%Z [-1]%Z [] [] in
  get_fsp net0 scenario0 = Ok settings'
  /\ exists net',
       update_pqs net0 (positions (sc_fsp_wt settings'))
                  (positions (sc_fsp_pv settings')) (Some p3) 1 1 = Ok net'
       /\ forall i g, sgen net0 !! i = Some g ->
            sgen net' !! i
            = Some (match p3 !! i with
                    | Some e => mk_row (fst e) (snd e) (sn_mva g)
                    | None => g
                    end).
Proof.
  intros settings'.
  assert (H : get_fsp net0 scenario0 = Ok settings')
    by (vm_compute; reflexivity).
  split; [exact H|].
  apply (default_fsp_writes_profile net0 scenario0 settings' p3 H).
  - reflexivity.
  - discriminate.
  - simpl. lia.
Defined.
